(** * Workflow recording, replay and the question cache of jobhuntllm

    A shallow embedding of the form-automation core of the repository:

    - [ResponseCache]   (background/agent/optimizations/response-cache.ts)
    - [RateLimiter]     (the call-budget guard of the dynamic form observer)
    - [DynamicFormObserver] (the observer itself, at the end of the file)
    - [WorkflowRecorder], [WorkflowExecutor]
                        (the recorder/replayer bundled in WorkflowSettings.tsx)
    - [WorkflowSaver]   (the history-derived workflow patterns)
    - the [stop_recording] action of ultra-fast-actions.ts

    JavaScript numbers that hold integers (timestamps in milliseconds, counters,
    indices) are integers of [Z]; the one fractional quantity, [successRate],
    and the eviction score of the cache are rationals of [Q], i.e. the
    arithmetic of the source is read exactly.  A [string] is a JavaScript
    string all of whose code units are at most U+00FF, one character for
    each code unit; every literal of the source is ASCII.  Where the code
    behaves differently above U+00FF (the [btoa] of the form observer, fed
    with the text of the page) the text is a sequence of code units
    ([JsString.Units]).  Calls to [Date.now()] become explicit clock
    arguments, and the collaborators the code talks to (page, storage)
    become explicit state. *)

From Stdlib Require Import Bool Arith ZArith QArith Lia List Ascii String.
From Stdlib Require Import DecimalString.
Import ListNotations.

Open Scope string_scope.
Open Scope list_scope.

(* ================================================================== *)
(** ** The JavaScript string operations the sources use               *)
(* ================================================================== *)

Module JsString.

(** [a || b] on strings: the empty string is falsy. *)
Definition or_else (a b : string) : string :=
  match a with EmptyString => b | _ => a end.

(** [s.includes(t)] *)
Fixpoint includes (s t : string) : bool :=
  if prefix t s then true
  else match s with
       | EmptyString => false
       | String _ s' => includes s' t
       end.

(** [s.substring(0, n)] *)
Definition take (n : nat) (s : string) : string := substring 0 n s.

(** The capital letters up to U+00FF: A to Z, and U+00C0 to U+00DE without
    the multiplication sign U+00D7.  Each has its small letter 32 places
    further on. *)
Definition is_upper (c : ascii) : bool :=
  let n := nat_of_ascii c in
  ((65 <=? n)%nat && (n <=? 90)%nat)
  || ((192 <=? n)%nat && (n <=? 222)%nat && negb (n =? 215)%nat).

Definition lower_char (c : ascii) : ascii :=
  if is_upper c then ascii_of_nat (nat_of_ascii c + 32) else c.

(** [s.toLowerCase()], for a string with code units up to U+00FF: there the
    mapping goes character by character and stays below U+00FF. *)
Fixpoint toLowerCase (s : string) : string :=
  match s with
  | EmptyString => EmptyString
  | String c s' => String (lower_char c) (toLowerCase s')
  end.

(** The character class [\w]: letters, digits and the underscore. *)
Definition is_word (c : ascii) : bool :=
  let n := nat_of_ascii c in
  ((48 <=? n)%nat && (n <=? 57)%nat)
  || ((65 <=? n)%nat && (n <=? 90)%nat)
  || ((97 <=? n)%nat && (n <=? 122)%nat)
  || (n =? 95)%nat.

(** The character class [\s]: tab, line feed, vertical tab, form feed,
    carriage return, space and the no-break space. *)
Definition is_space (c : ascii) : bool :=
  let n := nat_of_ascii c in
  ((9 <=? n)%nat && (n <=? 13)%nat) || (n =? 32)%nat || (n =? 160)%nat.

(** [s.replace(/[^\w\s]/g, '')] *)
Fixpoint strip_punctuation (s : string) : string :=
  match s with
  | EmptyString => EmptyString
  | String c s' =>
      if is_word c || is_space c then String c (strip_punctuation s')
      else strip_punctuation s'
  end.

(** [s.replace(/\s+/g, ' ')]: [in_run] tells that the preceding character
    was white space, whose run has already produced its single blank. *)
Fixpoint collapse_spaces_from (in_run : bool) (s : string) : string :=
  match s with
  | EmptyString => EmptyString
  | String c s' =>
      if is_space c
      then if in_run then collapse_spaces_from true s'
           else String " " (collapse_spaces_from true s')
      else String c (collapse_spaces_from false s')
  end.

Definition collapse_spaces (s : string) : string := collapse_spaces_from false s.

Fixpoint trim_start (s : string) : string :=
  match s with
  | String c s' => if is_space c then trim_start s' else s
  | EmptyString => EmptyString
  end.

Fixpoint all_space (s : string) : bool :=
  match s with
  | EmptyString => true
  | String c s' => is_space c && all_space s'
  end.

Fixpoint trim_end (s : string) : string :=
  match s with
  | EmptyString => EmptyString
  | String c s' => if all_space s then EmptyString else String c (trim_end s')
  end.

(** [s.trim()] *)
Definition trim (s : string) : string := trim_end (trim_start s).

(** [parts.join(sep)] *)
Fixpoint join (sep : string) (parts : list string) : string :=
  match parts with
  | [] => EmptyString
  | [p] => p
  | p :: rest => (p ++ sep ++ join sep rest)%string
  end.

(** Comparison of strings by code units, the default order of
    [Array.prototype.sort]. *)
Fixpoint leb (a b : string) : bool :=
  match a, b with
  | EmptyString, _ => true
  | String _ _, EmptyString => false
  | String x a', String y b' =>
      let n := nat_of_ascii x in
      let m := nat_of_ascii y in
      if (n <? m)%nat then true
      else if (m <? n)%nat then false
      else leb a' b'
  end.

Fixpoint insert_sorted (x : string) (l : list string) : list string :=
  match l with
  | [] => [x]
  | y :: l' => if leb x y then x :: l else y :: insert_sorted x l'
  end.

(** [arr.sort()] on an array of strings. *)
Definition sort (l : list string) : list string :=
  fold_right insert_sorted [] l.

(** The replacement text of [String.prototype.replace] with its [$]
    patterns expanded, for a pattern without capture groups: [$$] is a
    dollar sign, [$&] the matched text, [$`] the text before the match,
    [$'] the text after it; every other [$] stands for itself. *)
Fixpoint expand_replacement (matched before after template : string) : string :=
  match template with
  | EmptyString => EmptyString
  | String c rest =>
      if Ascii.eqb c "$"
      then match rest with
           | String d rest' =>
               if Ascii.eqb d "$"
               then String "$" (expand_replacement matched before after rest')
               else if Ascii.eqb d "&"
               then (matched ++ expand_replacement matched before after rest')%string
               else if Ascii.eqb d "`"
               then (before ++ expand_replacement matched before after rest')%string
               else if Ascii.eqb d "'"
               then (after ++ expand_replacement matched before after rest')%string
               else String c (expand_replacement matched before after rest)
           | EmptyString => String c EmptyString
           end
      else String c (expand_replacement matched before after rest)
  end.

(** [subject.replace(/pattern/g, by)] for a pattern that is a literal,
    non-empty text: every occurrence, scanning left to right, is replaced
    by the expansion of [by_]; [before] is the part of the whole subject
    that lies before the text still to scan. *)
Fixpoint replace_all_fuel (fuel : nat) (pattern by_ before subject : string) : string :=
  match fuel with
  | O => subject
  | S fuel' =>
      match subject with
      | EmptyString => EmptyString
      | String c rest =>
          if prefix pattern subject
          then
            let after := substring (length pattern) (length subject) subject in
            (expand_replacement pattern before after by_
             ++ replace_all_fuel fuel' pattern by_ (before ++ pattern) after)%string
          else String c (replace_all_fuel fuel' pattern by_
                           (before ++ String c EmptyString) rest)
      end
  end.

Definition replace_all (pattern by_ subject : string) : string :=
  replace_all_fuel (length subject) pattern by_ EmptyString subject.

(** [subject.replace(pattern, by)] for a pattern that is a text: the
    first occurrence is replaced by the expansion of [by_]. *)
Fixpoint replace_first_from (pattern by_ before subject : string) : string :=
  if prefix pattern subject
  then
    let after := substring (length pattern) (length subject) subject in
    (expand_replacement pattern before after by_ ++ after)%string
  else match subject with
       | EmptyString => EmptyString
       | String c rest =>
           String c (replace_first_from pattern by_ (before ++ String c EmptyString) rest)
       end.

Definition replace_first (pattern by_ subject : string) : string :=
  replace_first_from pattern by_ EmptyString subject.

(** *** Text with code units above U+00FF

    What a page reports is any JavaScript string, a sequence of UTF-16 code
    units.  [narrow] reads it as a [string] when no code unit is above
    U+00FF, and [widen] goes back. *)

Definition Units := list N.

Definition widen (s : string) : Units := map N_of_ascii (list_ascii_of_string s).

Fixpoint narrow (u : Units) : option string :=
  match u with
  | [] => Some EmptyString
  | x :: rest =>
      if (x <=? 255)%N
      then match narrow rest with
           | Some s => Some (String (ascii_of_N x) s)
           | None => None
           end
      else None
  end.

(** [a === b] on such texts. *)
Fixpoint units_eqb (a b : Units) : bool :=
  match a, b with
  | [], [] => true
  | x :: a', y :: b' => N.eqb x y && units_eqb a' b'
  | _, _ => false
  end.

(** [a || b] on such texts. *)
Definition units_or_else (a b : Units) : Units :=
  match a with [] => b | _ => a end.

(** *** [btoa]: base64 with the standard alphabet and [=] padding *)

Definition base64_alphabet : string :=
  "ABCDEFGHIJKLMNOPQRSTUVWXYZabcdefghijklmnopqrstuvwxyz0123456789+/".

Definition base64_digit (n : N) : ascii :=
  match get (N.to_nat n) base64_alphabet with
  | Some c => c
  | None => "="%char
  end.

Fixpoint btoa (s : string) : string :=
  match s with
  | EmptyString => EmptyString
  | String a EmptyString =>
      let x := N_of_ascii a in
      String (base64_digit (N.shiftr x 2))
        (String (base64_digit (N.shiftl (N.land x 3) 4)) "==")
  | String a (String b EmptyString) =>
      let x := N_of_ascii a in
      let y := N_of_ascii b in
      String (base64_digit (N.shiftr x 2))
        (String (base64_digit (N.lor (N.shiftl (N.land x 3) 4) (N.shiftr y 4)))
           (String (base64_digit (N.shiftl (N.land y 15) 2)) "="))
  | String a (String b (String c rest)) =>
      let x := N_of_ascii a in
      let y := N_of_ascii b in
      let z := N_of_ascii c in
      String (base64_digit (N.shiftr x 2))
        (String (base64_digit (N.lor (N.shiftl (N.land x 3) 4) (N.shiftr y 4)))
           (String (base64_digit (N.lor (N.shiftl (N.land y 15) 2) (N.shiftr z 6)))
              (String (base64_digit (N.land z 63)) (btoa rest))))
  end.

(** [btoa(u)] for any text: a code unit above U+00FF makes [btoa] throw an
    [InvalidCharacterError], for which [None] stands. *)
Definition btoa_units (u : Units) : option string := option_map btoa (narrow u).

(** *** Facts about the string operations *)

Lemma append_assoc (a b c : string) : ((a ++ b) ++ c)%string = (a ++ (b ++ c))%string.
Proof. induction a as [|x a IH]; simpl; [reflexivity | rewrite IH; reflexivity]. Qed.

Lemma append_empty_r (a : string) : (a ++ "")%string = a.
Proof. induction a as [|x a IH]; simpl; [reflexivity | rewrite IH; reflexivity]. Qed.

Lemma prefix_iff (t s : string) :
  prefix t s = true <-> exists post, s = (t ++ post)%string.
Proof.
  revert s. induction t as [|x t IH]; intros s; simpl.
  - destruct s; split; intros; try reflexivity; eexists; reflexivity.
  - destruct s as [|y s].
    + split; [discriminate | intros [post H]; discriminate].
    + simpl. destruct (ascii_dec x y) as [->|Hne].
      * rewrite IH. split; intros [post H]; exists post.
        -- rewrite H. reflexivity.
        -- injection H as H. exact H.
      * split; [discriminate|]. intros [post H]. injection H as Hxy _.
        congruence.
Qed.

Lemma includes_unfold (s t : string) :
  includes s t
  = if prefix t s then true
    else match s with
         | EmptyString => false
         | String _ s' => includes s' t
         end.
Proof. destruct s; reflexivity. Qed.

Lemma includes_iff (s t : string) :
  includes s t = true <-> exists pre post, s = (pre ++ t ++ post)%string.
Proof.
  induction s as [|c s IH]; rewrite includes_unfold.
  - destruct (prefix t "") eqn:Hp.
    + split; [|reflexivity]. intros _. apply prefix_iff in Hp.
      destruct Hp as [post Hp]. exists "", post. exact Hp.
    + split; [discriminate|]. intros [pre [post H]].
      destruct pre; [|discriminate]. simpl in H.
      assert (Ht : prefix t "" = true) by (apply prefix_iff; exists post; exact H).
      congruence.
  - destruct (prefix t (String c s)) eqn:Hp.
    + split; [|reflexivity]. intros _. apply prefix_iff in Hp.
      destruct Hp as [post Hp]. exists "", post. exact Hp.
    + rewrite IH. split.
      * intros [pre [post H]]. exists (String c pre), post. rewrite H. reflexivity.
      * intros [pre [post H]]. destruct pre as [|x pre].
        -- simpl in H.
           assert (Ht : prefix t (String c s) = true)
             by (apply prefix_iff; exists post; exact H).
           congruence.
        -- simpl in H. injection H as _ H. exists pre, post. exact H.
Qed.

Lemma includes_append_l (a b t : string) :
  includes a t = true -> includes (a ++ b) t = true.
Proof.
  rewrite !includes_iff. intros [pre [post H]].
  exists pre, (post ++ b)%string. rewrite H, !append_assoc. reflexivity.
Qed.

Lemma includes_append_r (a b t : string) :
  includes b t = true -> includes (a ++ b) t = true.
Proof.
  rewrite !includes_iff. intros [pre [post H]].
  exists (a ++ pre)%string, post. rewrite H, !append_assoc. reflexivity.
Qed.

Lemma includes_join (sep t : string) (parts : list string) (part : string) :
  In part parts -> includes part t = true -> includes (join sep parts) t = true.
Proof.
  intros Hin Ht. induction parts as [|p rest IH]; [contradiction|].
  destruct rest as [|q rest].
  - destruct Hin as [->|[]]. exact Ht.
  - change (join sep (p :: q :: rest)) with (p ++ sep ++ join sep (q :: rest))%string.
    destruct Hin as [->|Hin].
    + apply includes_append_l. exact Ht.
    + apply includes_append_r, includes_append_r, IH. exact Hin.
Qed.

Lemma lower_char_idempotent (c : ascii) : lower_char (lower_char c) = lower_char c.
Proof. destruct c as [[] [] [] [] [] [] [] []]; reflexivity. Qed.

Lemma toLowerCase_idempotent (s : string) : toLowerCase (toLowerCase s) = toLowerCase s.
Proof.
  induction s as [|c s IH]; simpl; [reflexivity|].
  rewrite lower_char_idempotent, IH. reflexivity.
Qed.

Lemma toLowerCase_append (a b : string) :
  toLowerCase (a ++ b) = (toLowerCase a ++ toLowerCase b)%string.
Proof. induction a as [|c a IH]; simpl; [reflexivity | rewrite IH; reflexivity]. Qed.

Lemma strip_punctuation_append (a b : string) :
  strip_punctuation (a ++ b) = (strip_punctuation a ++ strip_punctuation b)%string.
Proof.
  induction a as [|c a IH]; simpl; [reflexivity|].
  destruct (is_word c || is_space c); simpl; rewrite IH; reflexivity.
Qed.

(** *** Narrow and wide text *)

Lemma narrow_widen (s : string) : narrow (widen s) = Some s.
Proof.
  unfold widen. induction s as [|c s IH]; simpl; [reflexivity|].
  fold (widen s) in *. rewrite IH.
  assert (Hc : (N_of_ascii c <=? 255)%N = true).
  { apply N.leb_le. pose proof (N_ascii_bounded c). lia. }
  rewrite Hc, ascii_N_embedding. reflexivity.
Qed.

Lemma narrow_app (a b : Units) :
  narrow (a ++ b)
  = match narrow a, narrow b with
    | Some s, Some t => Some (s ++ t)%string
    | _, _ => None
    end.
Proof.
  induction a as [|x a IH]; simpl.
  - destruct (narrow b); reflexivity.
  - destruct (x <=? 255)%N; [|reflexivity].
    rewrite IH. destruct (narrow a), (narrow b); reflexivity.
Qed.

Lemma units_eqb_eq (a b : Units) : units_eqb a b = true <-> a = b.
Proof.
  revert b. induction a as [|x a IH]; destruct b as [|y b]; simpl;
    try (split; [discriminate | discriminate]); [tauto|].
  rewrite andb_true_iff, N.eqb_eq, IH. split.
  - intros [-> ->]. reflexivity.
  - intros H. injection H as -> ->. split; reflexivity.
Qed.

Lemma units_eqb_refl (a : Units) : units_eqb a a = true.
Proof. apply units_eqb_eq. reflexivity. Qed.

(** The capital letters above U+007F: U+00C0 goes to U+00E0, U+00DE to
    U+00FE, and the multiplication sign U+00D7 and the sharp s U+00DF stay. *)
Lemma lower_char_latin :
  map (fun n => nat_of_ascii (lower_char (ascii_of_nat n))) [192; 214; 215; 216; 222; 223]%nat
  = [224; 246; 215; 248; 254; 223]%nat.
Proof. reflexivity. Qed.

(** A punctuation mark stays one under [toLowerCase]. *)
Lemma lower_char_punctuation (c : ascii) :
  is_word c = false -> is_space c = false ->
  is_word (lower_char c) = false /\ is_space (lower_char c) = false.
Proof. destruct c as [[] [] [] [] [] [] [] []]; simpl; intros; try discriminate; split; reflexivity. Qed.

Lemma take_three_more (k : nat) (s t : string) :
  take (S (S (S k))) s = take (S (S (S k))) t ->
  s = t
  \/ exists a b c s' t',
      s = String a (String b (String c s'))
      /\ t = String a (String b (String c t'))
      /\ take k s' = take k t'.
Proof.
  unfold take. intros H.
  destruct s as [|a [|b [|c s']]]; destruct t as [|a' [|b' [|c' t']]];
    simpl in H; try (left; congruence).
  right. injection H as -> -> -> H. exists a', b', c', s', t'. auto.
Qed.

(** [btoa] encodes three characters as four: the first [4 * n] characters
    of the encoding are decided by the first [3 * n] characters encoded. *)
Lemma btoa_prefix (n : nat) :
  forall s t : string,
    take (3 * n) s = take (3 * n) t -> take (4 * n) (btoa s) = take (4 * n) (btoa t).
Proof.
  induction n as [|n IH]; intros s t H.
  - unfold take. simpl. destruct (btoa s), (btoa t); reflexivity.
  - replace (3 * S n)%nat with (S (S (S (3 * n)))) in H by lia.
    replace (4 * S n)%nat with (S (S (S (S (4 * n))))) by lia.
    destruct (take_three_more _ _ _ H) as [->|[a [b [c [s' [t' [-> [-> Hrest]]]]]]]].
    + reflexivity.
    + specialize (IH s' t' Hrest). unfold take in *.
      cbn [btoa substring]. rewrite IH. reflexivity.
Qed.

End JsString.

(* ================================================================== *)
(** ** ResponseCache                                                  *)
(* ================================================================== *)

Module ResponseCache.

Import JsString.

Definition MAX_CACHE_SIZE : nat := 1000.
Definition CACHE_EXPIRY : Z := 30 * 24 * 60 * 60 * 1000.

(** The [context] argument: the four fields the cache looks at (the empty
    string stands for an absent field) and whatever else the caller put in. *)
Record Context := mkContext {
  companyName : string;
  jobTitle : string;
  industry : string;
  platform : string;
  extra : list (string * string)
}.

Record CachedResponse := mkCachedResponse {
  hash : string;
  questionText : string;
  response : string;
  confidence : Q;
  timestamp : Z;
  lastUsed : Z;
  useCount : Z;
  context : option Context
}.

(** [Map<string, CachedResponse>]: the entries in insertion order. *)
Definition Cache := list (string * CachedResponse).

Definition size (c : Cache) : nat := List.length c.

Fixpoint map_get (k : string) (c : Cache) : option CachedResponse :=
  match c with
  | [] => None
  | (k', v) :: c' => if String.eqb k' k then Some v else map_get k c'
  end.

(** [Map.set]: an existing key keeps its place, a new key goes last. *)
Fixpoint map_set (k : string) (v : CachedResponse) (c : Cache) : Cache :=
  match c with
  | [] => [(k, v)]
  | (k', v') :: c' =>
      if String.eqb k' k then (k', v) :: c' else (k', v') :: map_set k v c'
  end.

Fixpoint map_delete (k : string) (c : Cache) : Cache :=
  match c with
  | [] => []
  | (k', v') :: c' => if String.eqb k' k then c' else (k', v') :: map_delete k c'
  end.

Definition extractKeyConcepts (text : string) : list string :=
  let concepts : list string :=
    (if includes text "experience" || includes text "years"
     then "experience" ::
          (if includes text "java" || includes text "python" || includes text "javascript"
           then ["programming_experience"] else [])
     else [])
    ++ (if includes text "authorized" || includes text "legal" || includes text "work"
        then ["work_authorization"] else [])
    ++ (if includes text "sponsor" || includes text "visa"
        then ["visa_sponsorship"] else [])
    ++ (if includes text "degree" || includes text "bachelor" || includes text "education"
        then ["education"] else [])
    ++ (if includes text "salary" || includes text "compensation" || includes text "pay"
        then ["compensation"] else [])
    ++ (if includes text "start" || includes text "available" || includes text "notice"
        then ["availability"] else [])
    ++ (if includes text "remote" || includes text "onsite" || includes text "relocate"
        then ["location_preference"] else [])
    ++ (if includes text "why" && (includes text "interested" || includes text "apply")
        then ["why_interested"] else [])
    ++ (if includes text "why" && (includes text "qualified" || includes text "fit")
        then ["why_qualified"] else [])
  in
  match concepts with
  | [] => ["general"]
  | _ => concepts
  end.

Definition normalize (questionText : string) : string :=
  trim (collapse_spaces (strip_punctuation (toLowerCase questionText))).

Definition generateQuestionHash (questionText : string) : string :=
  let normalized := normalize questionText in
  let concepts := extractKeyConcepts normalized in
  let conceptHash := join "_" (sort concepts) in
  take 16 (btoa conceptHash).

Definition personalizeResponse (response : string) (ctx : option Context) : string :=
  match ctx with
  | None => response
  | Some c =>
      replace_all "[Industry]" (or_else (industry c) "[Industry]")
        (replace_all "[Position]" (or_else (jobTitle c) "[Position]")
           (replace_all "[Company Name]" (or_else (companyName c) "[Company Name]")
              response))
  end.

Definition sanitizeContext (c : Context) : Context :=
  {| companyName := companyName c; jobTitle := jobTitle c;
     industry := industry c; platform := platform c; extra := [] |}.

(** [getCachedResponse], the clock of the call being [now]: the answer (or
    [None] for [null]) and the cache afterwards. *)
Definition getCachedResponse (now : Z) (cache : Cache) (question : string)
    (ctx : option Context) : option string * Cache :=
  let h := generateQuestionHash question in
  match map_get h cache with
  | None => (None, cache)
  | Some cached =>
      if (now - timestamp cached >? CACHE_EXPIRY)%Z
      then (None, map_delete h cache)
      else
        let cached' :=
          {| hash := hash cached; questionText := questionText cached;
             response := response cached; confidence := confidence cached;
             timestamp := timestamp cached; lastUsed := now;
             useCount := (useCount cached + 1)%Z; context := context cached |} in
        (Some (personalizeResponse (response cached) ctx), map_set h cached' cache)
  end.

(** The score of the comparator of [cleanupCache]. *)
Definition score (now : Z) (e : CachedResponse) : Q :=
  inject_Z (useCount e) + inject_Z (now - lastUsed e) / inject_Z 1000000.

(** [validEntries.sort((a, b) => bScore - aScore)]: [a] stays before [b]
    unless the comparator is positive; the sort is stable. *)
Fixpoint insert_by_score (now : Z) (a : string * CachedResponse)
    (l : list (string * CachedResponse)) : list (string * CachedResponse) :=
  match l with
  | [] => [a]
  | b :: l' =>
      if Qle_bool (score now (snd b) - score now (snd a)) 0
      then a :: l
      else b :: insert_by_score now a l'
  end.

Definition sort_by_score (now : Z) (l : list (string * CachedResponse)) :=
  fold_right (insert_by_score now) [] l.

(** [this.cache.clear(); validEntries.forEach(([h, e]) => this.cache.set(h, e))] *)
Definition rebuild (entries : list (string * CachedResponse)) : Cache :=
  fold_left (fun c kv => map_set (fst kv) (snd kv) c) entries [].

Definition cleanupCache (now : Z) (cache : Cache) : Cache :=
  let validEntries :=
    filter (fun kv => (now - timestamp (snd kv) <? CACHE_EXPIRY)%Z) cache in
  let validEntries :=
    if (MAX_CACHE_SIZE <? List.length validEntries)%nat
    then firstn MAX_CACHE_SIZE (sort_by_score now validEntries)
    else validEntries in
  rebuild validEntries.

Definition cacheResponse (now : Z) (cache : Cache) (question answer : string)
    (conf : Q) (ctx : option Context) : Cache :=
  let h := generateQuestionHash question in
  let cachedResponse :=
    {| hash := h; questionText := take 200 question; response := answer;
       confidence := conf; timestamp := now; lastUsed := now; useCount := 1;
       context := option_map sanitizeContext ctx |} in
  let cache := map_set h cachedResponse cache in
  if (MAX_CACHE_SIZE <? size cache)%nat then cleanupCache now cache else cache.

(** One call of [cacheResponse]: its clock and its arguments. *)
Record Insert := mkInsert {
  insert_clock : Z;
  insert_question : string;
  insert_answer : string;
  insert_confidence : Q;
  insert_context : option Context
}.

(** One [cacheResponse] after the other. *)
Definition cacheResponses (inserts : list Insert) (cache : Cache) : Cache :=
  fold_left
    (fun c i =>
       cacheResponse (insert_clock i) c (insert_question i) (insert_answer i)
         (insert_confidence i) (insert_context i))
    inserts cache.

(** *** An imported cache at capacity

    [loadCache] and [importCache] install whatever entries the stored or
    imported document lists.  [imported_cache] is such a document at
    capacity: 1,000 entries under the keys [h0] ... [h999], each used once,
    entry [i] created and last used at clock [i]. *)

Definition decimal (n : nat) : string := NilEmpty.string_of_uint (Nat.to_uint n).

Definition imported_entry (i : nat) : string * CachedResponse :=
  let key := ("h" ++ decimal i)%string in
  (key,
   {| hash := key; questionText := "imported question"; response := "imported answer";
      confidence := 1; timestamp := Z.of_nat i; lastUsed := Z.of_nat i;
      useCount := 1; context := None |}).

Definition imported_cache : Cache := map imported_entry (seq 0 1000).

(** The entry [cacheResponse] builds for a question, see above. *)
Definition fresh_entry (now : Z) (question answer : string) : CachedResponse :=
  {| hash := generateQuestionHash question; questionText := take 200 question;
     response := answer; confidence := 1; timestamp := now; lastUsed := now;
     useCount := 1; context := None |}.

(** The score as the specification words it: use count minus
    staleness over a large constant. *)
Definition spec_score (now : Z) (e : CachedResponse) : Q :=
  inject_Z (useCount e) - inject_Z (now - lastUsed e) / inject_Z 1000000.

(** *** Size of the cache *)

Lemma map_set_size (k : string) (v : CachedResponse) (c : Cache) :
  (size (map_set k v c) <= S (size c))%nat.
Proof.
  unfold size. induction c as [|[k' v'] c IH]; simpl.
  - lia.
  - destruct (String.eqb k' k); simpl; lia.
Qed.

Lemma rebuild_from_size (entries : list (string * CachedResponse)) :
  forall acc : Cache,
    (size (fold_left (fun c kv => map_set (fst kv) (snd kv) c) entries acc)
     <= size acc + List.length entries)%nat.
Proof.
  induction entries as [|kv entries IH]; intros acc; simpl.
  - lia.
  - specialize (IH (map_set (fst kv) (snd kv) acc)).
    pose proof (map_set_size (fst kv) (snd kv) acc). lia.
Qed.

Lemma rebuild_size (entries : list (string * CachedResponse)) :
  (size (rebuild entries) <= List.length entries)%nat.
Proof.
  unfold rebuild. pose proof (rebuild_from_size entries []) as H.
  simpl in H. exact H.
Qed.

Lemma cleanupCache_size (now : Z) (cache : Cache) :
  (size (cleanupCache now cache) <= MAX_CACHE_SIZE)%nat.
Proof.
  unfold cleanupCache.
  set (valid := filter _ cache).
  destruct (MAX_CACHE_SIZE <? List.length valid)%nat eqn:Hover.
  - eapply Nat.le_trans; [apply rebuild_size|]. apply firstn_le_length.
  - apply Nat.ltb_ge in Hover.
    eapply Nat.le_trans; [apply rebuild_size|]. exact Hover.
Qed.

Lemma cacheResponse_size (now : Z) (cache : Cache) (q a : string) (conf : Q)
    (ctx : option Context) :
  (size (cacheResponse now cache q a conf ctx) <= MAX_CACHE_SIZE)%nat.
Proof.
  unfold cacheResponse.
  match goal with |- context [if ?b then _ else _] => destruct b eqn:Hover end.
  - apply cleanupCache_size.
  - apply Nat.ltb_ge in Hover. exact Hover.
Qed.

Lemma cacheResponses_size (rest : list Insert) :
  forall (first : Insert) (cache : Cache),
    (size (cacheResponses (first :: rest) cache) <= MAX_CACHE_SIZE)%nat.
Proof.
  unfold cacheResponses.
  induction rest as [|next rest IH]; intros first cache.
  - simpl. apply cacheResponse_size.
  - simpl. simpl in IH. apply (IH next).
Qed.

(** C3.  Whatever the cache holds, once [cacheResponse] has stored its entry
    and run the cleanup the insert may trigger, the cache has at most 1,000
    entries; hence so has the cache after any non-empty run of inserts made
    one at a time, 1,001 inserts under distinct hashes among them. *)
Theorem cache_size_bounded_after_insert :
  (forall now cache q a conf ctx,
      (size (cacheResponse now cache q a conf ctx) <= 1000)%nat)
  /\ (forall first rest cache,
      (size (cacheResponses (first :: rest) cache) <= 1000)%nat).
Proof.
  split.
  - exact cacheResponse_size.
  - intros first rest cache. exact (cacheResponses_size rest first cache).
Qed.

(** *** The concept hash *)

Lemma hash_authorized :
  generateQuestionHash "Are you authorized to work in the US?" = "d29ya19hdXRob3Jp".
Proof. vm_compute. reflexivity. Qed.

Lemma hash_authorization :
  generateQuestionHash "Do you have work authorization?" = "d29ya19hdXRob3Jp".
Proof. vm_compute. reflexivity. Qed.

(** A company name with [$] patterns: [$$] comes out as one dollar sign,
    [$&] as the placeholder that was matched. *)
Lemma personalize_dollar_patterns :
  personalizeResponse "Pay at [Company Name]"
    (Some (mkContext "US$$ Corp" "" "" "" []))
  = "Pay at US$ Corp"
  /\ personalizeResponse "Pay at [Company Name]."
       (Some (mkContext "$& ($`|$')" "" "" "" []))
     = "Pay at [Company Name] (Pay at |.).".
Proof. split; reflexivity. Qed.

Lemma personalize_Yes (ctx : option Context) : personalizeResponse "Yes" ctx = "Yes".
Proof. destruct ctx as [c|]; reflexivity. Qed.

(** C5.  Both wordings of the work-authorization question carry the one
    concept tag [work_authorization] and so the same hash.  On the empty
    cache the first wording misses; once the answer [Yes] is stored for it
    (at clock [tput]) a look-up of the rephrasing (at clock [tget], within
    the 30 days an entry lives) answers [Yes]. *)
Theorem rephrased_question_shares_answer
    (tput tget : Z) (conf : Q) (ctx_put ctx_get : option Context)
    (Hfresh : (tget - tput <= CACHE_EXPIRY)%Z) :
  extractKeyConcepts (normalize "Are you authorized to work in the US?")
    = ["work_authorization"]
  /\ extractKeyConcepts (normalize "Do you have work authorization?")
    = ["work_authorization"]
  /\ generateQuestionHash "Are you authorized to work in the US?"
    = generateQuestionHash "Do you have work authorization?"
  /\ fst (getCachedResponse tput [] "Are you authorized to work in the US?" ctx_get)
    = None
  /\ fst (getCachedResponse tget
            (cacheResponse tput [] "Are you authorized to work in the US?" "Yes"
               conf ctx_put)
            "Do you have work authorization?" ctx_get)
    = Some "Yes".
Proof.
  split; [|split; [|split; [|split]]].
  - vm_compute. reflexivity.
  - vm_compute. reflexivity.
  - rewrite hash_authorized, hash_authorization. reflexivity.
  - unfold getCachedResponse. rewrite hash_authorized. reflexivity.
  - unfold getCachedResponse, cacheResponse.
    rewrite hash_authorized, hash_authorization. simpl.
    destruct (tget - tput >? CACHE_EXPIRY)%Z eqn:Hexp.
    + apply Z.gtb_lt in Hexp. lia.
    + simpl. rewrite personalize_Yes. reflexivity.
Qed.

Lemma rephrased_question_shares_answer_witness :
  fst (getCachedResponse 1000
         (cacheResponse 0 [] "Are you authorized to work in the US?" "Yes" 1 None)
         "Do you have work authorization?" None)
  = Some "Yes".
Proof.
  refine (proj2 (proj2 (proj2 (proj2
    (rephrased_question_shares_answer 0 1000 1 None None _))))).
  vm_compute. discriminate.
Defined.

(** *** Eviction under capacity pressure *)

Lemma imported_cache_scores_below_fresh :
  let top :=
    spec_score 5000 (fresh_entry 5000 "Are you authorized to work in the US?" "Yes") in
  forallb (fun kv => negb (Qle_bool top (spec_score 5000 (snd kv)))) imported_cache
  = true.
Proof. vm_compute. reflexivity. Qed.

(** C4, evaluated.  The cache holds 1,000 unexpired entries, each used once,
    when at clock 5000 an answer is stored for a new question.  The cleanup
    this triggers keeps the 1,000 entries that were there, the stalest
    included, and drops the entry just stored: the one whose score, counted
    as use count minus staleness, is strictly the highest of all.  The next
    look-up of the question misses. *)
Theorem eviction_drops_most_recent_entry :
  let q := "Are you authorized to work in the US?" in
  let fresh := fresh_entry 5000 q "Yes" in
  let stored := map_set (hash fresh) fresh imported_cache in
  size stored = 1001%nat
  /\ filter (fun kv => (5000 - timestamp (snd kv) <? CACHE_EXPIRY)%Z) stored = stored
  /\ cacheResponse 5000 imported_cache q "Yes" 1 None = imported_cache
  /\ Forall (fun kv => spec_score 5000 (snd kv) < spec_score 5000 fresh) imported_cache
  /\ fst (getCachedResponse 5000 (cacheResponse 5000 imported_cache q "Yes" 1 None)
            q None) = None.
Proof.
  cbv zeta.
  split; [|split; [|split; [|split]]].
  - vm_compute. reflexivity.
  - vm_compute. reflexivity.
  - vm_compute. reflexivity.
  - apply Forall_forall. intros kv Hin.
    pose proof imported_cache_scores_below_fresh as Hall. cbv zeta in Hall.
    rewrite forallb_forall in Hall. specialize (Hall kv Hin).
    apply negb_true_iff in Hall.
    apply Qnot_le_lt. intros Hle. apply Qle_bool_iff in Hle. congruence.
  - vm_compute. reflexivity.
Qed.

(* ------------------------------------------------------------------ *)
(** *** The rest of the cache: batches, the pattern table              *)
(* ------------------------------------------------------------------ *)

(** One entry of the argument of [batchCacheResponses]; a confidence that
    is missing or 0 becomes 1 ([entry.confidence || 1.0]). *)
Record BatchEntry := mkBatchEntry {
  batch_question : string;
  batch_response : string;
  batch_confidence : option Q;
  batch_context : option Context
}.

Definition confidence_or_one (c : option Q) : Q :=
  match c with
  | Some q => if Qeq_bool q 0 then 1 else q
  | None => 1
  end.

Definition batchCacheResponses (now : Z) (entries : list BatchEntry) (cache : Cache)
    : Cache :=
  fold_left
    (fun c entry =>
       let h := generateQuestionHash (batch_question entry) in
       map_set h
         {| hash := h; questionText := take 200 (batch_question entry);
            response := batch_response entry;
            confidence := confidence_or_one (batch_confidence entry);
            timestamp := now; lastUsed := now; useCount := 1;
            context := option_map sanitizeContext (batch_context entry) |}
         c)
    entries cache.

(** The resume data the templates read. *)
Record TemplateData := mkTemplateData {
  experience_years : option string;
  salary_expectation : option string;
  start_date : option string;
  willing_to_relocate : option string;
  remote_work : option string;
  technical_skills : option string;
  summary : option string
}.

(** [value || fallback] *)
Definition value_or (value : option string) (fallback : string) : string :=
  match value with
  | Some (String c s) => String c s
  | _ => fallback
  end.

(** [initializeCommonPatterns]: the table in insertion order. *)
Definition questionPatterns : list (string * string) :=
  [("bachelor", "Yes");
   ("degree", "Yes");
   ("authorized to work", "Yes");
   ("require sponsorship", "No");
   ("need visa", "No");
   ("years of experience", "{experience_years}");
   ("salary expectation", "{salary_expectation}");
   ("compensation", "{salary_expectation}");
   ("start date", "{start_date}");
   ("available to start", "{start_date}");
   ("notice period", "2 weeks");
   ("willing to relocate", "{willing_to_relocate}");
   ("remote work", "{remote_work}");
   ("commute", "Yes");
   ("onsite", "Yes");
   ("why interested",
    "I am excited about this opportunity because it aligns with my {experience_years} of experience in {technical_skills} and my career goals.");
   ("why qualified",
    "My background in {technical_skills} and {experience_years} of professional experience make me well-suited for this role.");
   ("tell us about yourself", "{summary}")].

Definition fillTemplate (template : string) (resumeData : option TemplateData) : string :=
  match resumeData with
  | None => template
  | Some rd =>
      replace_first "{summary}"
        (value_or (summary rd) "I am a dedicated professional with strong technical skills.")
        (replace_first "{technical_skills}"
           (value_or (technical_skills rd) "software development")
           (replace_first "{remote_work}" (value_or (remote_work rd) "Yes")
              (replace_first "{willing_to_relocate}" (value_or (willing_to_relocate rd) "Yes")
                 (replace_first "{start_date}" (value_or (start_date rd) "Immediate")
                    (replace_first "{salary_expectation}"
                       (value_or (salary_expectation rd) "Competitive")
                       (replace_first "{experience_years}"
                          (value_or (experience_years rd) "5+ years")
                          template))))))
  end.

(** The loop of [getPatternResponse] over the table. *)
Fixpoint first_pattern (normalized : string) (patterns : list (string * string))
    : option string :=
  match patterns with
  | [] => None
  | (pattern, responseTemplate) :: rest =>
      if includes normalized pattern then Some responseTemplate
      else first_pattern normalized rest
  end.

Definition getPatternResponse (questionText : string) (resumeData : option TemplateData)
    : option string :=
  option_map (fun t => fillTemplate t resumeData)
    (first_pattern (toLowerCase questionText) questionPatterns).

(** The joined tags [generateQuestionHash] encodes. *)
Definition conceptHash (questionText : string) : string :=
  join "_" (sort (extractKeyConcepts (normalize questionText))).

(** The keys of the map; a [Map] holds each key once. *)
Definition keys (c : Cache) : list string := map fst c.

(** An entry that [cleanupCache] takes for unexpired. *)
Definition unexpired (now : Z) (kv : string * CachedResponse) : bool :=
  (now - timestamp (snd kv) <? CACHE_EXPIRY)%Z.

(** Look-ups one after the other, each with its clock, question and
    context; the cache afterwards. *)
Definition lookups (gets : list (Z * string * option Context)) (cache : Cache) : Cache :=
  fold_left (fun c g => snd (getCachedResponse (fst (fst g)) c (snd (fst g)) (snd g)))
    gets cache.

(** *** The map operations *)

Lemma map_get_set_same (k : string) (v : CachedResponse) (c : Cache) :
  map_get k (map_set k v c) = Some v.
Proof.
  induction c as [|[k' v'] c IH]; simpl.
  - rewrite String.eqb_refl. reflexivity.
  - destruct (String.eqb k' k) eqn:Hk; simpl; rewrite Hk; [reflexivity | exact IH].
Qed.

Lemma map_get_set_other (k k' : string) (v : CachedResponse) (c : Cache) :
  k' <> k -> map_get k' (map_set k v c) = map_get k' c.
Proof.
  intros Hne. induction c as [|[k0 v0] c IH]; simpl.
  - apply String.eqb_neq in Hne. rewrite String.eqb_sym, Hne. reflexivity.
  - destruct (String.eqb k0 k) eqn:Hk; simpl.
    + apply String.eqb_eq in Hk. subst k0.
      assert (Hf : String.eqb k k' = false) by (apply String.eqb_neq; congruence).
      rewrite Hf. reflexivity.
    + destruct (String.eqb k0 k'); [reflexivity | exact IH].
Qed.

Lemma map_get_delete_other (k k' : string) (c : Cache) :
  k' <> k -> map_get k' (map_delete k c) = map_get k' c.
Proof.
  intros Hne. induction c as [|[k0 v0] c IH]; simpl; [reflexivity|].
  destruct (String.eqb k0 k) eqn:Hk; simpl.
  - apply String.eqb_eq in Hk. subst k0.
    assert (Hf : String.eqb k k' = false) by (apply String.eqb_neq; congruence).
    rewrite Hf. reflexivity.
  - destruct (String.eqb k0 k'); [reflexivity | exact IH].
Qed.

Lemma map_get_absent (k : string) (c : Cache) :
  ~ In k (keys c) -> map_get k c = None.
Proof.
  induction c as [|[k0 v0] c IH]; simpl; intros Hnot; [reflexivity|].
  destruct (String.eqb k0 k) eqn:Hk.
  - apply String.eqb_eq in Hk. tauto.
  - apply IH. tauto.
Qed.

Lemma map_get_present (k : string) (c : Cache) :
  In k (keys c) -> map_get k c <> None.
Proof.
  induction c as [|[k0 v0] c IH]; simpl; intros Hin; [contradiction|].
  destruct (String.eqb k0 k) eqn:Hk; [discriminate|].
  apply IH. destruct Hin as [->|Hin]; [|exact Hin].
  rewrite String.eqb_refl in Hk. discriminate.
Qed.

Lemma keys_delete_subset (k k' : string) (c : Cache) :
  In k' (keys (map_delete k c)) -> In k' (keys c).
Proof.
  induction c as [|[k0 v0] c IH]; simpl; [tauto|].
  destruct (String.eqb k0 k); simpl; tauto.
Qed.

Lemma map_get_delete_same (k : string) (c : Cache) :
  NoDup (keys c) -> map_get k (map_delete k c) = None.
Proof.
  induction c as [|[k0 v0] c IH]; simpl; intros Hnd; [reflexivity|].
  inversion Hnd as [|? ? Hnot Hrest]; subst.
  destruct (String.eqb k0 k) eqn:Hk; simpl.
  - apply String.eqb_eq in Hk. subst k0. apply map_get_absent. exact Hnot.
  - rewrite Hk. apply IH. exact Hrest.
Qed.

Lemma keys_delete_nodup (k : string) (c : Cache) :
  NoDup (keys c) -> NoDup (keys (map_delete k c)).
Proof.
  induction c as [|[k0 v0] c IH]; simpl; intros Hnd; [constructor|].
  inversion Hnd as [|? ? Hnot Hrest]; subst.
  destruct (String.eqb k0 k); simpl; [exact Hrest|].
  constructor; [|apply IH; exact Hrest].
  intros Hin. apply Hnot. eapply keys_delete_subset. exact Hin.
Qed.

Lemma keys_set_present (k : string) (v : CachedResponse) (c : Cache) :
  In k (keys c) -> keys (map_set k v c) = keys c.
Proof.
  induction c as [|[k0 v0] c IH]; simpl; intros Hin; [contradiction|].
  destruct (String.eqb k0 k) eqn:Hk; simpl; [reflexivity|].
  f_equal. apply IH. destruct Hin as [->|Hin]; [|exact Hin].
  rewrite String.eqb_refl in Hk. discriminate.
Qed.

Lemma map_set_absent (k : string) (v : CachedResponse) (c : Cache) :
  ~ In k (keys c) -> map_set k v c = c ++ [(k, v)].
Proof.
  induction c as [|[k0 v0] c IH]; simpl; intros Hnot; [reflexivity|].
  destruct (String.eqb k0 k) eqn:Hk.
  - apply String.eqb_eq in Hk. tauto.
  - f_equal. apply IH. tauto.
Qed.

Lemma keys_set_nodup (k : string) (v : CachedResponse) (c : Cache) :
  NoDup (keys c) -> NoDup (keys (map_set k v c)).
Proof.
  intros Hnd. destruct (in_dec string_dec k (keys c)) as [Hin|Hnot].
  - rewrite keys_set_present by exact Hin. exact Hnd.
  - rewrite map_set_absent by exact Hnot. unfold keys. rewrite map_app. simpl.
    apply NoDup_app; [exact Hnd | repeat constructor; simpl; tauto |].
    intros x Hx [<-|[]]. exact (Hnot Hx).
Qed.

Lemma keys_set_kept (k k' : string) (v : CachedResponse) (c : Cache) :
  In k' (keys c) -> In k' (keys (map_set k v c)).
Proof.
  induction c as [|[k0 v0] c IH]; simpl; [tauto|].
  destruct (String.eqb k0 k); simpl; tauto.
Qed.

Lemma map_set_size_ge (k : string) (v : CachedResponse) (c : Cache) :
  (size c <= size (map_set k v c))%nat.
Proof.
  unfold size. induction c as [|[k0 v0] c IH]; simpl; [lia|].
  destruct (String.eqb k0 k); simpl; lia.
Qed.

Lemma map_set_entries (k : string) (v : CachedResponse) (c : Cache)
    (kv : string * CachedResponse) :
  In kv (map_set k v c) -> kv = (k, v) \/ In kv c.
Proof.
  induction c as [|[k0 v0] c IH]; simpl.
  - intuition congruence.
  - destruct (String.eqb k0 k) eqn:Hk; simpl.
    + apply String.eqb_eq in Hk. subst k0. intuition congruence.
    + tauto.
Qed.

Lemma rebuild_from_entries (entries : list (string * CachedResponse)) :
  forall (acc : Cache) (kv : string * CachedResponse),
    In kv (fold_left (fun c e => map_set (fst e) (snd e) c) entries acc) ->
    In kv acc \/ In kv entries.
Proof.
  induction entries as [|e entries IH]; intros acc kv Hin; simpl in *.
  - tauto.
  - destruct (IH _ _ Hin) as [Hacc|Hent]; [|tauto].
    destruct (map_set_entries _ _ _ _ Hacc) as [->|Hold]; [|tauto].
    right. left. destruct e; reflexivity.
Qed.

Lemma rebuild_from_distinct (entries : list (string * CachedResponse)) :
  forall acc : Cache,
    NoDup (keys (acc ++ entries)) ->
    fold_left (fun c e => map_set (fst e) (snd e) c) entries acc = acc ++ entries.
Proof.
  induction entries as [|[k v] entries IH]; intros acc Hnd; simpl.
  - rewrite app_nil_r. reflexivity.
  - assert (Hnot : ~ In k (keys acc)).
    { unfold keys in *. rewrite map_app in Hnd. simpl in Hnd.
      apply NoDup_remove_2 in Hnd. intros Hin. apply Hnd. apply in_or_app. tauto. }
    rewrite map_set_absent by exact Hnot.
    rewrite IH; rewrite <- app_assoc; simpl; [reflexivity | exact Hnd].
Qed.

Lemma rebuild_distinct (entries : list (string * CachedResponse)) :
  NoDup (keys entries) -> rebuild entries = entries.
Proof. intros Hnd. unfold rebuild. apply (rebuild_from_distinct entries []). exact Hnd. Qed.

Lemma insert_by_score_entries (now : Z) (a kv : string * CachedResponse)
    (l : list (string * CachedResponse)) :
  In kv (insert_by_score now a l) <-> kv = a \/ In kv l.
Proof.
  induction l as [|b l IH]; simpl.
  - intuition congruence.
  - destruct (Qle_bool _ 0); simpl; [intuition congruence|].
    rewrite IH. intuition congruence.
Qed.

Lemma sort_by_score_entries (now : Z) (kv : string * CachedResponse)
    (l : list (string * CachedResponse)) :
  In kv (sort_by_score now l) <-> In kv l.
Proof.
  unfold sort_by_score. induction l as [|a l IH]; simpl; [tauto|].
  rewrite insert_by_score_entries, IH. intuition congruence.
Qed.

Lemma insert_by_score_length (now : Z) (a : string * CachedResponse)
    (l : list (string * CachedResponse)) :
  List.length (insert_by_score now a l) = S (List.length l).
Proof.
  induction l as [|b l IH]; simpl; [reflexivity|].
  destruct (Qle_bool _ 0); simpl; [reflexivity | rewrite IH; reflexivity].
Qed.

Lemma sort_by_score_length (now : Z) (l : list (string * CachedResponse)) :
  List.length (sort_by_score now l) = List.length l.
Proof.
  unfold sort_by_score. induction l as [|a l IH]; simpl; [reflexivity|].
  rewrite insert_by_score_length, IH. reflexivity.
Qed.

Lemma insert_by_score_distinct (now : Z) (a : string * CachedResponse)
    (l : list (string * CachedResponse)) :
  NoDup (keys (a :: l)) -> NoDup (keys (insert_by_score now a l)).
Proof.
  induction l as [|b l IH]; simpl; intros Hnd; [exact Hnd|].
  destruct (Qle_bool _ 0); [exact Hnd|].
  simpl. inversion Hnd as [|? ? Hnot Hrest]; subst.
  inversion Hrest as [|? ? Hnotb Hrest']; subst.
  constructor.
  - intros Hin. unfold keys in Hin. apply in_map_iff in Hin.
    destruct Hin as [kv [Hfst Hkv]]. apply insert_by_score_entries in Hkv.
    destruct Hkv as [->|Hkv].
    + apply Hnot. left. symmetry. exact Hfst.
    + apply Hnotb. rewrite <- Hfst. apply in_map. exact Hkv.
  - apply IH. simpl. constructor; [|exact Hrest'].
    intros Hin. apply Hnot. right. exact Hin.
Qed.

Lemma sort_by_score_distinct (now : Z) (l : list (string * CachedResponse)) :
  NoDup (keys l) -> NoDup (keys (sort_by_score now l)).
Proof.
  unfold sort_by_score. induction l as [|a l IH]; simpl; intros Hnd; [constructor|].
  apply insert_by_score_distinct. simpl.
  inversion Hnd as [|? ? Hnot Hrest]; subst. constructor.
  - intros Hin. apply Hnot. unfold keys in *. apply in_map_iff in Hin.
    destruct Hin as [kv [Hfst Hkv]]. apply sort_by_score_entries in Hkv.
    rewrite <- Hfst. apply in_map. exact Hkv.
  - apply IH. exact Hrest.
Qed.

Lemma filter_distinct (p : string * CachedResponse -> bool)
    (l : list (string * CachedResponse)) :
  NoDup (keys l) -> NoDup (keys (filter p l)).
Proof.
  induction l as [|a l IH]; simpl; intros Hnd; [constructor|].
  inversion Hnd as [|? ? Hnot Hrest]; subst.
  destruct (p a); simpl; [|apply IH; exact Hrest].
  constructor; [|apply IH; exact Hrest].
  intros Hin. apply Hnot. unfold keys in *. apply in_map_iff in Hin.
  destruct Hin as [kv [Hfst Hkv]]. apply filter_In in Hkv.
  rewrite <- Hfst. apply in_map. tauto.
Qed.

Lemma firstn_distinct (n : nat) (l : list (string * CachedResponse)) :
  NoDup (keys l) -> NoDup (keys (firstn n l)).
Proof.
  revert l. induction n as [|n IH]; intros l Hnd; simpl; [constructor|].
  destruct l as [|a l]; simpl; [constructor|].
  inversion Hnd as [|? ? Hnot Hrest]; subst. constructor; [|apply IH; exact Hrest].
  intros Hin. apply Hnot. unfold keys in *. apply in_map_iff in Hin.
  destruct Hin as [kv [Hfst Hkv]]. rewrite <- Hfst. apply in_map.
  rewrite <- (firstn_skipn n l). apply in_or_app. left. exact Hkv.
Qed.

Lemma firstn_entries {A : Type} (n : nat) (l : list A) (x : A) :
  In x (firstn n l) -> In x l.
Proof. intros Hin. rewrite <- (firstn_skipn n l). apply in_or_app. left. exact Hin. Qed.

(** *** Storing and looking up *)

(** X1.  On a cache with room for one more entry, an answer stored for a
    question is what a look-up returns, personalised for the context of the
    look-up (its placeholders replaced as [String.prototype.replace] does
    it, the [$] patterns of the replacement text expanded), for every
    question with the same hash, as long as the look-up comes within 30
    days of the storing. *)
Theorem stored_answer_is_served
    (tput tget : Z) (cache : Cache) (asked stored : string) (answer : string)
    (conf : Q) (ctx_put ctx_get : option Context)
    (Hroom : (size cache < 1000)%nat)
    (Hsame : generateQuestionHash asked = generateQuestionHash stored)
    (Hfresh : (tget - tput <= CACHE_EXPIRY)%Z) :
  fst (getCachedResponse tget (cacheResponse tput cache stored answer conf ctx_put)
         asked ctx_get)
  = Some (personalizeResponse answer ctx_get).
Proof.
  unfold cacheResponse. cbv zeta.
  set (key := generateQuestionHash stored).
  match goal with |- context [map_set key ?v cache] => set (entry := v) end.
  assert (Hfit : (MAX_CACHE_SIZE <? size (map_set key entry cache))%nat = false).
  { apply Nat.ltb_ge. pose proof (map_set_size key entry cache).
    unfold MAX_CACHE_SIZE. lia. }
  rewrite Hfit. unfold getCachedResponse. rewrite Hsame. fold key.
  rewrite map_get_set_same. simpl.
  destruct (tget - tput >? CACHE_EXPIRY)%Z eqn:Hexp.
  - apply Z.gtb_lt in Hexp. lia.
  - reflexivity.
Qed.

Lemma stored_answer_is_served_witness :
  fst (getCachedResponse 86400000
         (cacheResponse 0 [] "What salary do you expect?"
            "In line with [Position] roles at [Company Name]" 1 None)
         "What is your expected pay?"
         (Some (mkContext "Initech" "Engineer" "" "" [])))
  = Some "In line with Engineer roles at Initech".
Proof.
  apply (stored_answer_is_served 0 86400000 [] "What is your expected pay?"
           "What salary do you expect?"
           "In line with [Position] roles at [Company Name]" 1 None
           (Some (mkContext "Initech" "Engineer" "" "" []))).
  - simpl. lia.
  - vm_compute. reflexivity.
  - vm_compute. discriminate.
Defined.

Lemma getCachedResponse_keeps_creation (now t0 : Z) (cache : Cache)
    (question h : string) (ctx : option Context) :
  NoDup (keys cache) ->
  (map_get h cache = None \/ exists e, map_get h cache = Some e /\ timestamp e = t0) ->
  let cache' := snd (getCachedResponse now cache question ctx) in
  NoDup (keys cache')
  /\ (map_get h cache' = None \/ exists e, map_get h cache' = Some e /\ timestamp e = t0).
Proof.
  intros Hnd Hinv. unfold getCachedResponse.
  set (h' := generateQuestionHash question).
  destruct (map_get h' cache) as [cached|] eqn:Hget; simpl; [|tauto].
  destruct (now - timestamp cached >? CACHE_EXPIRY)%Z; simpl.
  - split; [apply keys_delete_nodup; exact Hnd|].
    destruct (string_dec h h') as [->|Hne].
    + left. apply map_get_delete_same. exact Hnd.
    + rewrite map_get_delete_other by exact Hne. exact Hinv.
  - split; [apply keys_set_nodup; exact Hnd|].
    destruct (string_dec h h') as [->|Hne].
    + right. rewrite map_get_set_same. eexists. split; [reflexivity|]. simpl.
      destruct Hinv as [Hnone|[e [He Hts]]]; congruence.
    + rewrite map_get_set_other by exact Hne. exact Hinv.
Qed.

Lemma lookups_keep_creation (gets : list (Z * string * option Context)) (t0 : Z)
    (h : string) :
  forall cache : Cache,
    NoDup (keys cache) ->
    (map_get h cache = None \/ exists e, map_get h cache = Some e /\ timestamp e = t0) ->
    map_get h (lookups gets cache) = None
    \/ exists e, map_get h (lookups gets cache) = Some e /\ timestamp e = t0.
Proof.
  unfold lookups. induction gets as [|[[now question] ctx] gets IH]; intros cache Hnd Hinv.
  - exact Hinv.
  - simpl.
    destruct (getCachedResponse_keeps_creation now t0 cache question h ctx Hnd Hinv)
      as [Hnd' Hinv'].
    apply IH; assumption.
Qed.

(** X2.  Use does not prolong the life of an entry: however often and
    whenever the cache is looked up in between, a look-up that comes more
    than 30 days after the entry was stored returns [null]. *)
Theorem use_does_not_extend_life
    (cache : Cache) (gets : list (Z * string * option Context))
    (question : string) (entry : CachedResponse) (tget : Z) (ctx : option Context)
    (Hkeys : NoDup (keys cache))
    (Hstored : map_get (generateQuestionHash question) cache = Some entry)
    (Hold : (tget - timestamp entry > CACHE_EXPIRY)%Z) :
  fst (getCachedResponse tget (lookups gets cache) question ctx) = None.
Proof.
  destruct (lookups_keep_creation gets (timestamp entry) (generateQuestionHash question)
              cache Hkeys) as [Hnone|[e [He Hts]]].
  - right. exists entry. split; [exact Hstored | reflexivity].
  - unfold getCachedResponse. rewrite Hnone. reflexivity.
  - unfold getCachedResponse. rewrite He, Hts.
    destruct (tget - timestamp entry >? CACHE_EXPIRY)%Z eqn:Hexp; [reflexivity|].
    rewrite Z.gtb_ltb in Hexp. apply Z.ltb_ge in Hexp. lia.
Qed.

Lemma use_does_not_extend_life_witness :
  fst (getCachedResponse (CACHE_EXPIRY + 1)
         (lookups [(CACHE_EXPIRY, "Do you have work authorization?", None)]
            (cacheResponse 0 [] "Are you authorized to work in the US?" "Yes" 1 None))
         "Are you authorized to work in the US?" None)
  = None.
Proof.
  apply (use_does_not_extend_life _ _ _
           (fresh_entry 0 "Are you authorized to work in the US?" "Yes")).
  - vm_compute. repeat constructor. simpl. tauto.
  - vm_compute. reflexivity.
  - vm_compute. reflexivity.
Defined.

(** *** Cleanup *)

(** X3.  Whatever [cleanupCache] keeps was in the cache, key and entry
    unchanged, and is less than 30 days old. *)
Theorem cleanup_keeps_only_unexpired_entries
    (now : Z) (cache : Cache) (kv : string * CachedResponse) :
  In kv (cleanupCache now cache) ->
  In kv cache /\ (now - timestamp (snd kv) < CACHE_EXPIRY)%Z.
Proof.
  unfold cleanupCache, rebuild. intros Hin.
  apply rebuild_from_entries in Hin. destruct Hin as [[]|Hin].
  assert (Hvalid : In kv (filter (fun e => (now - timestamp (snd e) <? CACHE_EXPIRY)%Z)
                            cache)).
  { destruct (MAX_CACHE_SIZE <? _)%nat; [|exact Hin].
    apply firstn_entries in Hin. apply sort_by_score_entries in Hin. exact Hin. }
  apply filter_In in Hvalid. destruct Hvalid as [Hcache Hfresh].
  apply Z.ltb_lt in Hfresh. tauto.
Qed.

Lemma cleanup_keeps_only_unexpired_entries_witness :
  In ("h7", snd (imported_entry 7)) imported_cache
  /\ (CACHE_EXPIRY - timestamp (snd (imported_entry 7)) < CACHE_EXPIRY)%Z.
Proof.
  apply (cleanup_keeps_only_unexpired_entries CACHE_EXPIRY imported_cache
           ("h7", snd (imported_entry 7))).
  vm_compute. do 6 right. left. reflexivity.
Defined.

(** X4.  [cleanupCache] keeps as many unexpired entries as fit: all of them
    when they are at most 1,000, and exactly 1,000 otherwise. *)
Theorem cleanup_keeps_as_many_as_fit (now : Z) (cache : Cache)
    (Hkeys : NoDup (keys cache)) :
  size (cleanupCache now cache)
  = Nat.min 1000 (List.length (filter (unexpired now) cache)).
Proof.
  unfold cleanupCache. fold (unexpired now).
  pose proof (filter_distinct (unexpired now) cache Hkeys) as Hvalid.
  destruct (MAX_CACHE_SIZE <? List.length (filter (unexpired now) cache))%nat eqn:Hover.
  - apply Nat.ltb_lt in Hover. unfold MAX_CACHE_SIZE in *.
    rewrite rebuild_distinct
      by (apply firstn_distinct, sort_by_score_distinct; exact Hvalid).
    unfold size. rewrite length_firstn, sort_by_score_length. reflexivity.
  - apply Nat.ltb_ge in Hover. unfold MAX_CACHE_SIZE in *.
    rewrite rebuild_distinct by exact Hvalid. unfold size. lia.
Qed.

Lemma cleanup_keeps_as_many_as_fit_witness :
  size (cleanupCache (CACHE_EXPIRY + 1) (map imported_entry (seq 0 3)))
  = Nat.min 1000
      (List.length (filter (unexpired (CACHE_EXPIRY + 1)) (map imported_entry (seq 0 3)))).
Proof.
  apply (cleanup_keeps_as_many_as_fit (CACHE_EXPIRY + 1) (map imported_entry (seq 0 3))).
  vm_compute. repeat constructor; simpl; intuition discriminate.
Defined.

(** *** Batches *)

Lemma batch_from (now : Z) (entries : list BatchEntry) :
  forall cache : Cache,
    (size cache <= size (batchCacheResponses now entries cache)
     <= size cache + List.length entries)%nat
    /\ (forall k, In k (keys cache) ->
                  In k (keys (batchCacheResponses now entries cache))).
Proof.
  unfold batchCacheResponses.
  induction entries as [|entry entries IH]; intros cache; simpl.
  - split; [lia | tauto].
  - match goal with |- context [map_set ?h ?v cache] =>
      destruct (IH (map_set h v cache)) as [[Hlo Hhi] Hkeys];
      pose proof (map_set_size h v cache); pose proof (map_set_size_ge h v cache)
    end.
    split; [lia|]. intros k Hk. apply Hkeys, keys_set_kept. exact Hk.
Qed.

(** X5.  [batchCacheResponses] runs no cleanup: the cache never shrinks,
    whatever its size, every key it had is still a key afterwards, and it
    grows by at most one entry per pair of the batch. *)
Theorem batch_never_evicts (now : Z) (entries : list BatchEntry) (cache : Cache) :
  (size cache <= size (batchCacheResponses now entries cache)
   <= size cache + List.length entries)%nat
  /\ (forall k, map_get k cache <> None ->
                map_get k (batchCacheResponses now entries cache) <> None).
Proof.
  destruct (batch_from now entries cache) as [Hsize Hkeys]. split; [exact Hsize|].
  intros k Hk. apply map_get_present, Hkeys.
  destruct (in_dec string_dec k (keys cache)) as [Hin|Hnot]; [exact Hin|].
  apply map_get_absent in Hnot. contradiction.
Qed.

(** *** The hash *)

(** X6.  The hash is decided by the first 12 characters of the sorted tags
    joined by [_]: questions whose joined tags agree that far have one
    hash, whatever tags follow. *)
Theorem hash_reads_twelve_characters (q q' : string)
    (Hhead : take 12 (conceptHash q) = take 12 (conceptHash q')) :
  generateQuestionHash q = generateQuestionHash q'.
Proof.
  unfold generateQuestionHash. fold (conceptHash q) (conceptHash q').
  apply (btoa_prefix 4). exact Hhead.
Qed.

Lemma hash_reads_twelve_characters_witness :
  conceptHash "Do you have a degree and five years of experience?"
    = "education_experience"
  /\ conceptHash "With your degree and years of experience, do you need visa sponsorship?"
    = "education_experience_visa_sponsorship"
  /\ generateQuestionHash "Do you have a degree and five years of experience?"
    = generateQuestionHash
        "With your degree and years of experience, do you need visa sponsorship?".
Proof.
  split; [vm_compute; reflexivity|]. split; [vm_compute; reflexivity|].
  apply hash_reads_twelve_characters. vm_compute. reflexivity.
Defined.

(** X7.  For a question whose characters are all at most U+00FF (a
    [string]), the hash does not depend on the case of its letters, nor on
    a character up to U+00FF that is neither of [\w] nor of [\s] (a
    punctuation mark, a currency sign, an accented letter) put anywhere in
    it.  Above U+00FF there are characters that are neither and that
    [toLowerCase] still turns into a letter, like the Kelvin sign U+212A;
    they are no characters of a [string]. *)
Theorem hash_ignores_case_and_punctuation :
  (forall q, generateQuestionHash (toLowerCase q) = generateQuestionHash q)
  /\ (forall a b c, is_word c = false -> is_space c = false ->
        generateQuestionHash (a ++ String c b) = generateQuestionHash (a ++ b)).
Proof.
  split.
  - intros q. unfold generateQuestionHash, normalize.
    rewrite toLowerCase_idempotent. reflexivity.
  - intros a b c Hw Hs. unfold generateQuestionHash, normalize.
    destruct (lower_char_punctuation c Hw Hs) as [Hw' Hs'].
    rewrite !toLowerCase_append, !strip_punctuation_append. simpl.
    rewrite Hw', Hs'. reflexivity.
Qed.

Lemma hash_ignores_case_and_punctuation_witness :
  generateQuestionHash "Are you authorized, legally" = generateQuestionHash "Are you authorized legally".
Proof.
  apply (proj2 hash_ignores_case_and_punctuation "Are you authorized" " legally" ","%char);
    reflexivity.
Defined.

(** *** The pattern table *)

Lemma fillTemplate_Yes (rd : option TemplateData) : fillTemplate "Yes" rd = "Yes".
Proof. destruct rd; reflexivity. Qed.

(** X8.  A question that mentions a bachelor or a degree is answered [Yes]
    by the pattern table, whatever else it asks and whatever the resume
    data: these two patterns come first. *)
Theorem degree_question_is_answered_yes (q : string) (rd : option TemplateData)
    (Hdegree : includes (toLowerCase q) "bachelor" = true
               \/ includes (toLowerCase q) "degree" = true) :
  getPatternResponse q rd = Some "Yes".
Proof.
  unfold getPatternResponse, questionPatterns. cbn [first_pattern].
  destruct (includes (toLowerCase q) "bachelor") eqn:Hb.
  - simpl. rewrite fillTemplate_Yes. reflexivity.
  - destruct Hdegree as [H|H]; [discriminate|]. rewrite H. simpl.
    rewrite fillTemplate_Yes. reflexivity.
Qed.

Lemma degree_question_is_answered_yes_witness :
  getPatternResponse "Will you require sponsorship to finish your degree?" None = Some "Yes".
Proof.
  apply degree_question_is_answered_yes. right. vm_compute. reflexivity.
Defined.

End ResponseCache.

(* ================================================================== *)
(** ** RateLimiter                                                    *)
(* ================================================================== *)

Module RateLimiter.

Local Open Scope Z_scope.

Definition maxCalls : nat := 10.
Definition timeWindow : Z := 60000.

(** [this.calls.filter(time => now - time < this.timeWindow)] *)
Definition prune (now : Z) (calls : list Z) : list Z :=
  filter (fun time => now - time <? timeWindow) calls.

(** [canProceed()] at clock [now] on the limiter whose field [calls] is
    [calls]: the answer and the field afterwards. *)
Definition canProceed (now : Z) (calls : list Z) : bool * list Z :=
  let calls := prune now calls in
  if (maxCalls <=? List.length calls)%nat then (false, calls)
  else (true, calls ++ [now]).

(** A limiter in use: its field [calls], and beside it the clock of every
    call that was answered [true] so far, oldest first. *)
Record History := mkHistory {
  calls : list Z;
  permits : list Z
}.

Definition call (h : History) (now : Z) : History :=
  let (ok, calls') := canProceed now (calls h) in
  {| calls := calls';
     permits := if ok then permits h ++ [now] else permits h |}.

(** The calls made at the clocks [times], in this order, on a new limiter. *)
Definition run (times : list Z) : History :=
  fold_left call times {| calls := []; permits := [] |}.

(** The clock does not run backwards. *)
Fixpoint nondecreasing (times : list Z) : bool :=
  match times with
  | a :: (b :: _) as rest => (a <=? b) && nondecreasing rest
  | _ => true
  end.

(** The permits whose clock lies in the window of 60 seconds that starts
    at [start]. *)
Definition in_window (start : Z) (ts : list Z) : list Z :=
  filter (fun t => (start <=? t) && (t <? start + timeWindow)) ts.

(** What a history satisfies once every call so far was made at or before
    the clock [upto]. *)
Definition consistent (upto : Z) (h : History) : Prop :=
  (forall now, upto <= now -> prune now (calls h) = prune now (permits h))
  /\ (forall start, (List.length (in_window start (permits h)) <= maxCalls)%nat).

Lemma filter_length_le {A : Type} (p q : A -> bool) (l : list A) :
  (forall x, p x = true -> q x = true) ->
  (List.length (filter p l) <= List.length (filter q l))%nat.
Proof.
  intros Himp. induction l as [|x l IH]; simpl.
  - lia.
  - destruct (p x) eqn:Hp.
    + rewrite (Himp x Hp). simpl. lia.
    + destruct (q x); simpl; lia.
Qed.

Lemma filter_filter_absorb {A : Type} (p q : A -> bool) (l : list A) :
  (forall x, p x = true -> q x = true) ->
  filter p (filter q l) = filter p l.
Proof.
  intros Himp. induction l as [|x l IH]; simpl.
  - reflexivity.
  - destruct (q x) eqn:Hq; simpl.
    + rewrite IH. reflexivity.
    + destruct (p x) eqn:Hp.
      * rewrite (Himp x Hp) in Hq. discriminate.
      * exact IH.
Qed.

Lemma prune_prune (now earlier : Z) (l : list Z) :
  earlier <= now -> prune now (prune earlier l) = prune now l.
Proof.
  intros Hle. unfold prune. apply filter_filter_absorb.
  intros x Hx. apply Z.ltb_lt in Hx. apply Z.ltb_lt. lia.
Qed.

Lemma prune_app (now : Z) (l l' : list Z) :
  prune now (l ++ l') = prune now l ++ prune now l'.
Proof. unfold prune. apply filter_app. Qed.

Lemma in_window_within_prune (start now : Z) (l : list Z) :
  start <= now < start + timeWindow ->
  (List.length (in_window start l) <= List.length (prune now l))%nat.
Proof.
  intros Hnow. unfold in_window, prune. apply filter_length_le.
  intros x Hx. apply andb_true_iff in Hx. destruct Hx as [Hlo Hhi].
  apply Z.leb_le in Hlo. apply Z.ltb_lt. lia.
Qed.

Lemma call_consistent (upto now : Z) (h : History) :
  upto <= now -> consistent upto h -> consistent now (call h now).
Proof.
  intros Hle [Hsame Hbound]. unfold call, canProceed.
  destruct (maxCalls <=? List.length (prune now (calls h)))%nat eqn:Hfull; simpl.
  - split; simpl.
    + intros n Hn. rewrite prune_prune by exact Hn. apply Hsame. lia.
    + exact Hbound.
  - apply Nat.leb_gt in Hfull. split; simpl.
    + intros n Hn. rewrite !prune_app, prune_prune by exact Hn.
      rewrite Hsame by lia. reflexivity.
    + intros start. unfold in_window. rewrite filter_app, length_app. simpl.
      destruct ((start <=? now) && (now <? start + timeWindow)) eqn:Hin; simpl.
      * apply andb_true_iff in Hin. destruct Hin as [Hlo Hhi].
        apply Z.leb_le in Hlo. apply Z.ltb_lt in Hhi.
        pose proof (in_window_within_prune start now (permits h) (conj Hlo Hhi)) as Hsub.
        rewrite <- (Hsame now Hle) in Hsub. unfold in_window in Hsub. lia.
      * specialize (Hbound start). unfold in_window in Hbound. lia.
Qed.

Lemma run_from_consistent (times : list Z) :
  forall (upto bound : Z) (h : History),
    nondecreasing (upto :: times) = true ->
    Forall (fun t => t <= bound) (upto :: times) ->
    consistent upto h ->
    exists upto', upto' <= bound /\ consistent upto' (fold_left call times h).
Proof.
  induction times as [|t times IH]; intros upto bound h Hmono Hbound Hh.
  - exists upto. split; [now inversion Hbound | exact Hh].
  - simpl in Hmono. apply andb_true_iff in Hmono. destruct Hmono as [Hle Hmono].
    apply Z.leb_le in Hle. inversion Hbound as [|? ? _ Hrest]; subst.
    simpl. apply (IH t bound (call h t) Hmono Hrest).
    apply (call_consistent upto); assumption.
Qed.

Lemma new_limiter_consistent (upto : Z) :
  consistent upto {| calls := []; permits := [] |}.
Proof. split; intros; simpl; [reflexivity | unfold maxCalls; lia]. Qed.

Lemma nondecreasing_bounded (l : list Z) :
  forall x, nondecreasing (l ++ [x]) = true ->
            nondecreasing l = true /\ Forall (fun y => y <= x) l.
Proof.
  induction l as [|a l IH]; intros x H.
  - split; [reflexivity | constructor].
  - destruct l as [|b l].
    + simpl in H. apply andb_true_iff in H. destruct H as [Hax _].
      apply Z.leb_le in Hax. split; [reflexivity | repeat constructor; exact Hax].
    + change (((a <=? b) && nondecreasing ((b :: l) ++ [x]))%bool = true) in H.
      apply andb_true_iff in H. destruct H as [Hab Hrest].
      destruct (IH x Hrest) as [Hmono Hall]. split.
      * change (((a <=? b) && nondecreasing (b :: l))%bool = true).
        rewrite Hab, Hmono. reflexivity.
      * constructor; [|exact Hall].
        apply Z.leb_le in Hab. inversion Hall; subst. lia.
Qed.

Lemma nondecreasing_prefix (l l' : list Z) :
  nondecreasing (l ++ l') = true -> nondecreasing l = true.
Proof.
  revert l'. induction l as [|a l IH]; intros l' H.
  - reflexivity.
  - destruct l as [|b l].
    + reflexivity.
    + change (((a <=? b) && nondecreasing ((b :: l) ++ l'))%bool = true) in H.
      apply andb_true_iff in H. destruct H as [Hab Hrest].
      change (((a <=? b) && nondecreasing (b :: l))%bool = true).
      rewrite Hab, (IH l' Hrest). reflexivity.
Qed.

Lemma run_consistent (times : list Z) (bound : Z) :
  nondecreasing times = true ->
  Forall (fun t => t <= bound) times ->
  exists upto, upto <= bound /\ consistent upto (run times).
Proof.
  intros Hmono Hbound. unfold run. destruct times as [|t times].
  - exists bound. split; [lia | apply new_limiter_consistent].
  - apply (run_from_consistent (t :: times) t bound).
    + change (((t <=? t) && nondecreasing (t :: times))%bool = true).
      rewrite Z.leb_refl. exact Hmono.
    + constructor; [now inversion Hbound | exact Hbound].
    + apply new_limiter_consistent.
Qed.

Lemma all_bounded_by_some (l : list Z) : exists bound, Forall (fun t => t <= bound) l.
Proof.
  induction l as [|a l [b Hb]].
  - exists 0. constructor.
  - exists (Z.max a b). constructor; [lia|].
    eapply Forall_impl; [|exact Hb]. simpl. intros; lia.
Qed.

(** C8.  Calls of [canProceed] at clocks that do not run backwards, on a
    new limiter.  Each call first drops the recorded clocks that are 60
    seconds old or older and then records its own clock exactly when it
    answers [true]; no window of 60 seconds ever holds more than 10 of the
    permits granted; and a call is refused exactly when 10 (or more) of the
    permits granted before it are less than 60 seconds old. *)
Theorem rolling_window_budget (times : list Z)
    (Hclock : nondecreasing times = true) :
  (forall now recorded,
      snd (canProceed now recorded)
      = prune now recorded ++ (if fst (canProceed now recorded) then [now] else []))
  /\ (forall start,
      (List.length (in_window start (permits (run times))) <= 10)%nat)
  /\ (forall before now after,
      times = before ++ now :: after ->
      (fst (canProceed now (calls (run before))) = false
       <-> (10 <= List.length (prune now (permits (run before))))%nat)).
Proof.
  split; [|split].
  - intros now recorded. unfold canProceed.
    destruct (maxCalls <=? List.length (prune now recorded))%nat; simpl.
    + rewrite app_nil_r. reflexivity.
    + reflexivity.
  - intros start.
    destruct (all_bounded_by_some times) as [bound Hbound].
    destruct (run_consistent times bound Hclock Hbound) as [upto [_ [_ Hwin]]].
    apply Hwin.
  - intros before now after Htimes. subst times.
    assert (Hpre : nondecreasing (before ++ [now]) = true).
    { apply (nondecreasing_prefix _ after). rewrite <- app_assoc. exact Hclock. }
    destruct (nondecreasing_bounded before now Hpre) as [Hmono Hbound].
    destruct (run_consistent before now Hmono Hbound) as [upto [Hupto [Hsame _]]].
    unfold canProceed. rewrite (Hsame now Hupto).
    destruct (maxCalls <=? List.length (prune now (permits (run before))))%nat eqn:Hfull;
      simpl.
    + apply Nat.leb_le in Hfull. split; [intros _; exact Hfull | reflexivity].
    + apply Nat.leb_gt in Hfull. unfold maxCalls in Hfull.
      split; [discriminate | intros; lia].
Qed.

Lemma rolling_window_budget_witness :
  nondecreasing [0; 1; 2; 3; 4; 5; 6; 7; 8; 59999; 60000; 60000] = true
  /\ fst (canProceed 59999 (calls (run [0; 1; 2; 3; 4; 5; 6; 7; 8]))) = true
  /\ fst (canProceed 60000 (calls (run [0; 1; 2; 3; 4; 5; 6; 7; 8; 59999]))) = true
  /\ fst (canProceed 60000 (calls (run [0; 1; 2; 3; 4; 5; 6; 7; 8; 59999; 60000])))
     = false.
Proof.
  split; [reflexivity|]. split; [reflexivity|]. split; [reflexivity|].
  apply (proj2 (proj2 (rolling_window_budget
                         [0; 1; 2; 3; 4; 5; 6; 7; 8; 59999; 60000; 60000] eq_refl))
           [0; 1; 2; 3; 4; 5; 6; 7; 8; 59999; 60000] 60000 [] eq_refl).
  vm_compute. lia.
Defined.

(** A clock that runs backwards (the clock of the machine was set back):
    ten calls at 100, one at 60100 and then one at 50. *)
Definition backward_clock : list Z :=
  [100; 100; 100; 100; 100; 100; 100; 100; 100; 100; 60100; 50].

(** C8, for calls at arbitrary clocks.  On [backward_clock] every call is
    granted: the call at 60100 drops the ten clocks recorded at 100, and
    the call at 50 then finds the limiter nearly empty.  The window of 60
    seconds that starts at 50 holds 11 permits, and the call at 50 is
    answered [true] although 11 permits granted before it are less than 60
    seconds old. *)
Lemma backward_clock_exceeds_budget :
  nondecreasing backward_clock = false
  /\ permits (run backward_clock) = backward_clock
  /\ List.length (in_window 50 (permits (run backward_clock))) = 11%nat
  /\ fst (canProceed 50 (calls (run (firstn 11 backward_clock)))) = true
  /\ List.length (prune 50 (permits (run (firstn 11 backward_clock)))) = 11%nat.
Proof. vm_compute. repeat split. Qed.

(** *** What the limiter stores, and when it grants *)

Lemma prune_length (now : Z) (recorded : list Z) :
  (List.length (prune now recorded) <= List.length recorded)%nat.
Proof.
  unfold prune. induction recorded as [|t l IH]; simpl; [lia|].
  destruct (now - t <? timeWindow); simpl; lia.
Qed.

Lemma call_stores_at_most (h : History) (now : Z) :
  (List.length (calls h) <= maxCalls)%nat ->
  (List.length (calls (call h now)) <= maxCalls)%nat.
Proof.
  intros Hlen. unfold call, canProceed.
  pose proof (prune_length now (calls h)) as Hprune.
  destruct (maxCalls <=? List.length (prune now (calls h)))%nat eqn:Hfull;
    cbn [calls].
  - lia.
  - apply Nat.leb_gt in Hfull. rewrite length_app. cbn [List.length]. lia.
Qed.

Lemma run_from_stores_at_most (times : list Z) :
  forall h : History,
    (List.length (calls h) <= maxCalls)%nat ->
    (List.length (calls (fold_left call times h)) <= maxCalls)%nat.
Proof.
  induction times as [|now times IH]; intros h Hlen; simpl; [exact Hlen|].
  apply IH. apply call_stores_at_most. exact Hlen.
Qed.

(** X9.  Whatever the clocks of the calls, in any order, a limiter never
    holds more than 10 timestamps. *)
Theorem limiter_stores_at_most_ten (times : list Z) :
  (List.length (calls (run times)) <= 10)%nat.
Proof.
  unfold run. apply (run_from_stores_at_most times). simpl. unfold maxCalls. lia.
Qed.

Lemma run_from_grants_while_room (times : list Z) :
  forall h : History,
    (List.length (calls h) + List.length times <= maxCalls)%nat ->
    permits (fold_left call times h) = permits h ++ times.
Proof.
  induction times as [|now times IH]; intros h Hroom; simpl in *.
  - rewrite app_nil_r. reflexivity.
  - assert (Hcall : (List.length (calls (call h now)) <= S (List.length (calls h)))%nat
                    /\ permits (call h now) = permits h ++ [now]).
    { unfold call, canProceed.
      pose proof (prune_length now (calls h)) as Hprune.
      destruct (maxCalls <=? List.length (prune now (calls h)))%nat eqn:Hfull; simpl.
      - apply Nat.leb_le in Hfull. lia.
      - rewrite length_app. simpl. split; [lia | reflexivity]. }
    destruct Hcall as [Hlen Hpermits].
    rewrite IH by lia. rewrite Hpermits, <- app_assoc. reflexivity.
Qed.

(** X10.  A new limiter grants its first ten calls whatever their clocks;
    and any limiter grants a call that comes 60 seconds or more after
    every timestamp it holds, keeping only the clock of that call. *)
Theorem limiter_grants_when_there_is_room :
  (forall times, (List.length times <= 10)%nat -> permits (run times) = times)
  /\ (forall now recorded,
        Forall (fun t => t + 60000 <= now) recorded ->
        canProceed now recorded = (true, [now])).
Proof.
  split.
  - intros times Hlen. unfold run.
    rewrite run_from_grants_while_room; [reflexivity | simpl; unfold maxCalls; lia].
  - intros now recorded Hold. unfold canProceed.
    assert (Hnone : prune now recorded = []).
    { unfold prune. induction Hold as [|t l Ht _ IH]; simpl; [reflexivity|].
      destruct (now - t <? timeWindow) eqn:Hin; [|exact IH].
      apply Z.ltb_lt in Hin. unfold timeWindow in Hin. lia. }
    rewrite Hnone. reflexivity.
Qed.

Lemma limiter_grants_when_there_is_room_witness :
  permits (run [5; 5; 5; 4; 3; 70000; 2; 1; 0; 0]) = [5; 5; 5; 4; 3; 70000; 2; 1; 0; 0]
  /\ canProceed 70000 [0; 1; 2; 3; 4; 5; 6; 7; 8; 10000] = (true, [70000]).
Proof.
  split.
  - apply (proj1 limiter_grants_when_there_is_room). simpl. lia.
  - apply (proj2 limiter_grants_when_there_is_room). repeat constructor; lia.
Defined.

End RateLimiter.

(* ================================================================== *)
(** ** The data of recorded workflows                                 *)
(* ================================================================== *)

(** Values that may be [undefined] (or [null]) are options.  The helpers
    below are the JavaScript operators applied to them. *)
Module Js.

(** Truthiness of a string that may be missing. *)
Definition truthy (o : option string) : bool :=
  match o with
  | Some (String _ _) => true
  | _ => false
  end.

(** [a || b] *)
Definition or (a b : option string) : option string :=
  if truthy a then a else b.

(** [`${a}`] *)
Definition show (o : option string) : string :=
  match o with
  | Some s => s
  | None => "undefined"
  end.

(** [`${n}`] for a count. *)
Definition show_nat (n : nat) : string := NilEmpty.string_of_uint (Nat.to_uint n).

(** [a === b] where [b] is a string. *)
Definition same (a : option string) (b : string) : bool :=
  match a with
  | Some s => String.eqb s b
  | None => false
  end.

End Js.

Module RecordedElement.
Record t := mk {
  tagName : string;
  id : string;
  className : string;
  textContent : string;
  name : string;
  type : string;
  placeholder : string;
  xpath : string
}.
End RecordedElement.

Inductive ActionType := click | input | select | keypress | navigation.

Definition ActionType_eqb (a b : ActionType) : bool :=
  match a, b with
  | click, click | input, input | select, select
  | keypress, keypress | navigation, navigation => true
  | _, _ => false
  end.

(** The payload [data] of an action: the fields the page script stores
    with the five kinds of events. *)
Module ActionData.
Record t := mk {
  value : option string;
  inputType : option string;
  selectedValue : option string;
  selectedText : option string;
  key : option string;
  keyCode : option Z;
  fromUrl : option string;
  toUrl : option string
}.
End ActionData.

(** [data?.field] *)
Definition field (f : ActionData.t -> option string) (data : option ActionData.t)
    : option string :=
  match data with
  | Some d => f d
  | None => None
  end.

Module RecordedAction.
Record t := mk {
  timestamp : Z;
  type : ActionType;
  element : RecordedElement.t;
  data : option ActionData.t;
  url : string
}.
End RecordedAction.

Inductive StepAction := fill_field | click_element | select_option | key_press | navigate.

Module WorkflowStep.
Record t := mk {
  stepIndex : nat;
  action : StepAction;
  element : RecordedElement.t;
  data : option ActionData.t;
  timing : Z;
  description : string
}.
End WorkflowStep.

Module SavedWorkflow.
Record t := mk {
  id : string;
  name : string;
  platform : string;
  steps : list WorkflowStep.t;
  recordedAt : Z;
  duration : Z;
  actionCount : nat;
  optimizedActionCount : nat;
  successRate : Q;
  usageCount : Z
}.
End SavedWorkflow.

(** The document stored under [recorded_workflows]. *)
Definition Storage := list SavedWorkflow.t.

(** [workflows.find(w => w.id === workflowId)] *)
Definition find_workflow (workflowId : string) (workflows : Storage)
    : option SavedWorkflow.t :=
  find (fun w => String.eqb (SavedWorkflow.id w) workflowId) workflows.

(* ================================================================== *)
(** ** The page                                                       *)
(* ================================================================== *)

(** An element of the live snapshot ([state.selectorMap]). *)
Module DOMElement.
Record t := mk {
  highlightIndex : Z;
  tagName : string;
  attr_id : option string;          (* attributes?.id *)
  attr_name : option string;        (* attributes?.name *)
  attr_placeholder : option string; (* attributes?.placeholder *)
  textContent : option string
}.
End DOMElement.

(** The commands the replay sends to the page. *)
Inductive PageCall :=
| inputTextElementNode (element : DOMElement.t) (text : string)
| clickElementNode (element : DOMElement.t)
| selectDropdownOption (index : Z) (text : string)
| sendKeys (keys : string)
| navigateTo (url : string).

(** [window.workflowRecording], the log the page script keeps. *)
Module PageRecording.
Record t := mk {
  id : string;
  actions : list RecordedAction.t;
  isRecording : bool
}.
End PageRecording.

(** The page as the core sees it: the snapshot [getState()] returns (its
    [selectorMap] in iteration order, if there is one), the recording
    object of the page script, a screenshot, and the commands received so
    far. *)
Module Page.
Record t := mk {
  selectorMap : option (list (Z * DOMElement.t));
  workflowRecording : option PageRecording.t;
  screenshot : string;
  received : list PageCall
}.
End Page.

(** [await context.browserContext.getCurrentPage()] yields the page or
    throws. *)
Inductive PageAccess :=
| Reached (page : Page.t)
| Unreachable (message : string).

(** How the page answers a command: it carries it out, which leaves a
    new snapshot, or the call throws. *)
Inductive Reaction :=
| Done (selectorMap : option (list (Z * DOMElement.t)))
| Failed (message : string).

Definition Browser := Page.t -> PageCall -> Reaction.

(* ================================================================== *)
(** ** WorkflowRecorder                                               *)
(* ================================================================== *)

Module WorkflowRecorder.

Local Open Scope Z_scope.

Record t := mk {
  isRecording : bool;
  currentWorkflow : list WorkflowStep.t;
  startTime : Z;
  recordingId : string
}.

(** [new WorkflowRecorder(context)] *)
Definition new : t :=
  {| isRecording := false; currentWorkflow := []; startTime := 0; recordingId := "" |}.

(** The test that opens the loop body of [optimizeWorkflow]: [previous] is
    [actions[i - 1]], absent when [i] is 0. *)
Definition debounced (previous : option RecordedAction.t) (action : RecordedAction.t)
    : bool :=
  match previous with
  | None => false
  | Some p =>
      ActionType_eqb (RecordedAction.type p) (RecordedAction.type action)
      && (RecordedAction.timestamp action - RecordedAction.timestamp p <? 100)
  end.

(** The step the loop body builds for an action that is not skipped. *)
Definition make_step (startTime : Z) (stepIndex : nat) (action : RecordedAction.t)
    : WorkflowStep.t :=
  let element := RecordedAction.element action in
  let data := RecordedAction.data action in
  let timing := RecordedAction.timestamp action - startTime in
  match RecordedAction.type action with
  | input =>
      WorkflowStep.mk stepIndex fill_field element data timing
        ("Fill "
         ++ JsString.or_else (RecordedElement.name element)
              (JsString.or_else (RecordedElement.type element) "field")
         ++ ": " ++ Js.show (Js.or (field ActionData.value data) (Some "")))%string
  | click =>
      WorkflowStep.mk stepIndex click_element element None timing
        ("Click " ++ RecordedElement.tagName element ++ ": "
         ++ JsString.or_else (RecordedElement.textContent element)
              (JsString.or_else (RecordedElement.id element)
                 (RecordedElement.className element)))%string
  | select =>
      WorkflowStep.mk stepIndex select_option element data timing
        ("Select: "
         ++ Js.show (Js.or (field ActionData.selectedText data)
                       (field ActionData.selectedValue data)))%string
  | keypress =>
      WorkflowStep.mk stepIndex key_press element data timing
        ("Press key: " ++ Js.show (field ActionData.key data))%string
  | navigation =>
      WorkflowStep.mk stepIndex navigate element data timing
        ("Navigate to: " ++ Js.show (field ActionData.toUrl data))%string
  end.

(** The loop of [optimizeWorkflow] from position [i] on: [previous] is
    [actions[i - 1]], [stepIndex] the counter, [actions] what is left. *)
Fixpoint optimize_from (startTime : Z) (previous : option RecordedAction.t)
    (stepIndex : nat) (actions : list RecordedAction.t) : list WorkflowStep.t :=
  match actions with
  | [] => []
  | action :: rest =>
      if debounced previous action
      then optimize_from startTime (Some action) stepIndex rest
      else make_step startTime stepIndex action
           :: optimize_from startTime (Some action) (S stepIndex) rest
  end.

Definition optimizeWorkflow (r : t) (actions : list RecordedAction.t)
    : list WorkflowStep.t :=
  optimize_from (startTime r) None 0 actions.

Definition detectPlatform (actions : list RecordedAction.t) : string :=
  let urls := JsString.join " " (map RecordedAction.url actions) in
  if JsString.includes urls "linkedin.com" then "linkedin"
  else if JsString.includes urls "indeed.com" then "indeed"
  else if JsString.includes urls "glassdoor.com" then "glassdoor"
  else if JsString.includes urls "workday" then "workday"
  else if JsString.includes urls "greenhouse" then "greenhouse"
  else "other".

Definition saveWorkflow (workflow : SavedWorkflow.t) (storage : Storage) : Storage :=
  storage ++ [workflow].

Definition getSavedWorkflows (storage : Storage) : Storage := storage.

(** The script [stopRecording] evaluates in the page: it switches the page
    recording off and hands back its actions. *)
Definition collect_actions (page : Page.t) : list RecordedAction.t * Page.t :=
  match Page.workflowRecording page with
  | Some recording =>
      (PageRecording.actions recording,
       {| Page.selectorMap := Page.selectorMap page;
          Page.workflowRecording :=
            Some {| PageRecording.id := PageRecording.id recording;
                    PageRecording.actions := PageRecording.actions recording;
                    PageRecording.isRecording := false |};
          Page.screenshot := Page.screenshot page;
          Page.received := Page.received page |})
  | None => ([], page)
  end.

Module StopResult.
Record t := mk {
  success : bool;
  workflow : option SavedWorkflow.t
}.
End StopResult.

(** Everything [stopRecording] can touch: the recorder itself, the page
    and the stored workflows. *)
Record World := mkWorld {
  recorder : t;
  browser : PageAccess;
  stored : Storage
}.

(** [stopRecording(workflowName)]; [now] is the clock and [today] the text
    of [new Date().toLocaleDateString()]. *)
Definition stopRecording (now : Z) (today : string) (workflowName : option string)
    (w : World) : StopResult.t * World :=
  let r := recorder w in
  if negb (isRecording r) then ({| StopResult.success := false; StopResult.workflow := None |}, w)
  else
    match browser w with
    | Unreachable _ =>
        ({| StopResult.success := false; StopResult.workflow := None |}, w)
    | Reached page =>
        let (recordedActions, page') := collect_actions page in
        let r' := {| isRecording := false; currentWorkflow := currentWorkflow r;
                     startTime := startTime r; recordingId := recordingId r |} in
        match recordedActions with
        | [] =>
            ({| StopResult.success := false; StopResult.workflow := None |},
             {| recorder := r'; browser := Reached page'; stored := stored w |})
        | _ :: _ =>
            let optimizedWorkflow := optimizeWorkflow r' recordedActions in
            let savedWorkflow :=
              {| SavedWorkflow.id := recordingId r';
                 SavedWorkflow.name :=
                   Js.show (Js.or workflowName
                              (Some ("Recorded Workflow " ++ today)%string));
                 SavedWorkflow.platform := detectPlatform recordedActions;
                 SavedWorkflow.steps := optimizedWorkflow;
                 SavedWorkflow.recordedAt := startTime r';
                 SavedWorkflow.duration := now - startTime r';
                 SavedWorkflow.actionCount := List.length recordedActions;
                 SavedWorkflow.optimizedActionCount := List.length optimizedWorkflow;
                 SavedWorkflow.successRate := 1%Q;
                 SavedWorkflow.usageCount := 0 |} in
            ({| StopResult.success := true; StopResult.workflow := Some savedWorkflow |},
             {| recorder := r'; browser := Reached page';
                stored := saveWorkflow savedWorkflow (stored w) |})
        end
    end.

(** *** The debounce rule, read off the raw list

    [drops actions i] is the rule in the words of the specification:
    [actions[i]] has the type of [actions[i - 1]] and comes less than 100 ms
    after it.  [surviving] keeps the actions the rule does not drop and
    [steps_from] numbers the steps built from them. *)

Definition drops (actions : list RecordedAction.t) (i : nat) : bool :=
  match i with
  | O => false
  | S j =>
      match nth_error actions j, nth_error actions i with
      | Some p, Some a =>
          ActionType_eqb (RecordedAction.type p) (RecordedAction.type a)
          && (RecordedAction.timestamp a - RecordedAction.timestamp p <? 100)
      | _, _ => false
      end
  end.

Definition surviving_from (all : list RecordedAction.t) (start : nat)
    (actions : list RecordedAction.t) : list RecordedAction.t :=
  map snd (filter (fun ia => negb (drops all (fst ia)))
             (combine (seq start (List.length actions)) actions)).

Definition surviving (actions : list RecordedAction.t) : list RecordedAction.t :=
  surviving_from actions 0 actions.

Fixpoint steps_from (startTime : Z) (stepIndex : nat) (actions : list RecordedAction.t)
    : list WorkflowStep.t :=
  match actions with
  | [] => []
  | a :: rest => make_step startTime stepIndex a :: steps_from startTime (S stepIndex) rest
  end.

Definition last_of (l : list RecordedAction.t) : option RecordedAction.t :=
  nth_error l (pred (List.length l)).

Lemma last_of_snoc (l : list RecordedAction.t) (a : RecordedAction.t) :
  last_of (l ++ [a]) = Some a.
Proof.
  unfold last_of. rewrite length_app. simpl.
  replace (pred (List.length l + 1)) with (List.length l) by lia.
  rewrite nth_error_app2 by lia. rewrite Nat.sub_diag. reflexivity.
Qed.

Lemma drops_at_boundary (pre rest : list RecordedAction.t) (a : RecordedAction.t) :
  drops (pre ++ a :: rest) (List.length pre) = debounced (last_of pre) a.
Proof.
  destruct pre as [|x pre0] using rev_ind.
  - reflexivity.
  - rewrite last_of_snoc.
    assert (Hprev : nth_error ((pre0 ++ [x]) ++ a :: rest) (List.length pre0) = Some x).
    { rewrite <- app_assoc. rewrite nth_error_app2 by lia.
      rewrite Nat.sub_diag. reflexivity. }
    assert (Hcur : nth_error ((pre0 ++ [x]) ++ a :: rest) (S (List.length pre0)) = Some a).
    { replace (S (List.length pre0)) with (List.length (pre0 ++ [x]))
        by (rewrite length_app; simpl; lia).
      rewrite nth_error_app2 by lia. rewrite Nat.sub_diag. reflexivity. }
    replace (List.length (pre0 ++ [x])) with (S (List.length pre0))
      by (rewrite length_app; simpl; lia).
    unfold drops. rewrite Hprev, Hcur. reflexivity.
Qed.

Lemma optimize_from_surviving (startTime : Z) (suffix : list RecordedAction.t) :
  forall (pre : list RecordedAction.t) (stepIndex : nat),
    optimize_from startTime (last_of pre) stepIndex suffix
    = steps_from startTime stepIndex
        (surviving_from (pre ++ suffix) (List.length pre) suffix).
Proof.
  induction suffix as [|a rest IH]; intros pre stepIndex.
  - reflexivity.
  - unfold surviving_from. simpl.
    rewrite drops_at_boundary.
    specialize (IH (pre ++ [a])). rewrite last_of_snoc in IH.
    rewrite <- app_assoc in IH. simpl in IH.
    rewrite length_app in IH. simpl in IH.
    replace (List.length pre + 1)%nat with (S (List.length pre)) in IH by lia.
    unfold surviving_from in IH.
    destruct (debounced (last_of pre) a); simpl.
    + apply IH.
    + f_equal. apply IH.
Qed.

(** C6.  The steps [optimizeWorkflow] returns are the steps of exactly the
    actions the debounce rule does not drop, numbered in order: action [i]
    is dropped exactly when it has the type of action [i - 1] of the raw
    list and its timestamp is less than 100 ms later.  Two [input] actions
    on one field at 1000 and 1050 yield one step, a [fill_field]. *)
Theorem debounce_drops_rapid_repeats :
  (forall (r : t) (actions : list RecordedAction.t),
      optimizeWorkflow r actions = steps_from (startTime r) 0 (surviving actions))
  /\ (forall (r : t) (e : RecordedElement.t) (d d' : option ActionData.t)
             (u u' : string),
      map WorkflowStep.action
        (optimizeWorkflow r
           [RecordedAction.mk 1000 input e d u; RecordedAction.mk 1050 input e d' u'])
      = [fill_field]).
Proof.
  split.
  - intros r actions. unfold optimizeWorkflow, surviving.
    apply (optimize_from_surviving (startTime r) actions [] 0%nat).
  - intros. reflexivity.
Qed.

(* ------------------------------------------------------------------ *)
(** *** Starting a recording, and the events the page captures         *)
(* ------------------------------------------------------------------ *)

(** [`${n}`] for a clock value. *)
Definition show_clock (n : Z) : string := NilZero.string_of_int (Z.to_int n).

Module StartResult.
Record t := mk {
  success : bool;
  recordingId : string
}.
End StartResult.

(** The script [startRecording] evaluates in the page, as far as the
    recording object goes: a new, empty recording takes the place of
    whatever was there.  (The event listeners the script installs are the
    source of the calls of [trackEvent] below.) *)
Definition install_recording (recordingId : string) (page : Page.t) : Page.t :=
  {| Page.selectorMap := Page.selectorMap page;
     Page.workflowRecording :=
       Some {| PageRecording.id := recordingId;
               PageRecording.actions := [];
               PageRecording.isRecording := true |};
     Page.screenshot := Page.screenshot page;
     Page.received := Page.received page |}.

(** [startRecording(workflowName)]: [now] is the clock read for the start
    time and [now'] the clock read next, for the id. *)
Definition startRecording (now now' : Z) (w : World) : StartResult.t * World :=
  let r := {| isRecording := true; currentWorkflow := []; startTime := now;
              recordingId := ("workflow_" ++ show_clock now')%string |} in
  match browser w with
  | Unreachable _ =>
      ({| StartResult.success := false; StartResult.recordingId := "" |},
       {| recorder := r; browser := browser w; stored := stored w |})
  | Reached page =>
      ({| StartResult.success := true; StartResult.recordingId := recordingId r |},
       {| recorder := r; browser := Reached (install_recording (recordingId r) page);
          stored := stored w |})
  end.

(** [trackEvent] in the page, for an event that gives the action [action]:
    it is appended while the page recording is on. *)
Definition trackEvent (action : RecordedAction.t) (page : Page.t) : Page.t :=
  match Page.workflowRecording page with
  | Some recording =>
      if PageRecording.isRecording recording
      then {| Page.selectorMap := Page.selectorMap page;
              Page.workflowRecording :=
                Some {| PageRecording.id := PageRecording.id recording;
                        PageRecording.actions := PageRecording.actions recording ++ [action];
                        PageRecording.isRecording := true |};
              Page.screenshot := Page.screenshot page;
              Page.received := Page.received page |}
      else page
  | None => page
  end.

(** The events of a session, in order, on the page of a world. *)
Definition capture (events : list RecordedAction.t) (w : World) : World :=
  match browser w with
  | Reached page =>
      {| recorder := recorder w;
         browser := Reached (fold_left (fun p a => trackEvent a p) events page);
         stored := stored w |}
  | Unreachable _ => w
  end.

(** [getRecordingStatus()] at clock [now]: the flag, the id, the duration. *)
Definition getRecordingStatus (now : Z) (r : t) : bool * string * Z :=
  (isRecording r, recordingId r, if isRecording r then now - startTime r else 0).

(** The tag of the step an action of a given type becomes. *)
Definition step_tag (type : ActionType) : StepAction :=
  WorkflowStep.action
    (make_step 0 0
       (RecordedAction.mk 0 type (RecordedElement.mk "" "" "" "" "" "" "" "") None "")).

(** No action follows an action of its type by less than 100 ms. *)
Fixpoint spaced (actions : list RecordedAction.t) : bool :=
  match actions with
  | a :: (b :: _) as rest => negb (debounced (Some a) b) && spaced rest
  | _ => true
  end.

(** Two inputs 100 ms apart, then a click, a selection and a key. *)
Definition five_spaced_actions : list RecordedAction.t :=
  let e := RecordedElement.mk "input" "q" "" "" "q" "text" "" "" in
  [RecordedAction.mk 1000 input e None ""; RecordedAction.mk 1100 input e None "";
   RecordedAction.mk 1150 click e None ""; RecordedAction.mk 1160 select e None "";
   RecordedAction.mk 1170 keypress e None ""].

(** *** The steps of a recording *)

Lemma make_step_fields (startTime : Z) (stepIndex : nat) (action : RecordedAction.t) :
  WorkflowStep.stepIndex (make_step startTime stepIndex action) = stepIndex
  /\ WorkflowStep.action (make_step startTime stepIndex action)
     = step_tag (RecordedAction.type action)
  /\ WorkflowStep.element (make_step startTime stepIndex action)
     = RecordedAction.element action
  /\ WorkflowStep.timing (make_step startTime stepIndex action)
     = RecordedAction.timestamp action - startTime.
Proof. unfold make_step, step_tag. destruct (RecordedAction.type action); repeat split. Qed.

Lemma optimize_from_numbered (startTime : Z) (actions : list RecordedAction.t) :
  forall (previous : option RecordedAction.t) (stepIndex : nat),
    map WorkflowStep.stepIndex (optimize_from startTime previous stepIndex actions)
    = seq stepIndex (List.length (optimize_from startTime previous stepIndex actions))
    /\ (List.length (optimize_from startTime previous stepIndex actions)
        <= List.length actions)%nat.
Proof.
  induction actions as [|a rest IH]; intros previous stepIndex; simpl.
  - split; [reflexivity | lia].
  - destruct (debounced previous a); simpl.
    + destruct (IH (Some a) stepIndex) as [Hidx Hlen]. split; [exact Hidx | lia].
    + destruct (IH (Some a) (S stepIndex)) as [Hidx Hlen].
      destruct (make_step_fields startTime stepIndex a) as [-> _].
      split; [rewrite Hidx; reflexivity | lia].
Qed.

(** X11.  The steps of a recording are numbered 0, 1, 2, ... in their
    order; there are at most as many steps as actions, and at least one when
    there is an action: the first action always becomes the first step. *)
Theorem steps_are_numbered_in_order (r : t) (actions : list RecordedAction.t) :
  map WorkflowStep.stepIndex (optimizeWorkflow r actions)
  = seq 0 (List.length (optimizeWorkflow r actions))
  /\ (List.length (optimizeWorkflow r actions) <= List.length actions)%nat
  /\ (forall a rest, actions = a :: rest ->
        hd_error (optimizeWorkflow r actions) = Some (make_step (startTime r) 0 a)).
Proof.
  unfold optimizeWorkflow.
  destruct (optimize_from_numbered (startTime r) actions None 0) as [Hidx Hlen].
  split; [exact Hidx|]. split; [exact Hlen|].
  intros a rest ->. reflexivity.
Qed.

Lemma optimize_from_spaced (startTime : Z) (actions : list RecordedAction.t) :
  forall (previous : option RecordedAction.t) (stepIndex : nat),
    spaced actions = true ->
    match actions with
    | a :: _ => debounced previous a = false
    | [] => True
    end ->
    optimize_from startTime previous stepIndex actions
    = steps_from startTime stepIndex actions.
Proof.
  induction actions as [|a rest IH]; intros previous stepIndex Hspaced Hfirst.
  - reflexivity.
  - cbn [optimize_from steps_from]. rewrite Hfirst. f_equal.
    destruct rest as [|b rest'].
    + reflexivity.
    + change (spaced (a :: b :: rest'))
        with (negb (debounced (Some a) b) && spaced (b :: rest')) in Hspaced.
      apply andb_true_iff in Hspaced. destruct Hspaced as [Hab Hrest].
      apply IH; [exact Hrest|]. apply negb_true_iff. exact Hab.
Qed.

Lemma steps_from_fields (startTime : Z) (actions : list RecordedAction.t) :
  forall stepIndex : nat,
    List.length (steps_from startTime stepIndex actions) = List.length actions
    /\ map WorkflowStep.action (steps_from startTime stepIndex actions)
       = map (fun a => step_tag (RecordedAction.type a)) actions
    /\ map WorkflowStep.element (steps_from startTime stepIndex actions)
       = map RecordedAction.element actions
    /\ map WorkflowStep.timing (steps_from startTime stepIndex actions)
       = map (fun a => RecordedAction.timestamp a - startTime) actions.
Proof.
  induction actions as [|a rest IH]; intros stepIndex; simpl.
  - repeat split.
  - destruct (IH (S stepIndex)) as [Hlen [Htag [Hel Htime]]].
    destruct (make_step_fields startTime stepIndex a) as [_ [-> [-> ->]]].
    rewrite Hlen, Htag, Hel, Htime. repeat split.
Qed.

(** X12.  When no action follows an action of its own type by less than
    100 ms, every action becomes a step, in order: [input] a [fill_field],
    [click] a [click_element], [select] a [select_option], [keypress] a
    [key_press], [navigation] a [navigate], each on the element of its
    action and timed from the start of the recording. *)
Theorem spaced_actions_map_one_to_one (r : t) (actions : list RecordedAction.t)
    (Hspaced : spaced actions = true) :
  List.length (optimizeWorkflow r actions) = List.length actions
  /\ map WorkflowStep.action (optimizeWorkflow r actions)
     = map (fun a => step_tag (RecordedAction.type a)) actions
  /\ map WorkflowStep.element (optimizeWorkflow r actions)
     = map RecordedAction.element actions
  /\ map WorkflowStep.timing (optimizeWorkflow r actions)
     = map (fun a => RecordedAction.timestamp a - startTime r) actions
  /\ map step_tag [input; click; select; keypress; navigation]
     = [fill_field; click_element; select_option; key_press; navigate].
Proof.
  unfold optimizeWorkflow.
  rewrite (optimize_from_spaced (startTime r) actions None 0 Hspaced)
    by (destruct actions; [exact I | reflexivity]).
  destruct (steps_from_fields (startTime r) actions 0) as [Hlen [Htag [Hel Htime]]].
  repeat split; assumption.
Qed.

Lemma spaced_actions_map_one_to_one_witness :
  map WorkflowStep.action (optimizeWorkflow new five_spaced_actions)
  = [fill_field; fill_field; click_element; select_option; key_press].
Proof.
  apply (proj1 (proj2 (spaced_actions_map_one_to_one new five_spaced_actions eq_refl))).
Defined.

(** A recording in progress, the page having captured five actions. *)
Definition running_recording : PageRecording.t :=
  {| PageRecording.id := "workflow_1700000000000";
     PageRecording.actions := five_spaced_actions;
     PageRecording.isRecording := true |}.

Definition running_page : Page.t :=
  {| Page.selectorMap := None; Page.workflowRecording := Some running_recording;
     Page.screenshot := ""; Page.received := [] |}.

Definition running_session : World :=
  {| recorder := {| isRecording := true; currentWorkflow := [];
                    startTime := 1700000000000;
                    recordingId := "workflow_1700000000000" |};
     browser := Reached running_page;
     stored := [] |}.

(** A recording in progress whose page has gone away. *)
Definition orphaned_session : World :=
  {| recorder := {| isRecording := true; currentWorkflow := []; startTime := 0;
                    recordingId := "workflow_0" |};
     browser := Unreachable "no tab";
     stored := [] |}.

(** *** Stopping a recording *)

Lemma optimizeWorkflow_startTime (r r' : t) (actions : list RecordedAction.t) :
  startTime r' = startTime r -> optimizeWorkflow r' actions = optimizeWorkflow r actions.
Proof. unfold optimizeWorkflow. intros ->. reflexivity. Qed.

(** X13.  Stopping a running recording whose page has captured at least
    one action succeeds and appends exactly one workflow to the stored
    ones: it carries the id and the start time of the recording, the
    optimized steps (at least one, at most one per action), success rate 1
    and usage count 0.  The recorder is then idle and the page recording
    off, so that stopping once more fails and changes nothing. *)
Theorem stop_saves_one_workflow
    (now : Z) (today : string) (workflowName : option string) (w : World)
    (page : Page.t) (recording : PageRecording.t)
    (a : RecordedAction.t) (rest : list RecordedAction.t)
    (Hrunning : isRecording (recorder w) = true)
    (Hpage : browser w = Reached page)
    (Hrecording : Page.workflowRecording page = Some recording)
    (Hactions : PageRecording.actions recording = a :: rest) :
  let result := fst (stopRecording now today workflowName w) in
  let w' := snd (stopRecording now today workflowName w) in
  exists saved,
    result = {| StopResult.success := true; StopResult.workflow := Some saved |}
    /\ stored w' = stored w ++ [saved]
    /\ SavedWorkflow.id saved = recordingId (recorder w)
    /\ SavedWorkflow.recordedAt saved = startTime (recorder w)
    /\ SavedWorkflow.duration saved = now - startTime (recorder w)
    /\ SavedWorkflow.steps saved = optimizeWorkflow (recorder w) (a :: rest)
    /\ SavedWorkflow.actionCount saved = S (List.length rest)
    /\ SavedWorkflow.optimizedActionCount saved = List.length (SavedWorkflow.steps saved)
    /\ (1 <= SavedWorkflow.optimizedActionCount saved <= SavedWorkflow.actionCount saved)%nat
    /\ SavedWorkflow.successRate saved = 1%Q
    /\ SavedWorkflow.usageCount saved = 0
    /\ isRecording (recorder w') = false
    /\ (exists page', browser w' = Reached page'
                      /\ option_map PageRecording.isRecording (Page.workflowRecording page')
                         = Some false)
    /\ (forall now' today' name',
          stopRecording now' today' name' w'
          = ({| StopResult.success := false; StopResult.workflow := None |}, w')).
Proof.
  cbv zeta. unfold stopRecording, collect_actions.
  rewrite Hrunning, Hpage, Hrecording, Hactions. cbn [negb fst snd].
  eexists. split; [reflexivity|]. cbn [stored recorder browser isRecording].
  cbn [SavedWorkflow.id SavedWorkflow.recordedAt SavedWorkflow.duration
       SavedWorkflow.steps SavedWorkflow.actionCount SavedWorkflow.optimizedActionCount
       SavedWorkflow.successRate SavedWorkflow.usageCount startTime recordingId].
  assert (Hsteps : optimizeWorkflow
                     {| isRecording := false; currentWorkflow := currentWorkflow (recorder w);
                        startTime := startTime (recorder w);
                        recordingId := recordingId (recorder w) |} (a :: rest)
                   = optimizeWorkflow (recorder w) (a :: rest))
    by (apply optimizeWorkflow_startTime; reflexivity).
  rewrite Hsteps.
  pose proof (optimize_from_numbered (startTime (recorder w)) (a :: rest) None 0)
    as [_ Hlen].
  fold (optimizeWorkflow (recorder w) (a :: rest)) in Hlen.
  assert (Hone : (1 <= List.length (optimizeWorkflow (recorder w) (a :: rest)))%nat)
    by (unfold optimizeWorkflow; simpl; lia).
  repeat split; try reflexivity; try exact Hone; try exact Hlen.
  eexists. split; reflexivity.
Qed.

Lemma stop_saves_one_workflow_witness :
  stored (snd (stopRecording 1700000003000 "1/1/2024" (Some "Apply") running_session))
  <> [].
Proof.
  destruct (stop_saves_one_workflow 1700000003000 "1/1/2024" (Some "Apply")
              running_session running_page running_recording
              (RecordedAction.mk 1000 input
                 (RecordedElement.mk "input" "q" "" "" "q" "text" "" "") None "")
              (tl five_spaced_actions)
              eq_refl eq_refl eq_refl eq_refl) as [saved [_ [Hstored _]]].
  rewrite Hstored. discriminate.
Defined.

(** X14.  Stopping a running recording that has nothing to save stores
    nothing and answers [success: false].  When the page has captured no
    action (or was never set up to record) the recorder goes idle; when
    the page cannot be reached the recorder stays as it is, still
    recording. *)
Theorem stop_with_nothing_captured
    (now : Z) (today : string) (workflowName : option string) (w : World)
    (Hrunning : isRecording (recorder w) = true)
    (Hnothing :
       match browser w with
       | Reached page =>
           match Page.workflowRecording page with
           | Some recording => PageRecording.actions recording = []
           | None => True
           end
       | Unreachable _ => True
       end) :
  let result := fst (stopRecording now today workflowName w) in
  let w' := snd (stopRecording now today workflowName w) in
  result = {| StopResult.success := false; StopResult.workflow := None |}
  /\ stored w' = stored w
  /\ isRecording (recorder w')
     = match browser w with Reached _ => false | Unreachable _ => true end.
Proof.
  cbv zeta. unfold stopRecording, collect_actions. rewrite Hrunning. cbn [negb].
  destruct (browser w) as [page|message] eqn:Hb.
  - destruct (Page.workflowRecording page) as [recording|].
    + rewrite Hnothing. repeat split.
    + repeat split.
  - repeat split. exact Hrunning.
Qed.

Lemma stop_with_nothing_captured_witness :
  fst (stopRecording 5 "1/1/2024" None orphaned_session)
  = {| StopResult.success := false; StopResult.workflow := None |}.
Proof.
  apply (proj1 (stop_with_nothing_captured 5 "1/1/2024" None orphaned_session eq_refl I)).
Defined.

(** *** From start to stop *)

Lemma trackEvent_appends (events : list RecordedAction.t) :
  forall (page : Page.t) (recordingId : string) (captured : list RecordedAction.t),
    Page.workflowRecording page
    = Some {| PageRecording.id := recordingId; PageRecording.actions := captured;
              PageRecording.isRecording := true |} ->
    Page.workflowRecording (fold_left (fun p a => trackEvent a p) events page)
    = Some {| PageRecording.id := recordingId;
              PageRecording.actions := captured ++ events;
              PageRecording.isRecording := true |}.
Proof.
  induction events as [|e events IH]; intros page recordingId captured Hrec; simpl.
  - rewrite app_nil_r. exact Hrec.
  - rewrite (IH _ recordingId (captured ++ [e])).
    + rewrite <- app_assoc. reflexivity.
    + unfold trackEvent. rewrite Hrec. reflexivity.
Qed.

(** X15.  A session from start to stop.  Whatever the recorder and the
    page held before, after [startRecording] at clock [t0] (and [t0'] for
    the id), the events [e :: events] captured by the page and
    [stopRecording] at clock [t1], one workflow is stored: its id is the
    recording id [startRecording] returned, [workflow_] followed by [t0'];
    it was recorded at [t0] and took [t1 - t0]; its steps are the optimized
    steps of exactly the events since the start, counted from [t0]. *)
Theorem session_round_trip
    (t0 t0' t1 : Z) (today : string) (workflowName : option string)
    (r0 : t) (page : Page.t) (stored0 : Storage)
    (e : RecordedAction.t) (events : list RecordedAction.t) :
  let w0 := {| recorder := r0; browser := Reached page; stored := stored0 |} in
  let started := startRecording t0 t0' w0 in
  let stopped := stopRecording t1 today workflowName (capture (e :: events) (snd started)) in
  fst started
  = {| StartResult.success := true;
       StartResult.recordingId := ("workflow_" ++ show_clock t0')%string |}
  /\ exists saved,
      fst stopped = {| StopResult.success := true; StopResult.workflow := Some saved |}
      /\ stored (snd stopped) = stored0 ++ [saved]
      /\ SavedWorkflow.id saved = StartResult.recordingId (fst started)
      /\ SavedWorkflow.recordedAt saved = t0
      /\ SavedWorkflow.duration saved = t1 - t0
      /\ SavedWorkflow.actionCount saved = S (List.length events)
      /\ SavedWorkflow.steps saved = optimize_from t0 None 0 (e :: events).
Proof.
  cbv zeta. split; [reflexivity|].
  unfold startRecording. cbn [browser snd]. unfold capture. cbn [browser recorder stored].
  unfold stopRecording. cbn [recorder isRecording negb browser].
  unfold collect_actions.
  rewrite (trackEvent_appends (e :: events) _ ("workflow_" ++ show_clock t0')%string [])
    by reflexivity.
  cbn [app PageRecording.actions fst snd].
  eexists. split; [reflexivity|]. repeat split.
Qed.

(** X16.  When the page cannot be reached, [startRecording] answers
    [success: false] with an empty id and stores nothing, but the recorder
    is left marked as recording, with the id and start time of the failed
    attempt: its status shows a recording in progress. *)
Theorem failed_start_leaves_recorder_recording
    (now now' later : Z) (w : World) (message : string)
    (Hdown : browser w = Unreachable message) :
  let result := fst (startRecording now now' w) in
  let w' := snd (startRecording now now' w) in
  result = {| StartResult.success := false; StartResult.recordingId := "" |}
  /\ stored w' = stored w
  /\ browser w' = browser w
  /\ getRecordingStatus later (recorder w')
     = (true, ("workflow_" ++ show_clock now')%string, later - now).
Proof.
  cbv zeta. unfold startRecording, getRecordingStatus. rewrite Hdown.
  cbn [fst snd stored browser recorder isRecording recordingId startTime].
  repeat split.
Qed.

Lemma failed_start_leaves_recorder_recording_witness :
  getRecordingStatus 1700000005000
    (recorder (snd (startRecording 1700000000000 1700000000001
                      {| recorder := new; browser := Unreachable "no tab";
                         stored := [] |})))
  = (true, "workflow_1700000000001", 5000).
Proof.
  pose proof (failed_start_leaves_recorder_recording 1700000000000 1700000000001
                1700000005000
                {| recorder := new; browser := Unreachable "no tab"; stored := [] |}
                "no tab" eq_refl) as H.
  cbv zeta in H. exact (proj2 (proj2 (proj2 H))).
Defined.

(** *** The platform of a recording *)

(** X17.  A recording that visited a URL containing [linkedin.com] is
    tagged [linkedin], whatever other sites it visited; and the tag is
    always one of the six names. *)
Theorem linkedin_visit_decides_platform (actions : list RecordedAction.t) :
  ((exists a, In a actions /\ JsString.includes (RecordedAction.url a) "linkedin.com" = true)
   -> detectPlatform actions = "linkedin")
  /\ In (detectPlatform actions)
       ["linkedin"; "indeed"; "glassdoor"; "workday"; "greenhouse"; "other"].
Proof.
  split.
  - intros [a [Hin Hurl]]. unfold detectPlatform.
    rewrite (JsString.includes_join " " "linkedin.com" (map RecordedAction.url actions)
               (RecordedAction.url a)); [reflexivity | | exact Hurl].
    apply in_map. exact Hin.
  - unfold detectPlatform.
    repeat match goal with |- context [if ?b then _ else _] => destruct b end;
      simpl; tauto.
Qed.

Lemma linkedin_visit_decides_platform_witness :
  detectPlatform
    [RecordedAction.mk 0 navigation (RecordedElement.mk "body" "" "" "" "" "" "" "") None
       "https://www.indeed.com/viewjob";
     RecordedAction.mk 5000 click (RecordedElement.mk "a" "" "" "" "" "" "" "") None
       "https://www.linkedin.com/jobs/view/1"]
  = "linkedin".
Proof.
  apply (proj1 (linkedin_visit_decides_platform _)).
  eexists. split; [right; left; reflexivity | reflexivity].
Defined.

End WorkflowRecorder.

(* ================================================================== *)
(** ** WorkflowExecutor                                               *)
(* ================================================================== *)

Module WorkflowExecutor.

Local Open Scope Z_scope.

(** What [ResumeManager.getAutoFillData()] hands over, as far as the
    replay reads it. *)
Module ResumeData.
Record t := mk {
  email : option string;
  phone : option string;
  first_name : option string;
  last_name : option string
}.
End ResumeData.

Inductive Speed := fast | normal | slow.

Module Options.
Record t := mk {
  useResumeData : bool;
  skipConfirmation : bool;
  speed : option Speed
}.
End Options.

Module ExecResult.
Record t := mk {
  success : bool;
  message : string;
  executedSteps : nat
}.
End ExecResult.

(** The body of the loop of [findElement] over the entries of the
    selector map, in their order. *)
Fixpoint find_in (elementData : RecordedElement.t) (entries : list (Z * DOMElement.t))
    : option DOMElement.t :=
  match entries with
  | [] => None
  | (_, element) :: rest =>
      if negb (String.eqb (RecordedElement.id elementData) "")
         && Js.same (DOMElement.attr_id element) (RecordedElement.id elementData)
      then Some element
      else if negb (String.eqb (RecordedElement.name elementData) "")
              && Js.same (DOMElement.attr_name element) (RecordedElement.name elementData)
      then Some element
      else if negb (String.eqb (RecordedElement.textContent elementData) "")
              && match DOMElement.textContent element with
                 | Some text =>
                     JsString.includes text
                       (JsString.take 50 (RecordedElement.textContent elementData))
                 | None => false
                 end
      then Some element
      else find_in elementData rest
  end.

(** [findElement(page, elementData)]; [None] is [null]. *)
Definition findElement (page : Page.t) (elementData : RecordedElement.t)
    : option DOMElement.t :=
  match Page.selectorMap page with
  | None => None
  | Some entries => find_in elementData entries
  end.

Definition identifiers (element : RecordedElement.t) : string :=
  JsString.toLowerCase
    (JsString.join " "
       [RecordedElement.name element; RecordedElement.id element;
        RecordedElement.placeholder element]).

Definition isResumeField (element : RecordedElement.t) : bool :=
  existsb (fun f => JsString.includes (identifiers element) f)
    ["email"; "phone"; "first_name"; "last_name"; "name"].

Definition getResumeFieldValue (element : RecordedElement.t) (resumeData : ResumeData.t)
    : option string :=
  let ids := identifiers element in
  if JsString.includes ids "email" then ResumeData.email resumeData
  else if JsString.includes ids "phone" then ResumeData.phone resumeData
  else if JsString.includes ids "first" || JsString.includes ids "fname"
  then ResumeData.first_name resumeData
  else if JsString.includes ids "last" || JsString.includes ids "lname"
  then ResumeData.last_name resumeData
  else None.

(** How a call on the page ends: it returns, or it throws; either way the
    page may have changed. *)
Inductive Outcome :=
| Returned (page : Page.t)
| Thrown (message : string) (page : Page.t).

Section Replay.

(** The page-control collaborator. *)
Variable browser : Browser.

(** One command sent to the page. *)
Definition send (call : PageCall) (page : Page.t) : Outcome :=
  let received := Page.received page ++ [call] in
  match browser page call with
  | Done selectorMap =>
      Returned {| Page.selectorMap := selectorMap;
                  Page.workflowRecording := Page.workflowRecording page;
                  Page.screenshot := Page.screenshot page;
                  Page.received := received |}
  | Failed message =>
      Thrown message {| Page.selectorMap := Page.selectorMap page;
                        Page.workflowRecording := Page.workflowRecording page;
                        Page.screenshot := Page.screenshot page;
                        Page.received := received |}
  end.

Definition fillField (page : Page.t) (step : WorkflowStep.t)
    (resumeData : option ResumeData.t) : Outcome :=
  match findElement page (WorkflowStep.element step) with
  | None => Returned page
  | Some element =>
      let value := Js.show (Js.or (field ActionData.value (WorkflowStep.data step)) (Some "")) in
      let value :=
        match resumeData with
        | Some rd =>
            if isResumeField (WorkflowStep.element step)
            then Js.show (Js.or (getResumeFieldValue (WorkflowStep.element step) rd)
                            (Some value))
            else value
        | None => value
        end in
      send (inputTextElementNode element value) page
  end.

Definition clickElement (page : Page.t) (step : WorkflowStep.t) : Outcome :=
  match findElement page (WorkflowStep.element step) with
  | None => Returned page
  | Some element => send (clickElementNode element) page
  end.

Definition selectOption (page : Page.t) (step : WorkflowStep.t) : Outcome :=
  match findElement page (WorkflowStep.element step) with
  | None => Returned page
  | Some element =>
      let value := Js.or (field ActionData.selectedValue (WorkflowStep.data step))
                         (field ActionData.selectedText (WorkflowStep.data step)) in
      if Js.truthy value
      then send (selectDropdownOption (DOMElement.highlightIndex element) (Js.show value)) page
      else Returned page
  end.

Definition pressKey (page : Page.t) (step : WorkflowStep.t) : Outcome :=
  let key := field ActionData.key (WorkflowStep.data step) in
  if Js.truthy key then send (sendKeys (Js.show key)) page else Returned page.

Definition navigate_to (page : Page.t) (step : WorkflowStep.t) : Outcome :=
  let url := field ActionData.toUrl (WorkflowStep.data step) in
  if Js.truthy url then send (navigateTo (Js.show url)) page else Returned page.

Definition executeStep (page : Page.t) (step : WorkflowStep.t)
    (resumeData : option ResumeData.t) : Outcome :=
  match WorkflowStep.action step with
  | fill_field => fillField page step resumeData
  | click_element => clickElement page step
  | select_option => selectOption page step
  | key_press => pressKey page step
  | navigate => navigate_to page step
  end.

(** The [for (const step of workflow.steps)] loop with its [try]/[catch];
    [executedSteps] is the counter so far.  The pause after a step changes
    nothing the replay looks at and is left out. *)
Fixpoint run_steps (steps : list WorkflowStep.t) (resumeData : option ResumeData.t)
    (executedSteps : nat) (page : Page.t) : nat * Page.t :=
  match steps with
  | [] => (executedSteps, page)
  | step :: rest =>
      match executeStep page step resumeData with
      | Returned page' => run_steps rest resumeData (S executedSteps) page'
      | Thrown _ page' => run_steps rest resumeData executedSteps page'
      end
  end.

End Replay.

(** [updateWorkflowStats]: the first workflow of the stored list with the
    given id is the one changed. *)
Definition bump (success : bool) (workflow : SavedWorkflow.t) : SavedWorkflow.t :=
  let usageCount := SavedWorkflow.usageCount workflow + 1 in
  {| SavedWorkflow.id := SavedWorkflow.id workflow;
     SavedWorkflow.name := SavedWorkflow.name workflow;
     SavedWorkflow.platform := SavedWorkflow.platform workflow;
     SavedWorkflow.steps := SavedWorkflow.steps workflow;
     SavedWorkflow.recordedAt := SavedWorkflow.recordedAt workflow;
     SavedWorkflow.duration := SavedWorkflow.duration workflow;
     SavedWorkflow.actionCount := SavedWorkflow.actionCount workflow;
     SavedWorkflow.optimizedActionCount := SavedWorkflow.optimizedActionCount workflow;
     SavedWorkflow.successRate :=
       ((SavedWorkflow.successRate workflow * inject_Z (usageCount - 1)
         + (if success then 1 else 0)) / inject_Z usageCount)%Q;
     SavedWorkflow.usageCount := usageCount |}.

Fixpoint updateWorkflowStats (workflowId : string) (success : bool) (workflows : Storage)
    : Storage :=
  match workflows with
  | [] => []
  | w :: rest =>
      if String.eqb (SavedWorkflow.id w) workflowId
      then bump success w :: rest
      else w :: updateWorkflowStats workflowId success rest
  end.

(** [options?.useResumeData ? await this.getResumeData() : null] *)
Definition chosen_resume (options : option Options.t) (resume : option ResumeData.t)
    : option ResumeData.t :=
  match options with
  | Some o => if Options.useResumeData o then resume else None
  | None => None
  end.

(** [executeWorkflow(workflowId, options)]: the result, the stored
    workflows and the page afterwards.  [resume] is what [getResumeData()]
    would return. *)
Definition executeWorkflow (browser : Browser) (resume : option ResumeData.t)
    (workflowId : string) (options : option Options.t)
    (storage : Storage) (access : PageAccess)
    : ExecResult.t * Storage * PageAccess :=
  match find_workflow workflowId (WorkflowRecorder.getSavedWorkflows storage) with
  | None =>
      ({| ExecResult.success := false; ExecResult.message := "Workflow not found";
          ExecResult.executedSteps := 0 |}, storage, access)
  | Some workflow =>
      match access with
      | Unreachable message =>
          ({| ExecResult.success := false;
              ExecResult.message := ("Execution failed: " ++ message)%string;
              ExecResult.executedSteps := 0 |}, storage, access)
      | Reached page =>
          let resumeData := chosen_resume options resume in
          let total := List.length (SavedWorkflow.steps workflow) in
          let (executedSteps, page') :=
            run_steps browser (SavedWorkflow.steps workflow) resumeData 0 page in
          ({| ExecResult.success := (0 <? executedSteps)%nat;
              ExecResult.message :=
                ("Executed " ++ Js.show_nat executedSteps ++ "/"
                 ++ Js.show_nat total ++ " steps")%string;
              ExecResult.executedSteps := executedSteps |},
           updateWorkflowStats workflowId (executedSteps =? total)%nat storage,
           Reached page')
      end
  end.

(** *** A page and a workflow to replay

    A form with an e-mail field and a submit button, a browser that carries
    out every command and leaves the snapshot as it is, and a recorded
    workflow of four steps whose second step targets a telephone field the
    form does not have. *)

Definition fingerprint (tag id name text : string) : RecordedElement.t :=
  {| RecordedElement.tagName := tag; RecordedElement.id := id;
     RecordedElement.className := ""; RecordedElement.textContent := text;
     RecordedElement.name := name; RecordedElement.type := "";
     RecordedElement.placeholder := ""; RecordedElement.xpath := "" |}.

Definition typed (text : string) : option ActionData.t :=
  Some {| ActionData.value := Some text; ActionData.inputType := Some "text";
          ActionData.selectedValue := None; ActionData.selectedText := None;
          ActionData.key := None; ActionData.keyCode := None;
          ActionData.fromUrl := None; ActionData.toUrl := None |}.

Definition pressed (key : string) : option ActionData.t :=
  Some {| ActionData.value := None; ActionData.inputType := None;
          ActionData.selectedValue := None; ActionData.selectedText := None;
          ActionData.key := Some key; ActionData.keyCode := Some 13;
          ActionData.fromUrl := None; ActionData.toUrl := None |}.

Definition email_input : DOMElement.t :=
  {| DOMElement.highlightIndex := 0; DOMElement.tagName := "input";
     DOMElement.attr_id := Some "email"; DOMElement.attr_name := Some "email";
     DOMElement.attr_placeholder := None; DOMElement.textContent := Some "" |}.

Definition submit_button : DOMElement.t :=
  {| DOMElement.highlightIndex := 1; DOMElement.tagName := "button";
     DOMElement.attr_id := Some "submit"; DOMElement.attr_name := None;
     DOMElement.attr_placeholder := None; DOMElement.textContent := Some "Submit" |}.

Definition form_page : Page.t :=
  {| Page.selectorMap := Some [(0, email_input); (1, submit_button)];
     Page.workflowRecording := None; Page.screenshot := "";
     Page.received := [] |}.

Definition steady_browser : Browser := fun page _ => Done (Page.selectorMap page).

Definition step_fill_email : WorkflowStep.t :=
  WorkflowStep.mk 0 fill_field (fingerprint "input" "email" "email" "")
    (typed "a@b.example") 100 "Fill email: a@b.example".

Definition step_fill_phone : WorkflowStep.t :=
  WorkflowStep.mk 1 fill_field (fingerprint "input" "phone" "phone" "")
    (typed "555") 900 "Fill phone: 555".

Definition step_click_submit : WorkflowStep.t :=
  WorkflowStep.mk 2 click_element (fingerprint "button" "submit" "" "Submit")
    None 1500 "Click button: Submit".

Definition step_press_enter : WorkflowStep.t :=
  WorkflowStep.mk 3 key_press (fingerprint "body" "" "" "")
    (pressed "Enter") 2100 "Press key: Enter".

Definition four_steps : SavedWorkflow.t :=
  {| SavedWorkflow.id := "workflow_1"; SavedWorkflow.name := "Apply";
     SavedWorkflow.platform := "other";
     SavedWorkflow.steps :=
       [step_fill_email; step_fill_phone; step_click_submit; step_press_enter];
     SavedWorkflow.recordedAt := 0; SavedWorkflow.duration := 2500;
     SavedWorkflow.actionCount := 4; SavedWorkflow.optimizedActionCount := 4;
     SavedWorkflow.successRate := 1%Q; SavedWorkflow.usageCount := 0 |}.

(** The steps that look their element up before they act. *)
Definition resolves_element (step : WorkflowStep.t) : bool :=
  match WorkflowStep.action step with
  | fill_field | click_element | select_option => true
  | key_press | navigate => false
  end.

(** *** Steps whose element is not found *)

Lemma unresolved_step_returns (browser : Browser) (page : Page.t) (step : WorkflowStep.t)
    (resumeData : option ResumeData.t) :
  resolves_element step = true ->
  findElement page (WorkflowStep.element step) = None ->
  executeStep browser page step resumeData = Returned page.
Proof.
  intros Hkind Hnone. unfold executeStep, resolves_element in *.
  destruct (WorkflowStep.action step); try discriminate;
    unfold fillField, clickElement, selectOption; rewrite Hnone; reflexivity.
Qed.

Lemma run_steps_returned (browser : Browser) (step : WorkflowStep.t)
    (rest : list WorkflowStep.t) (resumeData : option ResumeData.t) (n : nat)
    (page page' : Page.t) :
  executeStep browser page step resumeData = Returned page' ->
  run_steps browser (step :: rest) resumeData n page
  = run_steps browser rest resumeData (S n) page'.
Proof. intros H. simpl. rewrite H. reflexivity. Qed.

Lemma run_steps_thrown (browser : Browser) (step : WorkflowStep.t)
    (rest : list WorkflowStep.t) (resumeData : option ResumeData.t) (n : nat)
    (page page' : Page.t) (message : string) :
  executeStep browser page step resumeData = Thrown message page' ->
  run_steps browser (step :: rest) resumeData n page
  = run_steps browser rest resumeData n page'.
Proof. intros H. simpl. rewrite H. reflexivity. Qed.

(** C1, as the code has it.  A workflow of four steps is replayed; the
    first, third and fourth step return and the element of the second, a
    step that looks its element up, is not found on the page the first
    step left.  Then the second step returns at once, the page untouched
    and nothing sent to it, and is counted like the others:
    [executedSteps] is 4.  In general a step whose element is not found
    adds one to the counter and the loop goes on with the next step on the
    same page; the steps left out of the count are those that throw, after
    which the loop goes on as well. *)
Theorem unresolved_step_is_counted
    (browser : Browser) (resume : option ResumeData.t) (options : option Options.t)
    (workflowId : string) (storage : Storage) (workflow : SavedWorkflow.t)
    (s1 s2 s3 s4 : WorkflowStep.t) (page p1 p3 p4 : Page.t)
    (Hfound : find_workflow workflowId storage = Some workflow)
    (Hsteps : SavedWorkflow.steps workflow = [s1; s2; s3; s4])
    (Hfirst : executeStep browser page s1 (chosen_resume options resume) = Returned p1)
    (Hkind : resolves_element s2 = true)
    (Hmiss : findElement p1 (WorkflowStep.element s2) = None)
    (Hthird : executeStep browser p1 s3 (chosen_resume options resume) = Returned p3)
    (Hfourth : executeStep browser p3 s4 (chosen_resume options resume) = Returned p4) :
  let run :=
    executeWorkflow browser resume workflowId options storage (Reached page) in
  executeStep browser p1 s2 (chosen_resume options resume) = Returned p1
  /\ ExecResult.executedSteps (fst (fst run)) = 4%nat
  /\ snd run = Reached p4
  /\ (forall rest n,
        run_steps browser (s2 :: rest) (chosen_resume options resume) n p1
        = run_steps browser rest (chosen_resume options resume) (S n) p1)
  /\ (forall step rest n q q' message,
        executeStep browser q step (chosen_resume options resume) = Thrown message q' ->
        run_steps browser (step :: rest) (chosen_resume options resume) n q
        = run_steps browser rest (chosen_resume options resume) n q').
Proof.
  pose proof (unresolved_step_returns browser p1 s2 (chosen_resume options resume)
                Hkind Hmiss) as Hsecond.
  cbv zeta. split; [exact Hsecond|].
  assert (Hrun : run_steps browser [s1; s2; s3; s4] (chosen_resume options resume) 0 page
                 = (4%nat, p4)).
  { rewrite (run_steps_returned _ _ _ _ _ _ _ Hfirst).
    rewrite (run_steps_returned _ _ _ _ _ _ _ Hsecond).
    rewrite (run_steps_returned _ _ _ _ _ _ _ Hthird).
    rewrite (run_steps_returned _ _ _ _ _ _ _ Hfourth).
    reflexivity. }
  unfold executeWorkflow, WorkflowRecorder.getSavedWorkflows.
  rewrite Hfound, Hsteps, Hrun. simpl.
  split; [reflexivity|]. split; [reflexivity|]. split.
  - intros rest n. apply run_steps_returned. exact Hsecond.
  - intros step rest n q q' message Hthrown.
    apply (run_steps_thrown _ _ _ _ _ _ _ _ Hthrown).
Qed.

Lemma unresolved_step_is_counted_witness :
  ExecResult.executedSteps
    (fst (fst (executeWorkflow steady_browser None "workflow_1" None [four_steps]
                 (Reached form_page))))
  = 4%nat.
Proof.
  refine (proj1 (proj2
    (unresolved_step_is_counted steady_browser None None "workflow_1" [four_steps]
       four_steps step_fill_email step_fill_phone step_click_submit step_press_enter
       form_page _ _ _ _ _ _ _ _ _ _))); reflexivity.
Defined.

(** The scenario of C1 evaluated, against the count of 3 the claim
    states.  On the form page the telephone field of
    the second step is not found, the three other steps are carried out
    (the page received exactly their three commands), and the run reports
    4 executed steps, not 3. *)
Lemma unresolved_step_scenario_counts_four :
  let run :=
    executeWorkflow steady_browser None "workflow_1" None [four_steps]
      (Reached form_page) in
  findElement form_page (WorkflowStep.element step_fill_phone) = None
  /\ snd run
     = Reached
         {| Page.selectorMap := Page.selectorMap form_page;
            Page.workflowRecording := None; Page.screenshot := "";
            Page.received :=
              [inputTextElementNode email_input "a@b.example";
               clickElementNode submit_button; sendKeys "Enter"] |}
  /\ ExecResult.executedSteps (fst (fst run)) = 4%nat
  /\ ExecResult.executedSteps (fst (fst run)) <> 3%nat.
Proof.
  cbv zeta. split; [reflexivity|]. split; [reflexivity|].
  split; [reflexivity | vm_compute; discriminate].
Qed.

(** C9.  When no stored workflow has the id, [executeWorkflow] returns the
    failure [Workflow not found] with 0 executed steps; the stored
    workflows are as they were (no usage count, no success rate changed)
    and so is the page, which was not even fetched: it received no
    command. *)
Theorem unknown_workflow_fails_without_effects
    (browser : Browser) (resume : option ResumeData.t) (workflowId : string)
    (options : option Options.t) (storage : Storage) (access : PageAccess)
    (Habsent : find_workflow workflowId storage = None) :
  executeWorkflow browser resume workflowId options storage access
  = ({| ExecResult.success := false; ExecResult.message := "Workflow not found";
        ExecResult.executedSteps := 0 |}, storage, access).
Proof.
  unfold executeWorkflow, WorkflowRecorder.getSavedWorkflows.
  rewrite Habsent. reflexivity.
Qed.

Lemma unknown_workflow_fails_without_effects_witness :
  executeWorkflow steady_browser None "workflow_2" None [four_steps] (Reached form_page)
  = ({| ExecResult.success := false; ExecResult.message := "Workflow not found";
        ExecResult.executedSteps := 0 |}, [four_steps], Reached form_page).
Proof.
  apply (unknown_workflow_fails_without_effects steady_browser None "workflow_2" None
           [four_steps] (Reached form_page)).
  reflexivity.
Defined.

(** *** Which element [findElement] returns *)

(** One element against the three tests of the loop body. *)
Definition matches_any_rule (elementData : RecordedElement.t) (element : DOMElement.t)
    : bool :=
  (negb (String.eqb (RecordedElement.id elementData) "")
   && Js.same (DOMElement.attr_id element) (RecordedElement.id elementData))
  || (negb (String.eqb (RecordedElement.name elementData) "")
      && Js.same (DOMElement.attr_name element) (RecordedElement.name elementData))
  || (negb (String.eqb (RecordedElement.textContent elementData) "")
      && match DOMElement.textContent element with
         | Some text =>
             JsString.includes text
               (JsString.take 50 (RecordedElement.textContent elementData))
         | None => false
         end).

(** [findElement] returns the first element of the snapshot, in its
    order, that passes any of the three tests. *)
Lemma find_in_first_match (elementData : RecordedElement.t)
    (entries : list (Z * DOMElement.t)) :
  find_in elementData entries = find (matches_any_rule elementData) (map snd entries).
Proof.
  induction entries as [|[index element] rest IH]; simpl.
  - reflexivity.
  - unfold matches_any_rule.
    destruct (negb (String.eqb (RecordedElement.id elementData) "")
              && Js.same (DOMElement.attr_id element) (RecordedElement.id elementData));
      simpl; [reflexivity|].
    destruct (negb (String.eqb (RecordedElement.name elementData) "")
              && Js.same (DOMElement.attr_name element) (RecordedElement.name elementData));
      simpl; [reflexivity|].
    destruct (negb (String.eqb (RecordedElement.textContent elementData) "")
              && match DOMElement.textContent element with
                 | Some text =>
                     JsString.includes text
                       (JsString.take 50 (RecordedElement.textContent elementData))
                 | None => false
                 end);
      [reflexivity | exact IH].
Qed.

(** A page with a newsletter box in its header, whose input is named
    [email], above the application form, whose e-mail input has the id
    [email]. *)
Definition newsletter_input : DOMElement.t :=
  {| DOMElement.highlightIndex := 0; DOMElement.tagName := "input";
     DOMElement.attr_id := Some "newsletter"; DOMElement.attr_name := Some "email";
     DOMElement.attr_placeholder := None; DOMElement.textContent := Some "" |}.

Definition application_email_input : DOMElement.t :=
  {| DOMElement.highlightIndex := 1; DOMElement.tagName := "input";
     DOMElement.attr_id := Some "email"; DOMElement.attr_name := Some "email";
     DOMElement.attr_placeholder := None; DOMElement.textContent := Some "" |}.

Definition page_with_newsletter : Page.t :=
  {| Page.selectorMap := Some [(0, newsletter_input); (1, application_email_input)];
     Page.workflowRecording := None; Page.screenshot := "";
     Page.received := [] |}.

(** C7, evaluated.  The fingerprint has the id [email] and the name
    [email].  The second element of the snapshot has exactly this id; the
    first has another id and only the name.  [findElement] returns the
    first one. *)
Theorem earlier_name_match_beats_id_match :
  let recorded := fingerprint "input" "email" "email" "" in
  Js.same (DOMElement.attr_id application_email_input) (RecordedElement.id recorded) = true
  /\ Js.same (DOMElement.attr_id newsletter_input) (RecordedElement.id recorded) = false
  /\ Js.same (DOMElement.attr_name newsletter_input) (RecordedElement.name recorded) = true
  /\ findElement page_with_newsletter recorded = Some newsletter_input.
Proof. cbv zeta. repeat split. Qed.

(** *** The usage statistics *)

Lemma updateWorkflowStats_found (workflowId : string) (success : bool)
    (workflows : Storage) (workflow : SavedWorkflow.t) :
  find_workflow workflowId workflows = Some workflow ->
  find_workflow workflowId (updateWorkflowStats workflowId success workflows)
  = Some (bump success workflow).
Proof.
  unfold find_workflow. induction workflows as [|w rest IH]; simpl; intros Hfind.
  - discriminate.
  - destruct (String.eqb (SavedWorkflow.id w) workflowId) eqn:Hid; simpl.
    + injection Hfind as ->. rewrite Hid. reflexivity.
    + rewrite Hid. apply IH. exact Hfind.
Qed.

(** The replay's update is the incremental average. *)
Lemma bump_incremental_average (success : bool) (workflow : SavedWorkflow.t) :
  SavedWorkflow.usageCount (bump success workflow) = SavedWorkflow.usageCount workflow + 1
  /\ (SavedWorkflow.successRate (bump success workflow)
      == (SavedWorkflow.successRate workflow
          * inject_Z (SavedWorkflow.usageCount (bump success workflow) - 1)
          + (if success then 1 else 0))
         / inject_Z (SavedWorkflow.usageCount (bump success workflow)))%Q.
Proof. split; reflexivity. Qed.

Lemma bump_rate_in_range (success : bool) (workflow : SavedWorkflow.t) :
  0 <= SavedWorkflow.usageCount workflow ->
  (0 <= SavedWorkflow.successRate workflow <= 1)%Q ->
  (0 <= SavedWorkflow.successRate (bump success workflow) <= 1)%Q.
Proof.
  intros Hcount [Hlo Hhi]. simpl.
  set (rate := SavedWorkflow.successRate workflow) in *.
  set (n := SavedWorkflow.usageCount workflow) in *.
  replace (n + 1 - 1) with n by lia.
  assert (Hn : (0 <= inject_Z n)%Q).
  { change 0%Q with (inject_Z 0). rewrite <- Zle_Qle. exact Hcount. }
  assert (Hsucc : (inject_Z (n + 1) == inject_Z n + 1)%Q).
  { rewrite inject_Z_plus. reflexivity. }
  assert (Hpos : (0 < inject_Z (n + 1))%Q).
  { change 0%Q with (inject_Z 0). rewrite <- Zlt_Qlt. lia. }
  assert (Hprod_lo : (0 <= rate * inject_Z n)%Q) by (apply Qmult_le_0_compat; assumption).
  assert (Hprod_hi : (rate * inject_Z n <= inject_Z n)%Q).
  { rewrite <- (Qmult_1_l (inject_Z n)) at 2.
    apply Qmult_le_compat_r; assumption. }
  split.
  - apply Qle_shift_div_l; [exact Hpos|].
    rewrite Qmult_0_l. destruct success.
    + apply (Qle_trans _ (rate * inject_Z n)); [exact Hprod_lo|].
      rewrite <- (Qplus_0_r (rate * inject_Z n)) at 1.
      apply Qplus_le_r. discriminate.
    + rewrite Qplus_0_r. exact Hprod_lo.
  - apply Qle_shift_div_r; [exact Hpos|].
    rewrite Qmult_1_l, Hsucc. destruct success.
    + apply Qplus_le_l. exact Hprod_hi.
    + apply Qplus_le_compat; [exact Hprod_hi | discriminate].
Qed.

(** The success rate stays within [0, 1] over any run of replays of a
    workflow whose usage count is not negative. *)
Lemma bump_sequence_in_range (outcomes : list bool) :
  forall workflow : SavedWorkflow.t,
    0 <= SavedWorkflow.usageCount workflow ->
    (0 <= SavedWorkflow.successRate workflow <= 1)%Q ->
    (0 <= SavedWorkflow.successRate (fold_left (fun w ok => bump ok w) outcomes workflow)
     <= 1)%Q.
Proof.
  induction outcomes as [|ok outcomes IH]; intros workflow Hcount Hrate; simpl.
  - exact Hrate.
  - apply IH.
    + simpl. lia.
    + apply bump_rate_in_range; assumption.
Qed.

(* ------------------------------------------------------------------ *)
(** *** More about a replay                                            *)
(* ------------------------------------------------------------------ *)

(** X18.  When the workflow exists but the page cannot be reached, the
    replay fails with the message of the error and 0 executed steps; no
    usage statistics are touched. *)
Theorem unreachable_page_fails_without_effects
    (browser : Browser) (resume : option ResumeData.t) (workflowId : string)
    (options : option Options.t) (storage : Storage) (workflow : SavedWorkflow.t)
    (message : string)
    (Hfound : find_workflow workflowId storage = Some workflow) :
  executeWorkflow browser resume workflowId options storage (Unreachable message)
  = ({| ExecResult.success := false;
        ExecResult.message := ("Execution failed: " ++ message)%string;
        ExecResult.executedSteps := 0 |}, storage, Unreachable message).
Proof.
  unfold executeWorkflow, WorkflowRecorder.getSavedWorkflows. rewrite Hfound. reflexivity.
Qed.

Lemma unreachable_page_fails_without_effects_witness :
  executeWorkflow steady_browser None "workflow_1" None [four_steps] (Unreachable "no tab")
  = ({| ExecResult.success := false; ExecResult.message := "Execution failed: no tab";
        ExecResult.executedSteps := 0 |}, [four_steps], Unreachable "no tab").
Proof.
  apply (unreachable_page_fails_without_effects steady_browser None "workflow_1" None
           [four_steps] four_steps "no tab").
  reflexivity.
Defined.

Lemma send_received (browser : Browser) (call : PageCall) (page : Page.t) :
  match send browser call page with
  | Returned page' | Thrown _ page' => Page.received page' = Page.received page ++ [call]
  end.
Proof. unfold send. destruct (browser page call); reflexivity. Qed.

Lemma executeStep_received (browser : Browser) (page : Page.t) (step : WorkflowStep.t)
    (resumeData : option ResumeData.t) :
  match executeStep browser page step resumeData with
  | Returned page' | Thrown _ page' =>
      exists sent, Page.received page' = Page.received page ++ sent
                   /\ (List.length sent <= 1)%nat
  end.
Proof.
  assert (Hsend : forall call,
             match send browser call page with
             | Returned page' | Thrown _ page' =>
                 exists sent, Page.received page' = Page.received page ++ sent
                              /\ (List.length sent <= 1)%nat
             end).
  { intros call. pose proof (send_received browser call page) as H.
    destruct (send browser call page); exists [call]; split; try exact H; simpl; lia. }
  assert (Hnone : exists sent, Page.received page = Page.received page ++ sent
                               /\ (List.length sent <= 1)%nat).
  { exists []. rewrite app_nil_r. split; [reflexivity | simpl; lia]. }
  unfold executeStep, fillField, clickElement, selectOption, pressKey, navigate_to.
  destruct (WorkflowStep.action step);
    repeat match goal with
           | |- context [match findElement ?p ?e with _ => _ end] =>
               destruct (findElement p e)
           | |- context [if ?b then _ else _] => destruct b
           end;
    first [exact Hnone | apply Hsend].
Qed.

Lemma run_steps_accounts (browser : Browser) (steps : list WorkflowStep.t)
    (resumeData : option ResumeData.t) :
  forall (n : nat) (page : Page.t),
    (n <= fst (run_steps browser steps resumeData n page) <= n + List.length steps)%nat
    /\ exists sent,
        Page.received (snd (run_steps browser steps resumeData n page))
        = Page.received page ++ sent
        /\ (List.length sent <= List.length steps)%nat.
Proof.
  induction steps as [|step rest IH]; intros n page; simpl.
  - split; [lia|]. exists []. rewrite app_nil_r. split; [reflexivity | simpl; lia].
  - pose proof (executeStep_received browser page step resumeData) as Hstep.
    destruct (executeStep browser page step resumeData) as [page'|message page'];
      destruct Hstep as [sent [Hsent Hlen]].
    + destruct (IH (S n) page') as [Hcount [sent' [Hsent' Hlen']]].
      split; [lia|]. exists (sent ++ sent').
      rewrite Hsent', Hsent, app_assoc, length_app. split; [reflexivity | lia].
    + destruct (IH n page') as [Hcount [sent' [Hsent' Hlen']]].
      split; [lia|]. exists (sent ++ sent').
      rewrite Hsent', Hsent, app_assoc, length_app. split; [reflexivity | lia].
Qed.

Lemma updateWorkflowStats_ids (workflowId : string) (success : bool) (workflows : Storage) :
  map SavedWorkflow.id (updateWorkflowStats workflowId success workflows)
  = map SavedWorkflow.id workflows.
Proof.
  induction workflows as [|w rest IH]; simpl; [reflexivity|].
  destruct (String.eqb (SavedWorkflow.id w) workflowId); simpl; [reflexivity|].
  rewrite IH. reflexivity.
Qed.

Lemma updateWorkflowStats_others (workflowId : string) (success : bool)
    (workflows : Storage) (other : SavedWorkflow.t) :
  SavedWorkflow.id other <> workflowId ->
  (In other (updateWorkflowStats workflowId success workflows) <-> In other workflows).
Proof.
  intros Hother. induction workflows as [|w rest IH]; simpl; [tauto|].
  destruct (String.eqb (SavedWorkflow.id w) workflowId) eqn:Hid; simpl.
  - apply String.eqb_eq in Hid. split; intros [Heq|Hin]; try tauto.
    + subst other. simpl in Hother. contradiction.
    + subst other. contradiction.
  - rewrite IH. tauto.
Qed.

(** X19.  A replay of a stored workflow on a reachable page.  It reports
    at most as many executed steps as the workflow has, and success exactly
    when at least one step was executed.  The page receives at most one
    command per step, after the commands it had received before.  In the
    stored list the ids stay as they are, the first workflow with the id
    gets its usage count raised by one (its steps untouched), and every
    workflow with another id is as it was. *)
Theorem replay_accounting
    (browser : Browser) (resume : option ResumeData.t) (workflowId : string)
    (options : option Options.t) (storage : Storage) (workflow : SavedWorkflow.t)
    (page : Page.t)
    (Hfound : find_workflow workflowId storage = Some workflow) :
  let run := executeWorkflow browser resume workflowId options storage (Reached page) in
  let result := fst (fst run) in
  let storage' := snd (fst run) in
  (ExecResult.executedSteps result <= List.length (SavedWorkflow.steps workflow))%nat
  /\ ExecResult.success result = (0 <? ExecResult.executedSteps result)%nat
  /\ (exists page' sent,
        snd run = Reached page'
        /\ Page.received page' = Page.received page ++ sent
        /\ (List.length sent <= List.length (SavedWorkflow.steps workflow))%nat)
  /\ map SavedWorkflow.id storage' = map SavedWorkflow.id storage
  /\ (exists workflow',
        find_workflow workflowId storage' = Some workflow'
        /\ SavedWorkflow.usageCount workflow' = SavedWorkflow.usageCount workflow + 1
        /\ SavedWorkflow.steps workflow' = SavedWorkflow.steps workflow)
  /\ (forall other, SavedWorkflow.id other <> workflowId ->
                    (In other storage' <-> In other storage)).
Proof.
  cbv zeta. unfold executeWorkflow, WorkflowRecorder.getSavedWorkflows. rewrite Hfound.
  pose proof (run_steps_accounts browser (SavedWorkflow.steps workflow)
                (chosen_resume options resume) 0 page) as [Hcount [sent [Hsent Hlen]]].
  destruct (run_steps browser (SavedWorkflow.steps workflow)
              (chosen_resume options resume) 0 page) as [executed page'] eqn:Hrun.
  cbn [fst snd] in *. cbn [ExecResult.executedSteps ExecResult.success].
  split; [lia|]. split; [reflexivity|].
  split; [exists page', sent; auto|].
  split; [apply updateWorkflowStats_ids|].
  split.
  - eexists. split; [apply updateWorkflowStats_found; exact Hfound|].
    split; reflexivity.
  - intros other Hother. apply updateWorkflowStats_others. exact Hother.
Qed.

Lemma replay_accounting_witness :
  ExecResult.success
    (fst (fst (executeWorkflow steady_browser None "workflow_1" None [four_steps]
                 (Reached form_page))))
  = true.
Proof.
  pose proof (replay_accounting steady_browser None "workflow_1" None [four_steps]
                four_steps form_page eq_refl) as H.
  cbv zeta in H. rewrite (proj1 (proj2 H)). reflexivity.
Defined.



(** *** Resolving an element *)

Lemma find_in_blank (elementData : RecordedElement.t) (entries : list (Z * DOMElement.t)) :
  RecordedElement.id elementData = "" ->
  RecordedElement.name elementData = "" ->
  RecordedElement.textContent elementData = "" ->
  find_in elementData entries = None.
Proof.
  intros Hid Hname Htext. induction entries as [|[index element] rest IH]; simpl.
  - reflexivity.
  - rewrite Hid, Hname, Htext. simpl. exact IH.
Qed.

(** X20.  What [findElement] returns is an element of the snapshot that
    passes one of the three tests.  A fingerprint without id, name and text
    resolves to nothing on every page; a fingerprint whose id is carried
    by an element of the snapshot always resolves to something. *)
Theorem resolution_stays_within_snapshot (page : Page.t) (recorded : RecordedElement.t) :
  (forall element,
      findElement page recorded = Some element ->
      exists entries index,
        Page.selectorMap page = Some entries
        /\ In (index, element) entries
        /\ matches_any_rule recorded element = true)
  /\ (RecordedElement.id recorded = "" -> RecordedElement.name recorded = "" ->
      RecordedElement.textContent recorded = "" ->
      findElement page recorded = None)
  /\ (forall entries index element,
        Page.selectorMap page = Some entries ->
        In (index, element) entries ->
        RecordedElement.id recorded <> "" ->
        DOMElement.attr_id element = Some (RecordedElement.id recorded) ->
        findElement page recorded <> None).
Proof.
  unfold findElement. split; [|split].
  - intros element Hfound. destruct (Page.selectorMap page) as [entries|]; [|discriminate].
    rewrite find_in_first_match in Hfound. apply find_some in Hfound.
    destruct Hfound as [Hin Hmatch]. apply in_map_iff in Hin.
    destruct Hin as [[index element'] [Heq Hin]]. simpl in Heq. subst element'.
    exists entries, index. auto.
  - intros Hid Hname Htext. destruct (Page.selectorMap page); [|reflexivity].
    apply find_in_blank; assumption.
  - intros entries index element Hmap Hin Hid Hattr. rewrite Hmap, find_in_first_match.
    intros Hnone.
    pose proof (find_none _ _ Hnone element) as Hno.
    assert (Hmatch : matches_any_rule recorded element = true).
    { unfold matches_any_rule, Js.same. rewrite Hattr, String.eqb_refl.
      apply String.eqb_neq in Hid. rewrite Hid. reflexivity. }
    rewrite Hno in Hmatch; [discriminate|].
    apply in_map_iff. exists (index, element). auto.
Qed.

Lemma resolution_stays_within_snapshot_witness :
  findElement page_with_newsletter (fingerprint "input" "email" "" "") <> None.
Proof.
  apply (proj2 (proj2 (resolution_stays_within_snapshot page_with_newsletter
                         (fingerprint "input" "email" "" "")))
           [(0, newsletter_input); (1, application_email_input)] 1
           application_email_input eq_refl).
  - right. left. reflexivity.
  - discriminate.
  - reflexivity.
Defined.

(** *** Profile data in a replayed field *)

(** The value recorded with a step, as [fillField] reads it. *)
Definition recorded_value (step : WorkflowStep.t) : string :=
  Js.show (Js.or (field ActionData.value (WorkflowStep.data step)) (Some "")).

(** X21.  Replaying a [fill_field] step with profile data.  When the name,
    id or placeholder of the recorded element mentions [email] and the
    profile has an e-mail address, that address is typed instead of the
    recorded value.  When the element is taken for a profile field only
    because it mentions [name], with none of [email], [phone], [first],
    [fname], [last], [lname], the recorded value is typed. *)
Theorem profile_email_replaces_recorded_value
    (browser : Browser) (page : Page.t) (step : WorkflowStep.t) (rd : ResumeData.t)
    (element : DOMElement.t)
    (Hfound : findElement page (WorkflowStep.element step) = Some element) :
  (forall c s,
      JsString.includes (identifiers (WorkflowStep.element step)) "email" = true ->
      ResumeData.email rd = Some (String c s) ->
      fillField browser page step (Some rd)
      = send browser (inputTextElementNode element (String c s)) page)
  /\ (JsString.includes (identifiers (WorkflowStep.element step)) "email" = false ->
      JsString.includes (identifiers (WorkflowStep.element step)) "phone" = false ->
      JsString.includes (identifiers (WorkflowStep.element step)) "first" = false ->
      JsString.includes (identifiers (WorkflowStep.element step)) "fname" = false ->
      JsString.includes (identifiers (WorkflowStep.element step)) "last" = false ->
      JsString.includes (identifiers (WorkflowStep.element step)) "lname" = false ->
      fillField browser page step (Some rd)
      = send browser (inputTextElementNode element (recorded_value step)) page).
Proof.
  unfold fillField, recorded_value. rewrite Hfound. split.
  - intros c s Hemail Hvalue.
    unfold isResumeField, getResumeFieldValue. cbn [existsb].
    rewrite Hemail, Hvalue. reflexivity.
  - intros Hemail Hphone Hfirst Hfname Hlast Hlname.
    unfold getResumeFieldValue.
    rewrite Hemail, Hphone, Hfirst, Hfname, Hlast, Hlname. cbn [orb].
    destruct (isResumeField (WorkflowStep.element step)); reflexivity.
Qed.

Lemma profile_email_replaces_recorded_value_witness :
  fillField steady_browser form_page step_fill_email
    (Some (ResumeData.mk (Some "me@home.example") None None None))
  = send steady_browser (inputTextElementNode email_input "me@home.example") form_page.
Proof.
  apply (proj1 (profile_email_replaces_recorded_value steady_browser form_page
                  step_fill_email (ResumeData.mk (Some "me@home.example") None None None)
                  email_input eq_refl));
    reflexivity.
Defined.

End WorkflowExecutor.

(* ================================================================== *)
(** ** WorkflowSaver: the workflow patterns kept from agent runs      *)
(* ================================================================== *)

Module WorkflowSaver.

Local Open Scope Z_scope.

Module PatternStep.
Record t := mk {
  action : string;
  parameters : list (string * string);
  description : string;
  isAIRequired : bool;
  fallbackAction : option string
}.
End PatternStep.

Module WorkflowPattern.
Record t := mk {
  id : string;
  name : string;
  platform : string;
  applicationType : string;
  steps : list PatternStep.t;
  successRate : Q;
  averageTime : Z;
  createdAt : string;
  lastUsed : string;
  usageCount : Z
}.
End WorkflowPattern.

(** The document stored under [jobhuntllm_workflows]. *)
Definition Patterns := list WorkflowPattern.t.

Definition loadWorkflows (stored : Patterns) : Patterns := stored.

(** [saveWorkflow]: the first stored pattern with the id is replaced, and
    a pattern with a new id goes last. *)
Fixpoint saveWorkflow (workflow : WorkflowPattern.t) (workflows : Patterns) : Patterns :=
  match workflows with
  | [] => [workflow]
  | w :: rest =>
      if String.eqb (WorkflowPattern.id w) (WorkflowPattern.id workflow)
      then workflow :: rest
      else w :: saveWorkflow workflow rest
  end.

(** [updateWorkflowStats(workflowId, success)]; [today] is the text of
    [new Date().toISOString()]. *)
Definition updateWorkflowStats (workflowId : string) (success : bool) (today : string)
    (stored : Patterns) : Patterns :=
  match find (fun w => String.eqb (WorkflowPattern.id w) workflowId)
             (loadWorkflows stored) with
  | None => stored
  | Some workflow =>
      saveWorkflow
        {| WorkflowPattern.id := WorkflowPattern.id workflow;
           WorkflowPattern.name := WorkflowPattern.name workflow;
           WorkflowPattern.platform := WorkflowPattern.platform workflow;
           WorkflowPattern.applicationType := WorkflowPattern.applicationType workflow;
           WorkflowPattern.steps := WorkflowPattern.steps workflow;
           WorkflowPattern.successRate :=
             ((WorkflowPattern.successRate workflow + (if success then 1 else 0)) / 2)%Q;
           WorkflowPattern.averageTime := WorkflowPattern.averageTime workflow;
           WorkflowPattern.createdAt := WorkflowPattern.createdAt workflow;
           WorkflowPattern.lastUsed := today;
           WorkflowPattern.usageCount := WorkflowPattern.usageCount workflow + 1 |}
        stored
  end.

(** A pattern as [saveWorkflowFromHistory] creates it: used once, success
    rate 1. *)
Definition created_pattern : WorkflowPattern.t :=
  {| WorkflowPattern.id := "linkedin_easy_apply_1";
     WorkflowPattern.name := "linkedin easy_apply - Auto Generated";
     WorkflowPattern.platform := "linkedin";
     WorkflowPattern.applicationType := "easy_apply";
     WorkflowPattern.steps := [];
     WorkflowPattern.successRate := 1%Q;
     WorkflowPattern.averageTime := 0;
     WorkflowPattern.createdAt := "2024-01-01T00:00:00.000Z";
     WorkflowPattern.lastUsed := "2024-01-01T00:00:00.000Z";
     WorkflowPattern.usageCount := 1 |}.

(** The statistics of the stored patterns, to read them off. *)
Definition statistics (stored : Patterns) : list (Z * Q) :=
  map (fun w => (WorkflowPattern.usageCount w, Qred (WorkflowPattern.successRate w))) stored.

(** The success rate the incremental average gives, from the rate and
    the usage count before the run. *)
Definition incremental_average (rate : Q) (usageCount : Z) (success : bool) : Q :=
  ((rate * inject_Z (usageCount + 1 - 1) + (if success then 1 else 0))
   / inject_Z (usageCount + 1))%Q.

(** C2, evaluated on the patterns kept from agent runs.  A pattern is
    created (used once, rate 1), then run once without and once with
    success.  After the first run the stored rate is 1/2 with usage count
    2, as the incremental average has it.  After the second run the usage
    count is 3 and the stored rate is 3/4, whereas the incremental average
    of the claim, which the replay of recorded workflows computes, is
    2/3. *)
Theorem pattern_rate_is_halved_sum :
  let once :=
    updateWorkflowStats "linkedin_easy_apply_1" false "2024-01-02T00:00:00.000Z"
      [created_pattern] in
  let twice :=
    updateWorkflowStats "linkedin_easy_apply_1" true "2024-01-03T00:00:00.000Z" once in
  statistics once = [(2, 1 # 2)]
  /\ statistics twice = [(3, 3 # 4)]
  /\ Qred (incremental_average 1 1 false) = 1 # 2
  /\ Qred (incremental_average (1 # 2) 2 true) = 2 # 3
  /\ ~ (3 # 4 == incremental_average (1 # 2) 2 true)%Q
  /\ (forall w : SavedWorkflow.t,
        SavedWorkflow.successRate w = 1 # 2 -> SavedWorkflow.usageCount w = 2 ->
        (SavedWorkflow.successRate (WorkflowExecutor.bump true w)
         == incremental_average (1 # 2) 2 true)%Q).
Proof.
  cbv zeta.
  split; [vm_compute; reflexivity|]. split; [vm_compute; reflexivity|].
  split; [vm_compute; reflexivity|]. split; [vm_compute; reflexivity|].
  split.
  - vm_compute. discriminate.
  - intros w Hrate Hcount. unfold incremental_average. simpl.
    rewrite Hrate, Hcount. reflexivity.
Qed.

(* ------------------------------------------------------------------ *)
(** *** Saving patterns, and which steps need the model                *)
(* ------------------------------------------------------------------ *)

Definition find_pattern (workflowId : string) (stored : Patterns)
    : option WorkflowPattern.t :=
  find (fun w => String.eqb (WorkflowPattern.id w) workflowId) stored.

(** [getSimplerAlternative], for the keys the table itself has (what an
    object inherits, like [constructor], is no name of an action). *)
Definition getSimplerAlternative (actionName : string) : option string :=
  if String.eqb actionName "auto_fill_job_application" then Some "fill_known_fields"
  else if String.eqb actionName "generate_cover_letter" then Some "use_template_cover_letter"
  else if String.eqb actionName "handle_job_questions" then Some "use_standard_answers"
  else if String.eqb actionName "detect_job_application_form" then Some "use_common_patterns"
  else None.

(** [determineIfAIRequired] *)
Definition determineIfAIRequired (actionName : string) : bool :=
  existsb (String.eqb actionName)
    ["generate_cover_letter"; "handle_job_questions"; "detect_job_application_form"].

(** The branch the loop of [executeWorkflow] takes for a step. *)
Inductive Route :=
| RunFallback (action : string)
| RunSimple (action : string)
| RunWithAI (action : string)
| Skip.

Definition route (useAI : bool) (step : PatternStep.t) : Route :=
  if PatternStep.isAIRequired step && negb useAI
     && Js.truthy (PatternStep.fallbackAction step)
  then RunFallback (Js.show (PatternStep.fallbackAction step))
  else if negb (PatternStep.isAIRequired step) then RunSimple (PatternStep.action step)
  else if useAI then RunWithAI (PatternStep.action step)
  else Skip.

(** The step [convertActionToWorkflowStep] builds once the name of the
    action is known. *)
Definition step_of_action (actionName : string) (parameters : list (string * string))
    (description : string) : PatternStep.t :=
  {| PatternStep.action := actionName;
     PatternStep.parameters := parameters;
     PatternStep.description := description;
     PatternStep.isAIRequired := determineIfAIRequired actionName;
     PatternStep.fallbackAction := getSimplerAlternative actionName |}.

(** *** Upsert *)

Lemma saveWorkflow_found (workflow : WorkflowPattern.t) (stored : Patterns) :
  find_pattern (WorkflowPattern.id workflow) (saveWorkflow workflow stored) = Some workflow.
Proof.
  unfold find_pattern. induction stored as [|w rest IH]; simpl.
  - rewrite String.eqb_refl. reflexivity.
  - destruct (String.eqb (WorkflowPattern.id w) (WorkflowPattern.id workflow)) eqn:Hid;
      simpl.
    + rewrite String.eqb_refl. reflexivity.
    + rewrite Hid. exact IH.
Qed.

Lemma saveWorkflow_other (workflow : WorkflowPattern.t) (stored : Patterns) (k : string) :
  k <> WorkflowPattern.id workflow ->
  find_pattern k (saveWorkflow workflow stored) = find_pattern k stored.
Proof.
  intros Hne. unfold find_pattern. induction stored as [|w rest IH]; simpl.
  - assert (Hf : String.eqb (WorkflowPattern.id workflow) k = false)
      by (apply String.eqb_neq; congruence).
    rewrite Hf. reflexivity.
  - destruct (String.eqb (WorkflowPattern.id w) (WorkflowPattern.id workflow)) eqn:Hid;
      simpl.
    + apply String.eqb_eq in Hid.
      assert (Hf : String.eqb (WorkflowPattern.id workflow) k = false)
        by (apply String.eqb_neq; congruence).
      rewrite Hid, Hf. reflexivity.
    + destruct (String.eqb (WorkflowPattern.id w) k); [reflexivity | exact IH].
Qed.

Lemma saveWorkflow_length (workflow : WorkflowPattern.t) (stored : Patterns) :
  List.length (saveWorkflow workflow stored)
  = match find_pattern (WorkflowPattern.id workflow) stored with
    | Some _ => List.length stored
    | None => S (List.length stored)
    end.
Proof.
  unfold find_pattern. induction stored as [|w rest IH]; simpl; [reflexivity|].
  destruct (String.eqb (WorkflowPattern.id w) (WorkflowPattern.id workflow)); simpl.
  - reflexivity.
  - rewrite IH. destruct (find _ rest); reflexivity.
Qed.

(** X22.  [saveWorkflow] is an upsert by id: afterwards the id looks up
    the workflow saved, every other id looks up what it did before, and
    the list has grown by one exactly when the id was new. *)
Theorem save_is_an_upsert (workflow : WorkflowPattern.t) (stored : Patterns) :
  find_pattern (WorkflowPattern.id workflow) (saveWorkflow workflow stored) = Some workflow
  /\ (forall k, k <> WorkflowPattern.id workflow ->
        find_pattern k (saveWorkflow workflow stored) = find_pattern k stored)
  /\ List.length (saveWorkflow workflow stored)
     = match find_pattern (WorkflowPattern.id workflow) stored with
       | Some _ => List.length stored
       | None => S (List.length stored)
       end.
Proof.
  split; [apply saveWorkflow_found|]. split; [|apply saveWorkflow_length].
  intros k Hk. apply saveWorkflow_other. exact Hk.
Qed.

(** *** The statistics of a pattern *)

(** X23.  After a run of a stored pattern its usage count is one higher,
    [lastUsed] is the date of the run and the other patterns are as they
    were.  A success rate within [0, 1] stays there, and the last run alone
    decides on which side of 1/2 it lies: at least 1/2 after a success, at
    most 1/2 after a failure. *)
Theorem pattern_rate_follows_last_run
    (workflowId : string) (success : bool) (today : string) (stored : Patterns)
    (workflow : WorkflowPattern.t)
    (Hfound : find_pattern workflowId stored = Some workflow)
    (Hrate : (0 <= WorkflowPattern.successRate workflow <= 1)%Q) :
  let stored' := updateWorkflowStats workflowId success today stored in
  List.length stored' = List.length stored
  /\ (forall k, k <> workflowId -> find_pattern k stored' = find_pattern k stored)
  /\ exists workflow',
      find_pattern workflowId stored' = Some workflow'
      /\ WorkflowPattern.usageCount workflow' = WorkflowPattern.usageCount workflow + 1
      /\ WorkflowPattern.lastUsed workflow' = today
      /\ WorkflowPattern.steps workflow' = WorkflowPattern.steps workflow
      /\ (0 <= WorkflowPattern.successRate workflow' <= 1)%Q
      /\ (if success then (1 # 2 <= WorkflowPattern.successRate workflow')%Q
          else (WorkflowPattern.successRate workflow' <= 1 # 2)%Q).
Proof.
  cbv zeta. unfold updateWorkflowStats, loadWorkflows.
  fold (find_pattern workflowId stored). rewrite Hfound.
  assert (Hid : WorkflowPattern.id workflow = workflowId).
  { unfold find_pattern in Hfound. apply find_some in Hfound.
    apply String.eqb_eq. tauto. }
  match goal with |- context [saveWorkflow ?w stored] => set (updated := w) end.
  assert (Hid' : WorkflowPattern.id updated = workflowId) by exact Hid.
  split.
  - rewrite saveWorkflow_length, Hid', Hfound. reflexivity.
  - split.
    + intros k Hk. apply saveWorkflow_other. rewrite Hid'. exact Hk.
    + exists updated. rewrite <- Hid' at 1. split; [apply saveWorkflow_found|].
      subst updated. cbn [WorkflowPattern.usageCount WorkflowPattern.lastUsed
                          WorkflowPattern.steps WorkflowPattern.successRate].
      split; [reflexivity|]. split; [reflexivity|]. split; [reflexivity|].
      destruct Hrate as [Hlo Hhi].
      set (rate := WorkflowPattern.successRate workflow) in *.
      destruct success.
      * assert (H1 : (1 # 2 <= (rate + 1) / 2)%Q).
        { apply Qle_shift_div_l; [reflexivity|].
          setoid_replace ((1 # 2) * 2)%Q with (0 + 1)%Q by reflexivity.
          apply Qplus_le_l. exact Hlo. }
        assert (H2 : ((rate + 1) / 2 <= 1)%Q).
        { apply Qle_shift_div_r; [reflexivity|].
          setoid_replace (1 * 2)%Q with (1 + 1)%Q by reflexivity.
          apply Qplus_le_l. exact Hhi. }
        split; [split; [|exact H2] | exact H1].
        apply (Qle_trans _ (1 # 2)); [discriminate | exact H1].
      * assert (H1 : (0 <= (rate + 0) / 2)%Q).
        { apply Qle_shift_div_l; [reflexivity|].
          rewrite Qmult_0_l, Qplus_0_r. exact Hlo. }
        assert (H2 : ((rate + 0) / 2 <= 1 # 2)%Q).
        { apply Qle_shift_div_r; [reflexivity|].
          setoid_replace ((1 # 2) * 2)%Q with 1%Q by reflexivity.
          rewrite Qplus_0_r. exact Hhi. }
        split; [split; [exact H1|] | exact H2].
        apply (Qle_trans _ (1 # 2)); [exact H2 | discriminate].
Qed.

Lemma pattern_rate_follows_last_run_witness :
  List.length (updateWorkflowStats "linkedin_easy_apply_1" false "2024-01-02T00:00:00.000Z"
                 [created_pattern])
  = 1%nat.
Proof.
  pose proof (pattern_rate_follows_last_run "linkedin_easy_apply_1" false
                "2024-01-02T00:00:00.000Z" [created_pattern] created_pattern eq_refl) as H.
  cbv zeta in H. apply H. split; discriminate.
Defined.

(** *** Steps that need the model *)

(** X24.  Every action that [determineIfAIRequired] marks has a simpler
    alternative; so a step that [convertActionToWorkflowStep] builds is
    never skipped: with the model switched off it runs its alternative, if
    marked, and itself otherwise. *)
Theorem converted_steps_are_never_skipped
    (actionName : string) (parameters : list (string * string)) (description : string)
    (useAI : bool) :
  (determineIfAIRequired actionName = true -> getSimplerAlternative actionName <> None)
  /\ route useAI (step_of_action actionName parameters description) <> Skip
  /\ (determineIfAIRequired actionName = false ->
      route useAI (step_of_action actionName parameters description)
      = RunSimple actionName).
Proof.
  unfold route, step_of_action, determineIfAIRequired, getSimplerAlternative.
  cbn [PatternStep.isAIRequired PatternStep.fallbackAction PatternStep.action existsb].
  destruct (String.eqb actionName "generate_cover_letter") eqn:H1.
  - apply String.eqb_eq in H1. subst actionName. destruct useAI; repeat split; discriminate.
  - destruct (String.eqb actionName "handle_job_questions") eqn:H2.
    + apply String.eqb_eq in H2. subst actionName.
      destruct useAI; repeat split; discriminate.
    + destruct (String.eqb actionName "detect_job_application_form") eqn:H3.
      * apply String.eqb_eq in H3. subst actionName.
        destruct useAI; repeat split; discriminate.
      * cbn [orb andb negb]. repeat split; discriminate.
Qed.

End WorkflowSaver.

(* ================================================================== *)
(** ** The [stop_recording] action                                    *)
(* ================================================================== *)

Module UltraFastActions.

Local Open Scope Z_scope.

Module Input.
Record t := mk {
  intent : option string;
  workflow_name : option string
}.
End Input.

Module Metadata.
Record t := mk {
  workflowId : string;
  workflowName : string;
  stepCount : nat;
  platform : string;
  duration : Z;
  instructions : string
}.
End Metadata.

Module ActionResult.
Record t := mk {
  success : bool;
  message : string;
  screenshot : string;
  metadata : option Metadata.t
}.
End ActionResult.

(** The promise of the action resolves with a result or is rejected. *)
Inductive ActionOutcome :=
| Resolved (result : ActionResult.t)
| Rejected (message : string).

Definition double_quote : string := String (ascii_of_nat 34) EmptyString.

(** The handler [createStopRecordingAction] installs; [now] and [today]
    are the clock and the date text [stopRecording] reads.  (The messages
    are the source's without their leading emoji.) *)
Definition stop_recording (now : Z) (today : string) (input : Input.t)
    (access : PageAccess) (stored : Storage)
    : ActionOutcome * PageAccess * Storage :=
  let recorder := WorkflowRecorder.new in
  let (result, world) :=
    WorkflowRecorder.stopRecording now today (Input.workflow_name input)
      {| WorkflowRecorder.recorder := recorder;
         WorkflowRecorder.browser := access;
         WorkflowRecorder.stored := stored |} in
  let outcome :=
    match WorkflowRecorder.browser world with
    | Unreachable message => Rejected message
    | Reached page =>
        match WorkflowRecorder.StopResult.success result,
              WorkflowRecorder.StopResult.workflow result with
        | true, Some workflow =>
            Resolved
              {| ActionResult.success := true;
                 ActionResult.message :=
                   ("Workflow recorded! " ++ double_quote ++ SavedWorkflow.name workflow
                    ++ double_quote ++ " saved with "
                    ++ Js.show_nat (SavedWorkflow.optimizedActionCount workflow)
                    ++ " steps. Now I can apply to similar jobs instantly!")%string;
                 ActionResult.screenshot := Page.screenshot page;
                 ActionResult.metadata :=
                   Some {| Metadata.workflowId := SavedWorkflow.id workflow;
                           Metadata.workflowName := SavedWorkflow.name workflow;
                           Metadata.stepCount := SavedWorkflow.optimizedActionCount workflow;
                           Metadata.platform := SavedWorkflow.platform workflow;
                           Metadata.duration := SavedWorkflow.duration workflow;
                           Metadata.instructions :=
                             ("Use " ++ double_quote ++ "execute workflow "
                              ++ SavedWorkflow.id workflow ++ double_quote
                              ++ " to replay this workflow on other job applications.")%string
                        |} |}
        | _, _ =>
            Resolved
              {| ActionResult.success := false;
                 ActionResult.message := "No recording found or recording was empty";
                 ActionResult.screenshot := Page.screenshot page;
                 ActionResult.metadata := None |}
        end
    end in
  (outcome, WorkflowRecorder.browser world, WorkflowRecorder.stored world).

(** A page on which a recording is going on, with two captured actions. *)
Definition captured (at_ : Z) (text : string) : RecordedAction.t :=
  RecordedAction.mk at_ input (WorkflowExecutor.fingerprint "input" "email" "email" "")
    (WorkflowExecutor.typed text) "https://www.linkedin.com/jobs".

Definition recording_page : Page.t :=
  {| Page.selectorMap := Some [(0, WorkflowExecutor.email_input)];
     Page.workflowRecording :=
       Some {| PageRecording.id := "workflow_1700000000000";
               PageRecording.actions := [captured 1700000001000 "a";
                                         captured 1700000002000 "a@b.example"];
               PageRecording.isRecording := true |};
     Page.screenshot := "png";
     Page.received := [] |}.

(** C10.  On a recorder that is not recording, [stopRecording] returns
    [success: false] and leaves the recorder, the page (whose recording is
    not read and keeps running) and the stored workflows as they are.  The
    [stop_recording] action calls it on a recorder it has just made, which
    is not recording: whatever the page has captured, the action answers
    without success (or is rejected, when the page cannot be reached) and
    the stored workflows are the ones from before. *)
Theorem stop_without_recording_saves_nothing
    (now : Z) (today : string) (workflowName : option string)
    (w : WorkflowRecorder.World)
    (Hidle : WorkflowRecorder.isRecording (WorkflowRecorder.recorder w) = false) :
  WorkflowRecorder.stopRecording now today workflowName w
  = ({| WorkflowRecorder.StopResult.success := false;
        WorkflowRecorder.StopResult.workflow := None |}, w)
  /\ WorkflowRecorder.isRecording WorkflowRecorder.new = false
  /\ (forall input access stored,
        stop_recording now today input access stored
        = (match access with
           | Reached page =>
               Resolved {| ActionResult.success := false;
                           ActionResult.message :=
                             "No recording found or recording was empty";
                           ActionResult.screenshot := Page.screenshot page;
                           ActionResult.metadata := None |}
           | Unreachable message => Rejected message
           end, access, stored)).
Proof.
  split; [|split].
  - unfold WorkflowRecorder.stopRecording. rewrite Hidle. reflexivity.
  - reflexivity.
  - intros input access stored. unfold stop_recording. simpl.
    destruct access; reflexivity.
Qed.

Lemma stop_without_recording_saves_nothing_witness :
  WorkflowRecorder.stopRecording 1700000003000 "1/1/2024" (Some "Apply")
    {| WorkflowRecorder.recorder := WorkflowRecorder.new;
       WorkflowRecorder.browser := Reached recording_page;
       WorkflowRecorder.stored := [] |}
  = ({| WorkflowRecorder.StopResult.success := false;
        WorkflowRecorder.StopResult.workflow := None |},
     {| WorkflowRecorder.recorder := WorkflowRecorder.new;
        WorkflowRecorder.browser := Reached recording_page;
        WorkflowRecorder.stored := [] |}).
Proof.
  apply (proj1 (stop_without_recording_saves_nothing 1700000003000 "1/1/2024"
                  (Some "Apply")
                  {| WorkflowRecorder.recorder := WorkflowRecorder.new;
                     WorkflowRecorder.browser := Reached recording_page;
                     WorkflowRecorder.stored := [] |} eq_refl)).
Defined.

End UltraFastActions.

(* ================================================================== *)
(** ** DynamicFormObserver                                            *)
(* ================================================================== *)

Module DynamicFormObserver.

Local Open Scope Z_scope.

(** What the page script reports for a new or changed form element: the
    texts as the page has them, with any code unit. *)
Module ElementData.
Record t := mk {
  tagName : JsString.Units;
  type : JsString.Units;
  name : JsString.Units;
  id : JsString.Units;
  placeholder : JsString.Units;
  textContent : JsString.Units;
  className : JsString.Units;
  required : bool
}.

(** An element whose texts have no code unit above U+00FF. *)
Definition of_strings (tagName type name id placeholder textContent className : string)
    (required : bool) : t :=
  mk (JsString.widen tagName) (JsString.widen type) (JsString.widen name)
    (JsString.widen id) (JsString.widen placeholder) (JsString.widen textContent)
    (JsString.widen className) required.
End ElementData.

(** The categories [categorizeField] sorts fields into. *)
Inductive Category := standard | experience | education | salary | essay.

Definition Category_eqb (a b : Category) : bool :=
  match a, b with
  | standard, standard | experience, experience | education, education
  | salary, salary | essay, essay => true
  | _, _ => false
  end.

(** A field as [extractFormFields] builds it.  Its [text] has no code unit
    above U+00FF: a field is only built when [generateFieldHash] has encoded
    the text of its element. *)
Module FormField.
Record t := mk {
  id : JsString.Units;
  type : Category;
  element : ElementData.t;
  text : string;
  hash : string;
  isQuestion : bool;
  priority : Z
}.
End FormField.

(** [categorizeField], given [data.textContent] and [data.placeholder] as
    strings without code units above U+00FF (the category is kept only for
    elements whose texts [generateFieldHash] can encode). *)
Definition categorizeField (textContent placeholder : string) : Category :=
  let text := JsString.toLowerCase (textContent ++ " " ++ placeholder)%string in
  if JsString.includes text "experience" || JsString.includes text "years" then experience
  else if JsString.includes text "degree" || JsString.includes text "education"
  then education
  else if JsString.includes text "salary" || JsString.includes text "compensation"
  then salary
  else if JsString.includes text "why" || JsString.includes text "tell us" then essay
  else standard.

Definition isQuestionField (data : ElementData.t) : bool :=
  JsString.units_eqb (ElementData.tagName data) (JsString.widen "TEXTAREA")
  || (JsString.units_eqb (ElementData.tagName data) (JsString.widen "INPUT")
      && existsb (JsString.units_eqb (ElementData.type data))
           [JsString.widen "text"; JsString.widen "email"; JsString.widen "tel"])
  || JsString.units_eqb (ElementData.tagName data) (JsString.widen "SELECT").

(** The text [generateFieldHash] encodes. *)
Definition field_content (data : ElementData.t) : JsString.Units :=
  ElementData.tagName data ++ JsString.widen "_" ++ ElementData.type data
  ++ JsString.widen "_" ++ ElementData.name data ++ JsString.widen "_"
  ++ ElementData.placeholder data ++ JsString.widen "_" ++ ElementData.textContent data.

(** [generateFieldHash]; [None] when [btoa] throws. *)
Definition generateFieldHash (data : ElementData.t) : option string :=
  option_map (JsString.take 16) (JsString.btoa_units (field_content data)).

Definition calculateFieldPriority (data : ElementData.t) : Z :=
  let priority := 1 in
  let priority := if ElementData.required data then priority + 2 else priority in
  if JsString.units_eqb (ElementData.tagName data) (JsString.widen "TEXTAREA")
  then priority + 1 else priority.

(** [fields.sort((a, b) => b.priority - a.priority)]: [a] stays before [b]
    unless the comparator is positive; the sort is stable. *)
Fixpoint insert_by_priority (a : FormField.t) (l : list FormField.t) : list FormField.t :=
  match l with
  | [] => [a]
  | b :: l' =>
      if FormField.priority b - FormField.priority a <=? 0
      then a :: l
      else b :: insert_by_priority a l'
  end.

Definition sort_by_priority (l : list FormField.t) : list FormField.t :=
  fold_right insert_by_priority [] l.

(** The field [extractFormFields] builds for one element at clock [now]
    (the loop reads the clock for each element without waiting in between;
    one value stands for these reads).  [None] stands for the error
    [generateFieldHash] throws; the hash encodes the text and the
    placeholder, so that both are strings without code units above U+00FF
    whenever there is a hash. *)
Definition make_field (now : Z) (data : ElementData.t) : option FormField.t :=
  match generateFieldHash data,
        JsString.narrow (ElementData.textContent data),
        JsString.narrow (ElementData.placeholder data) with
  | Some hash, Some textContent, Some placeholder =>
      Some
        {| FormField.id :=
             JsString.units_or_else (ElementData.id data)
               (ElementData.tagName data
                ++ JsString.widen ("_" ++ NilZero.string_of_int (Z.to_int now))%string);
           FormField.type := categorizeField textContent placeholder;
           FormField.element := data;
           FormField.text := JsString.or_else textContent placeholder;
           FormField.hash := hash;
           FormField.isQuestion := isQuestionField data;
           FormField.priority := calculateFieldPriority data |}
  | _, _, _ => None
  end.

(** The loop of [extractFormFields]: an error thrown for one element ends
    it, and the fields built before are lost. *)
Fixpoint make_fields (now : Z) (elementData : list ElementData.t)
    : option (list FormField.t) :=
  match elementData with
  | [] => Some []
  | data :: rest =>
      match make_field now data with
      | Some field =>
          match make_fields now rest with
          | Some fields => Some (field :: fields)
          | None => None
          end
      | None => None
      end
  end.

(** [extractFormFields]; [None] when it throws. *)
Definition extractFormFields (now : Z) (elementData : list ElementData.t)
    : option (list FormField.t) :=
  option_map sort_by_priority (make_fields now elementData).

(** What [processedQuestions] keeps for a hash. *)
Record Processed := mkProcessed {
  answer : string;
  timestamp : Z;
  answered_as : Category
}.

(** A [Map] with string keys, its entries in insertion order. *)
Fixpoint lookup {A : Type} (k : string) (m : list (string * A)) : option A :=
  match m with
  | [] => None
  | (k', v) :: m' => if String.eqb k' k then Some v else lookup k m'
  end.

Fixpoint store {A : Type} (k : string) (v : A) (m : list (string * A)) : list (string * A) :=
  match m with
  | [] => [(k, v)]
  | (k', v') :: m' => if String.eqb k' k then (k', v) :: m' else (k', v') :: store k v m'
  end.

Definition is_processed (processed : list (string * Processed)) (h : string) : bool :=
  match lookup h processed with
  | Some _ => true
  | None => false
  end.

Definition filterNewQuestions (processed : list (string * Processed))
    (fields : list FormField.t) : list FormField.t :=
  filter (fun f => if negb (FormField.isQuestion f) then true
                   else negb (is_processed processed (FormField.hash f)))
    fields.

(** [groupQuestionsByType]: the groups in the order of the keys of the
    object, each with its questions in their order. *)
Definition groupQuestionsByType (questions : list FormField.t)
    : list (Category * list FormField.t) :=
  map (fun c => (c, filter (fun q => Category_eqb (FormField.type q) c) questions))
    [standard; experience; education; salary; essay].

(** The resume data the templates read. *)
Module AutoFillData.
Record t := mk {
  experience_years : option string;
  salary_expectation : option string;
  start_date : option string;
  willing_to_relocate : option string;
  remote_work : option string;
  technical_skills : option string
}.
End AutoFillData.

(** [value || fallback] *)
Definition value_or (value : option string) (fallback : string) : string :=
  Js.show (Js.or value (Some fallback)).

(** The table of [getTemplateAnswer], in the order of its keys. *)
Definition templates (rd : AutoFillData.t) : list (string * string) :=
  [("bachelor", "Yes");
   ("degree", "Yes");
   ("authorized", "Yes");
   ("sponsorship", "No");
   ("visa", "No");
   ("experience", value_or (AutoFillData.experience_years rd) "5+ years");
   ("salary", value_or (AutoFillData.salary_expectation rd) "Competitive");
   ("start", value_or (AutoFillData.start_date rd) "Immediate");
   ("available", "Immediately available");
   ("relocate", value_or (AutoFillData.willing_to_relocate rd) "Yes");
   ("remote", value_or (AutoFillData.remote_work rd) "Yes");
   ("commute", "Yes");
   ("onsite", "Yes");
   ("why interested",
    ("I am excited about this opportunity because it aligns with my "
     ++ Js.show (AutoFillData.experience_years rd) ++ " of experience.")%string);
   ("why qualify",
    ("My background in " ++ Js.show (AutoFillData.technical_skills rd)
     ++ " makes me well-suited for this role.")%string)].

Fixpoint first_template (text : string) (table : list (string * string)) : string :=
  match table with
  | [] => "Yes"
  | (key, answer) :: rest =>
      if JsString.includes text key then answer else first_template text rest
  end.

Definition getTemplateAnswer (question : FormField.t) (rd : AutoFillData.t) : string :=
  first_template (JsString.toLowerCase (FormField.text question)) (templates rd).

(** *** The batched reply *)

Definition newline : ascii := ascii_of_nat 10.

(** [response.split('\n')] *)
Fixpoint split_lines_from (current : string) (s : string) : list string :=
  match s with
  | EmptyString => [current]
  | String c rest =>
      if Ascii.eqb c newline then current :: split_lines_from EmptyString rest
      else split_lines_from (current ++ String c EmptyString)%string rest
  end.

Definition split_lines (s : string) : list string := split_lines_from EmptyString s.

Definition is_digit (c : ascii) : bool :=
  let n := nat_of_ascii c in (48 <=? n)%nat && (n <=? 57)%nat.

Fixpoint skip_digits (s : string) : string :=
  match s with
  | String c rest => if is_digit c then skip_digits rest else s
  | EmptyString => EmptyString
  end.

(** [line.replace(/^\d+\.\s*/, '')] *)
Definition strip_number (line : string) : string :=
  match line with
  | String c _ =>
      if is_digit c
      then match skip_digits line with
           | String "." rest => JsString.trim_start rest
           | _ => line
           end
      else line
  | EmptyString => line
  end.

(** The answer [parseBatchResponse] reads at position [i]. *)
Definition answer_at (lines : list string) (i : nat) : string :=
  JsString.or_else (JsString.trim (strip_number (nth i lines ""))) "Yes".

Definition parseBatchResponse (response : string) (expectedCount : nat) : list string :=
  let lines :=
    filter (fun line => negb (String.eqb (JsString.trim line) "")) (split_lines response) in
  map (answer_at lines) (seq 0 expectedCount).

(** [callLLMBatch]: the reply does not depend on the prompt. *)
Definition callLLMBatch (prompt : string) : string :=
  ("1. Yes" ++ String newline "2. 5+ years" ++ String newline "3. Competitive")%string.

(** [getAnswersForQuestionGroup]; the prompt [createBatchPrompt] builds is
    left out, [callLLMBatch] not reading it. *)
Definition getAnswersForQuestionGroup (type : Category) (questions : list FormField.t)
    (rd : AutoFillData.t) : list string :=
  match type with
  | standard => map (fun q => getTemplateAnswer q rd) questions
  | _ => parseBatchResponse (callLLMBatch "") (List.length questions)
  end.

(** *** The observer *)

(** The observer: the questions it has answered, the timestamps of its
    rate limiter, its busy flag, and beside them the values it has written
    into fields of the page, by field id, oldest first. *)
Record t := mk {
  processedQuestions : list (string * Processed);
  rateLimiter : list Z;
  isProcessing : bool;
  written : list (JsString.Units * string)
}.

(** [cachedAnswers.set(id, answer)], on the [Map] from field ids to
    answers. *)
Fixpoint set_answer (id : JsString.Units) (answer : string)
    (m : list (JsString.Units * string)) : list (JsString.Units * string) :=
  match m with
  | [] => [(id, answer)]
  | (id', answer') :: m' =>
      if JsString.units_eqb id' id then (id', answer) :: m'
      else (id', answer') :: set_answer id answer m'
  end.

(** The two loops of [processQuestionGroup] that fill [cachedAnswers] and
    [processedQuestions]: first the questions found answered, then the
    others with their new answers. *)
Fixpoint collect_cached (processed : list (string * Processed))
    (questions : list FormField.t) (cachedAnswers : list (JsString.Units * string))
    : list (JsString.Units * string) :=
  match questions with
  | [] => cachedAnswers
  | q :: rest =>
      match lookup (FormField.hash q) processed with
      | Some cached =>
          collect_cached processed rest
            (set_answer (FormField.id q) (answer cached) cachedAnswers)
      | None => collect_cached processed rest cachedAnswers
      end
  end.

Fixpoint cache_answers (now : Z) (type : Category)
    (uncached : list FormField.t) (answers : list string)
    (acc : list (string * Processed) * list (JsString.Units * string))
    : list (string * Processed) * list (JsString.Units * string) :=
  match uncached with
  | [] => acc
  | q :: rest =>
      let a := Js.show (hd_error answers) in
      cache_answers now type rest (tl answers)
        (store (FormField.hash q)
           {| answer := a; timestamp := now; answered_as := type |} (fst acc),
         set_answer (FormField.id q) a (snd acc))
  end.

Definition processQuestionGroup (now : Z) (resumeData : option AutoFillData.t)
    (type : Category) (questions : list FormField.t) (o : t) : t :=
  match resumeData with
  | None => o
  | Some rd =>
      let processed := processedQuestions o in
      let cachedAnswers := collect_cached processed questions [] in
      let uncachedQuestions :=
        filter (fun q => negb (is_processed processed (FormField.hash q))) questions in
      let (processed', cachedAnswers') :=
        match uncachedQuestions with
        | [] => (processed, cachedAnswers)
        | _ :: _ =>
            cache_answers now type uncachedQuestions
              (getAnswersForQuestionGroup type uncachedQuestions rd)
              (processed, cachedAnswers)
        end in
      {| processedQuestions := processed';
         rateLimiter := rateLimiter o;
         isProcessing := isProcessing o;
         written := written o ++ cachedAnswers' |}
  end.

(** [processQuestionsBatch] at clock [now]: the observer afterwards and
    whether the batch was put off (to be tried again two seconds later). *)
Definition processQuestionsBatch (now : Z) (resumeData : option AutoFillData.t)
    (questions : list FormField.t) (o : t) : t * bool :=
  let (ok, calls) := RateLimiter.canProceed now (rateLimiter o) in
  let o := {| processedQuestions := processedQuestions o; rateLimiter := calls;
              isProcessing := isProcessing o; written := written o |} in
  if ok
  then (fold_left
          (fun o g =>
             match snd g with
             | [] => o
             | _ :: _ => processQuestionGroup now resumeData (fst g) (snd g) o
             end)
          (groupQuestionsByType questions) o,
        false)
  else (o, true).

(** [processFormChanges] for the elements of one drained change.  An
    error of [extractFormFields] is caught and logged; either way the busy
    flag is cleared at the end. *)
Definition processFormChanges (now : Z) (resumeData : option AutoFillData.t)
    (elements : list ElementData.t) (o : t) : t :=
  if isProcessing o then o
  else
    let o' :=
      match extractFormFields now elements with
      | Some newFields =>
          let questionsToProcess := filterNewQuestions (processedQuestions o) newFields in
          match questionsToProcess with
          | [] => o
          | _ :: _ => fst (processQuestionsBatch now resumeData questionsToProcess o)
          end
      | None => o
      end in
    {| processedQuestions := processedQuestions o'; rateLimiter := rateLimiter o';
       isProcessing := false; written := written o' |}.

(** Two text areas of a form. *)
Definition cover_letter_area : ElementData.t :=
  ElementData.of_strings "TEXTAREA" "textarea" "cover_letter" "" ""
    "Why do you want this job?" "" true.

Definition notes_area : ElementData.t :=
  ElementData.of_strings "TEXTAREA" "textarea" "notes" "" "Anything else?" "" "" false.

(** A text area whose label has a typographic apostrophe, U+2019. *)
Definition curly_area : ElementData.t :=
  ElementData.mk (JsString.widen "TEXTAREA") (JsString.widen "textarea")
    (JsString.widen "motivation") [] []
    (JsString.widen "What" ++ [8217%N] ++ JsString.widen "s your motivation?") [] false.

(** *** The hash of a field *)

Lemma narrow_none_iff (u : JsString.Units) :
  JsString.narrow u = None <-> exists x, In x u /\ (255 < x)%N.
Proof.
  induction u as [|y u IH]; simpl.
  - split; [discriminate | intros [x [[] _]]].
  - destruct (y <=? 255)%N eqn:Hy.
    + apply N.leb_le in Hy. destruct (JsString.narrow u) as [s|].
      * split; [discriminate|]. intros [x [[<-|Hx] Hwide]]; [lia|].
        assert (Habsurd : Some s = None) by (apply IH; exists x; split; assumption).
        discriminate.
      * split; [|reflexivity]. intros _.
        destruct (proj1 IH eq_refl) as [x [Hx Hwide]]. exists x. split; [right|]; assumption.
    + apply N.leb_gt in Hy. split; [|reflexivity]. intros _. exists y.
      split; [left; reflexivity | exact Hy].
Qed.

(** The text the hash encodes can be encoded exactly when the five texts
    of the element have no code unit above U+00FF. *)
Lemma field_content_narrow (data : ElementData.t) :
  JsString.narrow (field_content data)
  = match JsString.narrow (ElementData.tagName data),
          JsString.narrow (ElementData.type data),
          JsString.narrow (ElementData.name data),
          JsString.narrow (ElementData.placeholder data),
          JsString.narrow (ElementData.textContent data) with
    | Some tagName, Some type, Some name, Some placeholder, Some textContent =>
        Some (tagName ++ "_" ++ type ++ "_" ++ name ++ "_" ++ placeholder ++ "_"
              ++ textContent)%string
    | _, _, _, _, _ => None
    end.
Proof.
  unfold field_content. rewrite !JsString.narrow_app, !JsString.narrow_widen.
  destruct (JsString.narrow (ElementData.tagName data)),
           (JsString.narrow (ElementData.type data)),
           (JsString.narrow (ElementData.name data)),
           (JsString.narrow (ElementData.placeholder data)),
           (JsString.narrow (ElementData.textContent data)); reflexivity.
Qed.

Lemma hash_none_iff (data : ElementData.t) :
  generateFieldHash data = None <-> JsString.narrow (field_content data) = None.
Proof.
  unfold generateFieldHash, JsString.btoa_units.
  destruct (JsString.narrow (field_content data)); simpl; split; congruence.
Qed.

(** A field is built exactly when the hash does not throw, and then it
    carries the hash, the element, the priority and the question mark of
    its element. *)
Lemma make_field_built (now : Z) (data : ElementData.t) (h : string) :
  generateFieldHash data = Some h ->
  exists f, make_field now data = Some f
            /\ FormField.hash f = h
            /\ FormField.element f = data
            /\ FormField.isQuestion f = isQuestionField data
            /\ FormField.priority f = calculateFieldPriority data.
Proof.
  intros Hh. unfold make_field. rewrite Hh.
  assert (Hsome : JsString.narrow (field_content data) <> None).
  { intros Hnone. apply hash_none_iff in Hnone. congruence. }
  rewrite field_content_narrow in Hsome.
  destruct (JsString.narrow (ElementData.tagName data)); [|congruence].
  destruct (JsString.narrow (ElementData.type data)); [|congruence].
  destruct (JsString.narrow (ElementData.name data)); [|congruence].
  destruct (JsString.narrow (ElementData.placeholder data)); [|congruence].
  destruct (JsString.narrow (ElementData.textContent data)); [|congruence].
  eexists. repeat split.
Qed.

Lemma make_field_thrown (now : Z) (data : ElementData.t) :
  generateFieldHash data = None -> make_field now data = None.
Proof. intros Hh. unfold make_field. rewrite Hh. reflexivity. Qed.

Lemma make_field_hash (now : Z) (data : ElementData.t) (f : FormField.t) :
  make_field now data = Some f ->
  generateFieldHash data = Some (FormField.hash f)
  /\ FormField.element f = data
  /\ FormField.isQuestion f = isQuestionField data
  /\ FormField.priority f = calculateFieldPriority data.
Proof.
  intros Hf. destruct (generateFieldHash data) as [h|] eqn:Hh.
  - destruct (make_field_built now data h Hh) as [f' [Hf' [Hhash Hrest]]].
    rewrite Hf in Hf'. injection Hf' as <-. rewrite Hhash. split; [reflexivity | exact Hrest].
  - rewrite (make_field_thrown now data Hh) in Hf. discriminate.
Qed.

Lemma make_fields_built (now : Z) (elements : list ElementData.t) :
  Forall (fun d => generateFieldHash d <> None) elements ->
  exists fields, make_fields now elements = Some fields.
Proof.
  induction 1 as [|d rest Hd _ [fields IH]]; simpl.
  - exists []. reflexivity.
  - destruct (generateFieldHash d) as [h|] eqn:Hh; [|congruence].
    destruct (make_field_built now d h Hh) as [f [Hf _]].
    rewrite Hf, IH. exists (f :: fields). reflexivity.
Qed.

Lemma make_fields_thrown (now : Z) (elements : list ElementData.t) :
  Exists (fun d => generateFieldHash d = None) elements ->
  make_fields now elements = None.
Proof.
  induction 1 as [d rest Hd|d rest _ IH]; simpl.
  - rewrite (make_field_thrown now d Hd). reflexivity.
  - rewrite IH. destruct (make_field now d); reflexivity.
Qed.

Lemma make_fields_facts (now : Z) (elements : list ElementData.t) :
  forall fields,
    make_fields now elements = Some fields ->
    List.length fields = List.length elements
    /\ (forall f, In f fields <-> exists d, In d elements /\ make_field now d = Some f).
Proof.
  induction elements as [|d rest IH]; simpl; intros fields Hfields.
  - injection Hfields as <-. split; [reflexivity|].
    intros f. split; [intros [] | intros [d [[] _]]].
  - destruct (make_field now d) as [f0|] eqn:Hf0; [|discriminate].
    destruct (make_fields now rest) as [fields0|]; [|discriminate].
    injection Hfields as <-. destruct (IH fields0 eq_refl) as [Hlen Hin].
    split; [simpl; rewrite Hlen; reflexivity|].
    intros f. simpl. rewrite Hin. split.
    + intros [<-|[d' [Hd' Hf]]]; [exists d; tauto | exists d'; tauto].
    + intros [d' [[<-|Hd'] Hf]].
      * left. congruence.
      * right. exists d'. tauto.
Qed.

(** Whether [extractFormFields] throws does not depend on the clock. *)
Lemma make_fields_any_clock (now now' : Z) (elements : list ElementData.t) :
  make_fields now elements = None <-> make_fields now' elements = None.
Proof.
  assert (Hdir : forall n n', make_fields n elements = None ->
                              make_fields n' elements = None).
  { intros n n'. induction elements as [|d rest IH]; simpl; [discriminate|].
    destruct (generateFieldHash d) as [h|] eqn:Hh.
    - destruct (make_field_built n d h Hh) as [f [Hf _]].
      destruct (make_field_built n' d h Hh) as [f' [Hf' _]].
      rewrite Hf, Hf'. destruct (make_fields n rest); [discriminate|].
      intros _. rewrite IH; reflexivity.
    - intros _. rewrite (make_field_thrown n' d Hh). reflexivity. }
  split; apply Hdir.
Qed.

(** The hash of every text area. *)
Definition text_area_hash : string := "VEVYVEFSRUFfdGV4".

(** X25.  The hash of a field is decided by the first 12 characters of
    the text it encodes, which starts with the tag name and the type.  All
    text areas whose name, placeholder and text have no character above
    U+00FF therefore have one and the same hash; once one of them has been
    answered, [filterNewQuestions] drops every other one as already
    processed.  For an element with a character above U+00FF in the text
    to encode there is no hash: [btoa] throws. *)
Theorem text_areas_share_one_hash
    (d d' : ElementData.t)
    (Htag : ElementData.tagName d = JsString.widen "TEXTAREA")
    (Htype : ElementData.type d = JsString.widen "textarea")
    (Hnarrow : JsString.narrow (field_content d) <> None)
    (Htag' : ElementData.tagName d' = JsString.widen "TEXTAREA")
    (Htype' : ElementData.type d' = JsString.widen "textarea")
    (Hnarrow' : JsString.narrow (field_content d') <> None) :
  generateFieldHash d = Some text_area_hash
  /\ generateFieldHash d' = Some text_area_hash
  /\ (forall now processed,
        is_processed processed text_area_hash = true ->
        option_map (filterNewQuestions processed) (extractFormFields now [d']) = Some [])
  /\ (forall (e e' : ElementData.t) (s s' : string),
        JsString.narrow (field_content e) = Some s ->
        JsString.narrow (field_content e') = Some s' ->
        JsString.take 12 s = JsString.take 12 s' ->
        generateFieldHash e = generateFieldHash e')
  /\ (forall (e : ElementData.t) (x : N),
        In x (field_content e) -> (255 < x)%N -> generateFieldHash e = None).
Proof.
  assert (Hgeneral : forall (e e' : ElementData.t) (s s' : string),
             JsString.narrow (field_content e) = Some s ->
             JsString.narrow (field_content e') = Some s' ->
             JsString.take 12 s = JsString.take 12 s' ->
             generateFieldHash e = generateFieldHash e').
  { intros e e' s s' Hs Hs' H. unfold generateFieldHash, JsString.btoa_units.
    rewrite Hs, Hs'. simpl. f_equal. apply (JsString.btoa_prefix 4). exact H. }
  assert (Harea : forall e : ElementData.t,
             ElementData.tagName e = JsString.widen "TEXTAREA" ->
             ElementData.type e = JsString.widen "textarea" ->
             JsString.narrow (field_content e) <> None ->
             generateFieldHash e = Some text_area_hash).
  { intros e He1 He2 He3.
    destruct (JsString.narrow (field_content e)) as [s|] eqn:Hs; [|congruence].
    rewrite (Hgeneral e cover_letter_area s
               "TEXTAREA_textarea_cover_letter__Why do you want this job?" Hs);
      [reflexivity | reflexivity |].
    rewrite field_content_narrow, He1, He2, !JsString.narrow_widen in Hs.
    destruct (JsString.narrow (ElementData.name e)); [|discriminate].
    destruct (JsString.narrow (ElementData.placeholder e)); [|discriminate].
    destruct (JsString.narrow (ElementData.textContent e)); [|discriminate].
    injection Hs as <-. reflexivity. }
  pose proof (Harea d Htag Htype Hnarrow) as Hd.
  pose proof (Harea d' Htag' Htype' Hnarrow') as Hd'.
  split; [exact Hd|]. split; [exact Hd'|]. split; [|split; [exact Hgeneral|]].
  - intros now processed Hdone. unfold extractFormFields. simpl.
    destruct (make_field_built now d' text_area_hash Hd') as [f [Hf [Hhash [_ [Hq _]]]]].
    rewrite Hf. simpl. unfold filterNewQuestions. simpl.
    rewrite Hq, Hhash, Hdone. unfold isQuestionField. rewrite Htag'. reflexivity.
  - intros e x Hx Hwide. apply hash_none_iff, narrow_none_iff. exists x. tauto.
Qed.

Lemma text_areas_share_one_hash_witness :
  generateFieldHash cover_letter_area = Some text_area_hash
  /\ generateFieldHash notes_area = Some text_area_hash.
Proof.
  pose proof (text_areas_share_one_hash cover_letter_area notes_area
                eq_refl eq_refl) as H.
  assert (H1 : JsString.narrow (field_content cover_letter_area) <> None)
    by (vm_compute; discriminate).
  assert (H2 : JsString.narrow (field_content notes_area) <> None)
    by (vm_compute; discriminate).
  destruct (H H1 eq_refl eq_refl H2) as [Ha [Hb _]]. split; [exact Ha | exact Hb].
Defined.

(** *** The fields of a change *)

Fixpoint descending (l : list FormField.t) : bool :=
  match l with
  | a :: (b :: _) as rest => (FormField.priority b <=? FormField.priority a) && descending rest
  | _ => true
  end.

Lemma descending_cons (a b : FormField.t) (l : list FormField.t) :
  descending (a :: b :: l) = (FormField.priority b <=? FormField.priority a) && descending (b :: l).
Proof. reflexivity. Qed.

Lemma insert_by_priority_descending (a : FormField.t) (l : list FormField.t) :
  descending l = true -> descending (insert_by_priority a l) = true.
Proof.
  induction l as [|b l IH]; intros Hl; [reflexivity|].
  cbn [insert_by_priority].
  destruct (FormField.priority b - FormField.priority a <=? 0) eqn:Hba.
  - rewrite descending_cons, Hl. apply Z.leb_le in Hba.
    assert (Hle : (FormField.priority b <=? FormField.priority a) = true)
      by (apply Z.leb_le; lia).
    rewrite Hle. reflexivity.
  - apply Z.leb_gt in Hba. destruct l as [|c l].
    + cbn [insert_by_priority]. rewrite descending_cons.
      assert (Hle : (FormField.priority a <=? FormField.priority b) = true)
        by (apply Z.leb_le; lia).
      rewrite Hle. reflexivity.
    + rewrite descending_cons in Hl. apply andb_true_iff in Hl. destruct Hl as [Hcb Hrest].
      specialize (IH Hrest). cbn [insert_by_priority] in *.
      destruct (FormField.priority c - FormField.priority a <=? 0).
      * rewrite descending_cons, IH.
        assert (Hle : (FormField.priority a <=? FormField.priority b) = true)
          by (apply Z.leb_le; lia).
        rewrite Hle. reflexivity.
      * rewrite descending_cons, IH, Hcb. reflexivity.
Qed.

Lemma insert_by_priority_fields (a f : FormField.t) (l : list FormField.t) :
  In f (insert_by_priority a l) <-> f = a \/ In f l.
Proof.
  induction l as [|b l IH]; simpl.
  - intuition congruence.
  - destruct (FormField.priority b - FormField.priority a <=? 0); simpl.
    + intuition congruence.
    + rewrite IH. intuition congruence.
Qed.

Lemma insert_by_priority_length (a : FormField.t) (l : list FormField.t) :
  List.length (insert_by_priority a l) = S (List.length l).
Proof.
  induction l as [|b l IH]; simpl; [reflexivity|].
  destruct (FormField.priority b - FormField.priority a <=? 0); simpl;
    [reflexivity | rewrite IH; reflexivity].
Qed.

Lemma sort_by_priority_facts (l : list FormField.t) :
  descending (sort_by_priority l) = true
  /\ List.length (sort_by_priority l) = List.length l
  /\ (forall f, In f (sort_by_priority l) <-> In f l).
Proof.
  unfold sort_by_priority. induction l as [|a l [Hdesc [Hlen Hin]]]; simpl.
  - repeat split; tauto.
  - split; [apply insert_by_priority_descending; exact Hdesc|].
    split; [rewrite insert_by_priority_length, Hlen; reflexivity|].
    intros f. rewrite insert_by_priority_fields, Hin. intuition congruence.
Qed.

(** The fields of a change: each is the field of one of its elements. *)
Lemma extracted_fields (now : Z) (elements : list ElementData.t)
    (fields : list FormField.t) :
  extractFormFields now elements = Some fields ->
  descending fields = true
  /\ List.length fields = List.length elements
  /\ (forall f, In f fields <-> exists d, In d elements /\ make_field now d = Some f).
Proof.
  unfold extractFormFields. intros Hfields.
  destruct (make_fields now elements) as [built|] eqn:Hbuilt; [|discriminate].
  injection Hfields as <-.
  destruct (sort_by_priority_facts built) as [Hdesc [Hlen Hin]].
  destruct (make_fields_facts now elements built Hbuilt) as [Hlen' Hin'].
  split; [exact Hdesc|]. split; [congruence|].
  intros f. rewrite Hin. apply Hin'.
Qed.

(** X26.  When no text that [generateFieldHash] encodes has a character
    above U+00FF, [extractFormFields] returns one field for each reported
    element, the fields with the higher priority first: the priority is 1,
    plus 2 for a required field, plus 1 for a text area.  When one element
    has such a character, [extractFormFields] throws and no field at all
    is returned; [processFormChanges] then leaves an idle observer as it
    was. *)
Theorem fields_come_by_priority (now : Z) (elements : list ElementData.t) :
  (Forall (fun d => JsString.narrow (field_content d) <> None) elements ->
   exists fields,
     extractFormFields now elements = Some fields
     /\ descending fields = true
     /\ List.length fields = List.length elements
     /\ (forall f, In f fields <-> exists d, In d elements /\ make_field now d = Some f)
     /\ (forall f, In f fields ->
           FormField.priority f
           = 1 + (if ElementData.required (FormField.element f) then 2 else 0)
               + (if JsString.units_eqb (ElementData.tagName (FormField.element f))
                       (JsString.widen "TEXTAREA")
                  then 1 else 0)))
  /\ (Exists (fun d => exists x, In x (field_content d) /\ (255 < x)%N) elements ->
      extractFormFields now elements = None
      /\ forall resumeData o,
           isProcessing o = false -> processFormChanges now resumeData elements o = o).
Proof.
  split.
  - intros Hall.
    assert (Hhashes : Forall (fun d => generateFieldHash d <> None) elements).
    { eapply Forall_impl; [|exact Hall]. simpl. intros d Hd Hnone.
      apply hash_none_iff in Hnone. contradiction. }
    destruct (make_fields_built now elements Hhashes) as [built Hbuilt].
    assert (Hfields : extractFormFields now elements = Some (sort_by_priority built))
      by (unfold extractFormFields; rewrite Hbuilt; reflexivity).
    exists (sort_by_priority built). split; [exact Hfields|].
    destruct (extracted_fields now elements _ Hfields) as [Hdesc [Hlen Hin]].
    split; [exact Hdesc|]. split; [exact Hlen|]. split; [exact Hin|].
    intros f Hf. apply Hin in Hf. destruct Hf as [d [_ Hf]].
    destruct (make_field_hash now d f Hf) as [_ [-> [_ ->]]].
    unfold calculateFieldPriority.
    destruct (ElementData.required d),
             (JsString.units_eqb (ElementData.tagName d) (JsString.widen "TEXTAREA"));
      reflexivity.
  - intros Hwide.
    assert (Hthrown : extractFormFields now elements = None).
    { unfold extractFormFields. rewrite make_fields_thrown; [reflexivity|].
      eapply Exists_impl; [|exact Hwide]. simpl. intros d Hd.
      apply hash_none_iff, narrow_none_iff. exact Hd. }
    split; [exact Hthrown|].
    intros resumeData o Hidle. unfold processFormChanges.
    rewrite Hidle, Hthrown. destruct o; simpl in *. subst. reflexivity.
Qed.

Lemma fields_come_by_priority_witness :
  (exists fields,
      extractFormFields 0 [notes_area; cover_letter_area] = Some fields
      /\ List.length fields = 2%nat)
  /\ extractFormFields 0 [notes_area; curly_area; cover_letter_area] = None.
Proof.
  split.
  - destruct (proj1 (fields_come_by_priority 0 [notes_area; cover_letter_area]))
      as [fields [Hfields [_ [Hlen _]]]].
    + repeat constructor; vm_compute; discriminate.
    + exists fields. split; [exact Hfields | exact Hlen].
  - apply (proj2 (fields_come_by_priority 0 [notes_area; curly_area; cover_letter_area])).
    apply Exists_cons_tl, Exists_cons_hd. exists 8217%N. split; [|reflexivity].
    vm_compute. tauto.
Defined.

(** *** Answers *)

Lemma first_template_filled (text : string) (table : list (string * string)) :
  Forall (fun kv => snd kv <> "") table -> first_template text table <> "".
Proof.
  induction 1 as [|[key answer] rest Hhead _ IH]; simpl; [discriminate|].
  destruct (JsString.includes text key); [exact Hhead | exact IH].
Qed.

Lemma value_or_filled (value : option string) (fallback : string) :
  fallback <> "" -> value_or value fallback <> "".
Proof.
  intros Hf. unfold value_or, Js.or, Js.truthy.
  destruct value as [[|c s]|]; simpl; try exact Hf. discriminate.
Qed.

(** X27.  A template answer is never empty.  A question that mentions
    [bachelor], [degree] or [authorized] is answered [Yes] whatever else
    it asks, these keys coming first; without them, a question that
    mentions [sponsorship] or [visa] is answered [No]. *)
Theorem template_answers (question : FormField.t) (rd : AutoFillData.t) :
  let text := JsString.toLowerCase (FormField.text question) in
  getTemplateAnswer question rd <> ""
  /\ (JsString.includes text "bachelor" = true \/ JsString.includes text "degree" = true
      \/ JsString.includes text "authorized" = true ->
      getTemplateAnswer question rd = "Yes")
  /\ (JsString.includes text "bachelor" = false -> JsString.includes text "degree" = false ->
      JsString.includes text "authorized" = false ->
      JsString.includes text "sponsorship" = true \/ JsString.includes text "visa" = true ->
      getTemplateAnswer question rd = "No").
Proof.
  cbv zeta. unfold getTemplateAnswer. split; [|split].
  - apply first_template_filled. unfold templates.
    repeat (constructor; [first [apply value_or_filled; discriminate | discriminate]|]).
    constructor.
  - unfold templates. cbn [first_template].
    destruct (JsString.includes _ "bachelor"); [reflexivity|].
    destruct (JsString.includes _ "degree"); [reflexivity|].
    destruct (JsString.includes _ "authorized"); [reflexivity|].
    intros [H|[H|H]]; discriminate.
  - intros Hb Hd Ha Hno. unfold templates. cbn [first_template].
    rewrite Hb, Hd, Ha.
    destruct (JsString.includes _ "sponsorship"); [reflexivity|].
    destruct Hno as [H|H]; [discriminate|]. rewrite H. reflexivity.
Qed.

(** The fields of a change, none when [extractFormFields] throws. *)
Definition fields_of (now : Z) (elements : list ElementData.t) : list FormField.t :=
  match extractFormFields now elements with
  | Some fields => fields
  | None => []
  end.

(** The field of a question about the right to work. *)
Definition authorization_question : FormField.t :=
  hd (FormField.mk [] standard cover_letter_area "" "" false 0)
    (fields_of 0
       [ElementData.of_strings "INPUT" "text" "q1" "q1" ""
          "Are you authorized to work without visa sponsorship?" "" true]).

Lemma template_answers_witness :
  FormField.text authorization_question
  = "Are you authorized to work without visa sponsorship?"
  /\ getTemplateAnswer authorization_question
       (AutoFillData.mk None None None None None None)
     = "Yes".
Proof.
  split; [reflexivity|].
  pose proof (template_answers authorization_question
                (AutoFillData.mk None None None None None None)) as H.
  cbv zeta in H. apply (proj1 (proj2 H)). right. right. vm_compute. reflexivity.
Defined.

Definition four_essay_questions : list FormField.t :=
  fields_of 0
    [ElementData.of_strings "TEXTAREA" "textarea" "a" "a" "" "Why us?" "" false;
     ElementData.of_strings "TEXTAREA" "textarea" "b" "b" "" "Why you?" "" false;
     ElementData.of_strings "TEXTAREA" "textarea" "c" "c" "" "Tell us more" "" false;
     ElementData.of_strings "TEXTAREA" "textarea" "d" "d" "" "Why now?" "" false].

Definition canned_lines : list string := ["1. Yes"; "2. 5+ years"; "3. Competitive"].

Lemma answer_beyond_reply (k : nat) :
  forall i, (3 <= i)%nat -> map (answer_at canned_lines) (seq i k) = repeat "Yes" k.
Proof.
  induction k as [|k IH]; intros i Hi; simpl; [reflexivity|].
  rewrite IH by lia. f_equal.
  unfold answer_at. rewrite nth_overflow by (simpl; lia). reflexivity.
Qed.

(** X28.  For every category but [standard] the answers do not depend on
    the questions or on the resume data: they are [Yes], [5+ years],
    [Competitive], in this order, and [Yes] for every further question. *)
Theorem batched_answers_are_positional
    (type : Category) (questions : list FormField.t) (rd : AutoFillData.t)
    (Htype : type <> standard) :
  getAnswersForQuestionGroup type questions rd
  = firstn (List.length questions) ["Yes"; "5+ years"; "Competitive"]
    ++ repeat "Yes" (List.length questions - 3).
Proof.
  assert (Hparse : forall n,
             parseBatchResponse (callLLMBatch "") n
             = firstn n ["Yes"; "5+ years"; "Competitive"] ++ repeat "Yes" (n - 3)).
  { intros n. unfold parseBatchResponse.
    change (filter _ (split_lines (callLLMBatch ""))) with canned_lines.
    destruct n as [|[|[|n]]]; try reflexivity.
    replace (S (S (S n))) with (3 + n)%nat by lia.
    rewrite seq_app, map_app, (answer_beyond_reply n (0 + 3)) by (simpl; lia).
    replace (3 + n - 3)%nat with n by lia.
    cbn [Nat.add firstn]. rewrite firstn_nil. reflexivity. }
  destruct type; try (apply Hparse). contradiction.
Qed.

Lemma batched_answers_are_positional_witness :
  getAnswersForQuestionGroup essay four_essay_questions
    (AutoFillData.mk None None None None None None)
  = ["Yes"; "5+ years"; "Competitive"; "Yes"].
Proof.
  refine (batched_answers_are_positional essay four_essay_questions
            (AutoFillData.mk None None None None None None) _).
  discriminate.
Defined.

(** *** A batch of questions *)

Lemma lookup_store_same {A : Type} (k : string) (v : A) (m : list (string * A)) :
  lookup k (store k v m) = Some v.
Proof.
  induction m as [|[k' v'] m IH]; simpl.
  - rewrite String.eqb_refl. reflexivity.
  - destruct (String.eqb k' k) eqn:Hk; simpl; rewrite Hk; [reflexivity | exact IH].
Qed.

Lemma lookup_store_other {A : Type} (k k' : string) (v : A) (m : list (string * A)) :
  k' <> k -> lookup k' (store k v m) = lookup k' m.
Proof.
  intros Hne. induction m as [|[k0 v0] m IH]; simpl.
  - assert (Hf : String.eqb k k' = false) by (apply String.eqb_neq; congruence).
    rewrite Hf. reflexivity.
  - destruct (String.eqb k0 k) eqn:Hk; simpl.
    + apply String.eqb_eq in Hk. subst k0.
      assert (Hf : String.eqb k k' = false) by (apply String.eqb_neq; congruence).
      rewrite Hf. reflexivity.
    + destruct (String.eqb k0 k'); [reflexivity | exact IH].
Qed.

Lemma cache_answers_keeps (now : Z) (type : Category) (uncached : list FormField.t)
    (h : string) :
  forall answers acc,
    (forall q, In q uncached -> FormField.hash q <> h) ->
    lookup h (fst (cache_answers now type uncached answers acc)) = lookup h (fst acc).
Proof.
  induction uncached as [|q rest IH]; intros answers acc Hother; simpl.
  - reflexivity.
  - rewrite IH by (intros q' Hq'; apply Hother; right; exact Hq').
    simpl. apply lookup_store_other. intros Heq. apply (Hother q); [left; reflexivity|].
    symmetry. exact Heq.
Qed.

Lemma cache_answers_present (now : Z) (type : Category) (uncached : list FormField.t)
    (h : string) :
  forall answers acc,
    lookup h (fst acc) <> None ->
    lookup h (fst (cache_answers now type uncached answers acc)) <> None.
Proof.
  induction uncached as [|q rest IH]; intros answers acc Hin; simpl.
  - exact Hin.
  - apply IH. simpl. destruct (string_dec h (FormField.hash q)) as [->|Hne].
    + rewrite lookup_store_same. discriminate.
    + rewrite lookup_store_other by exact Hne. exact Hin.
Qed.

Lemma cache_answers_covers (now : Z) (type : Category) (uncached : list FormField.t)
    (q : FormField.t) :
  forall answers acc,
    In q uncached ->
    lookup (FormField.hash q) (fst (cache_answers now type uncached answers acc)) <> None.
Proof.
  induction uncached as [|q' rest IH]; intros answers acc Hin; simpl.
  - contradiction.
  - destruct Hin as [->|Hin].
    + apply cache_answers_present. simpl. rewrite lookup_store_same. discriminate.
    + apply IH. exact Hin.
Qed.

Lemma is_processed_iff (processed : list (string * Processed)) (h : string) :
  is_processed processed h = true <-> lookup h processed <> None.
Proof.
  unfold is_processed. destruct (lookup h processed); split;
    intros; try reflexivity; try discriminate; congruence.
Qed.

Lemma group_answers (now : Z) (rd : AutoFillData.t) (type : Category)
    (questions : list FormField.t) (o : t) :
  let o' := processQuestionGroup now (Some rd) type questions o in
  (forall h p, lookup h (processedQuestions o) = Some p ->
               lookup h (processedQuestions o') = Some p)
  /\ (forall q, In q questions ->
                is_processed (processedQuestions o') (FormField.hash q) = true).
Proof.
  cbv zeta. unfold processQuestionGroup.
  set (processed := processedQuestions o).
  set (uncached := filter (fun q => negb (is_processed processed (FormField.hash q)))
                     questions).
  assert (Hfresh : forall q, In q uncached -> lookup (FormField.hash q) processed = None).
  { intros q Hq. apply filter_In in Hq. destruct Hq as [_ Hq].
    apply negb_true_iff in Hq. unfold is_processed in Hq.
    destruct (lookup (FormField.hash q) processed); [discriminate | reflexivity]. }
  assert (Hkeeps : forall answers acc h p,
             fst acc = processed -> lookup h processed = Some p ->
             lookup h (fst (cache_answers now type uncached answers acc)) = Some p).
  { intros answers acc h p Hacc Hp. rewrite cache_answers_keeps; [rewrite Hacc; exact Hp|].
    intros q Hq Heq. rewrite <- Heq, (Hfresh q Hq) in Hp. discriminate. }
  destruct uncached as [|u rest] eqn:Huncached.
  - cbn [processedQuestions]. split; [auto|].
    intros q Hq. destruct (is_processed processed (FormField.hash q)) eqn:Hdone;
      [reflexivity|].
    assert (Hin : In q uncached).
    { apply filter_In. split; [exact Hq|]. rewrite Hdone. reflexivity. }
    rewrite Huncached in Hin. contradiction.
  - destruct (cache_answers now type (u :: rest)
                (getAnswersForQuestionGroup type (u :: rest) rd)
                (processed, collect_cached processed questions []))
      as [processed' answers'] eqn:Hrun.
    cbn [processedQuestions].
    assert (Hfst : processed'
                   = fst (cache_answers now type (u :: rest)
                            (getAnswersForQuestionGroup type (u :: rest) rd)
                            (processed, collect_cached processed questions [])))
      by (rewrite Hrun; reflexivity).
    split.
    + intros h p Hp. rewrite Hfst. apply Hkeeps; [reflexivity | exact Hp].
    + intros q Hq. apply is_processed_iff.
      destruct (is_processed processed (FormField.hash q)) eqn:Hdone.
      * apply is_processed_iff in Hdone.
        destruct (lookup (FormField.hash q) processed) as [p|] eqn:Hp; [|congruence].
        rewrite Hfst. rewrite (Hkeeps _ _ _ p); [discriminate | reflexivity | exact Hp].
      * rewrite Hfst. apply cache_answers_covers.
        rewrite <- Huncached. apply filter_In. split; [exact Hq|].
        rewrite Hdone. reflexivity.
Qed.

Definition process_group (now : Z) (resumeData : option AutoFillData.t)
    (o : t) (g : Category * list FormField.t) : t :=
  match snd g with
  | [] => o
  | _ :: _ => processQuestionGroup now resumeData (fst g) (snd g) o
  end.

Lemma groups_answer (now : Z) (rd : AutoFillData.t)
    (groups : list (Category * list FormField.t)) :
  forall o : t,
    let o' := fold_left (process_group now (Some rd)) groups o in
    (forall h p, lookup h (processedQuestions o) = Some p ->
                 lookup h (processedQuestions o') = Some p)
    /\ (forall g q, In g groups -> In q (snd g) ->
                    is_processed (processedQuestions o') (FormField.hash q) = true).
Proof.
  induction groups as [|g groups IH]; intros o; cbv zeta; simpl.
  - split; [auto | intros g q []].
  - assert (Hstep :
      (forall h p, lookup h (processedQuestions o) = Some p ->
                   lookup h (processedQuestions (process_group now (Some rd) o g)) = Some p)
      /\ (forall q, In q (snd g) ->
                    is_processed (processedQuestions (process_group now (Some rd) o g))
                      (FormField.hash q) = true)).
    { unfold process_group. destruct (snd g) as [|q0 qs] eqn:Hg.
      - split; [auto | intros q []].
      - apply (group_answers now rd (fst g) (q0 :: qs) o). }
    destruct Hstep as [Hkeep Hcover].
    destruct (IH (process_group now (Some rd) o g)) as [Hkeep' Hcover'].
    split.
    + intros h p Hp. apply Hkeep', Hkeep, Hp.
    + intros g' q [<-|Hin] Hq.
      * specialize (Hcover q Hq). apply is_processed_iff in Hcover.
        destruct (lookup (FormField.hash q)
                    (processedQuestions (process_group now (Some rd) o g)))
          as [p|] eqn:Hp; [|congruence].
        apply is_processed_iff. rewrite (Hkeep' _ _ Hp). discriminate.
      * apply (Hcover' g' q Hin Hq).
Qed.

Lemma groups_without_resume (now : Z) (groups : list (Category * list FormField.t)) :
  forall o : t, fold_left (process_group now None) groups o = o.
Proof.
  induction groups as [|g groups IH]; intros o; simpl; [reflexivity|].
  rewrite <- (IH o) at 2. f_equal. unfold process_group.
  destruct (snd g); reflexivity.
Qed.

Lemma question_is_grouped (questions : list FormField.t) (q : FormField.t) :
  In q questions ->
  exists g, In g (groupQuestionsByType questions) /\ In q (snd g).
Proof.
  intros Hq. unfold groupQuestionsByType.
  exists (FormField.type q,
          filter (fun q' => Category_eqb (FormField.type q') (FormField.type q)) questions).
  split.
  - apply in_map_iff. exists (FormField.type q). split; [reflexivity|].
    destruct (FormField.type q); simpl; tauto.
  - simpl. apply filter_In. split; [exact Hq|]. destruct (FormField.type q); reflexivity.
Qed.

(** X29.  A batch of questions is answered as a whole or not at all.
    When the rate limiter grants the call (and there is resume data), the
    hash of every question of the batch is marked as processed, and every
    answer marked before the batch stays as it was.  When the limiter
    refuses, the batch is put off, nothing
    is marked and nothing is written to the page.  Without resume data a
    granted batch marks and writes nothing either. *)
Theorem batch_is_answered_or_put_off
    (now : Z) (rd : AutoFillData.t) (questions : list FormField.t) (o : t) :
  let run := processQuestionsBatch now (Some rd) questions o in
  (if fst (RateLimiter.canProceed now (rateLimiter o))
   then snd run = false
        /\ (forall q, In q questions ->
              is_processed (processedQuestions (fst run)) (FormField.hash q) = true)
        /\ (forall h p, lookup h (processedQuestions o) = Some p ->
              lookup h (processedQuestions (fst run)) = Some p)
   else snd run = true
        /\ processedQuestions (fst run) = processedQuestions o
        /\ written (fst run) = written o)
  /\ processedQuestions (fst (processQuestionsBatch now None questions o))
     = processedQuestions o
  /\ written (fst (processQuestionsBatch now None questions o)) = written o.
Proof.
  cbv zeta. unfold processQuestionsBatch.
  destruct (RateLimiter.canProceed now (rateLimiter o)) as [ok recorded].
  cbn [fst]. destruct ok; cbn [fst snd].
  - fold (process_group now (Some rd)). fold (process_group now None).
    rewrite groups_without_resume. cbn [processedQuestions written].
    split; [|split; reflexivity].
    match goal with |- context [fold_left _ _ ?start] =>
      destruct (groups_answer now rd (groupQuestionsByType questions) start)
        as [Hkeep Hcover]
    end.
    split; [reflexivity|]. split.
    + intros q Hq. destruct (question_is_grouped questions q Hq) as [g [Hg Hin]].
      apply (Hcover g q Hg Hin).
    + intros h p Hp. apply Hkeep. exact Hp.
  - repeat split.
Qed.

(** *** Draining the same change twice *)

Lemma group_all_processed (now : Z) (resumeData : option AutoFillData.t)
    (type : Category) (questions : list FormField.t) (o : t) :
  (forall q, In q questions ->
             is_processed (processedQuestions o) (FormField.hash q) = true) ->
  processedQuestions (processQuestionGroup now resumeData type questions o)
  = processedQuestions o.
Proof.
  intros Hall. unfold processQuestionGroup. destruct resumeData as [rd|]; [|reflexivity].
  assert (Hnone : filter (fun q => negb (is_processed (processedQuestions o)
                                           (FormField.hash q))) questions = []).
  { induction questions as [|q rest IH]; simpl; [reflexivity|].
    rewrite (Hall q) by (left; reflexivity). simpl.
    apply IH. intros q' Hq'. apply Hall. right. exact Hq'. }
  rewrite Hnone. reflexivity.
Qed.

Lemma groups_all_processed (now : Z) (resumeData : option AutoFillData.t)
    (groups : list (Category * list FormField.t)) :
  forall o : t,
    (forall g q, In g groups -> In q (snd g) ->
                 is_processed (processedQuestions o) (FormField.hash q) = true) ->
    processedQuestions (fold_left (process_group now resumeData) groups o)
    = processedQuestions o.
Proof.
  induction groups as [|g groups IH]; intros o Hall; simpl; [reflexivity|].
  assert (Hstep : processedQuestions (process_group now resumeData o g)
                  = processedQuestions o).
  { unfold process_group. destruct (snd g) as [|q0 qs] eqn:Hg; [reflexivity|].
    apply group_all_processed. intros q Hq. apply (Hall g q); [left; reflexivity|].
    rewrite Hg. exact Hq. }
  rewrite IH; [exact Hstep|].
  intros g' q Hg' Hq. rewrite Hstep. apply (Hall g' q); [right; exact Hg' | exact Hq].
Qed.

Lemma batch_all_processed (now : Z) (resumeData : option AutoFillData.t)
    (questions : list FormField.t) (o : t) :
  (forall q, In q questions ->
             is_processed (processedQuestions o) (FormField.hash q) = true) ->
  processedQuestions (fst (processQuestionsBatch now resumeData questions o))
  = processedQuestions o.
Proof.
  intros Hall. unfold processQuestionsBatch.
  destruct (RateLimiter.canProceed now (rateLimiter o)) as [ok recorded].
  destruct ok; cbn [fst]; [|reflexivity].
  fold (process_group now resumeData).
  rewrite groups_all_processed; [reflexivity|].
  cbn [processedQuestions]. intros g q Hg Hq. apply Hall.
  unfold groupQuestionsByType in Hg. apply in_map_iff in Hg.
  destruct Hg as [c [<- _]]. simpl in Hq. apply filter_In in Hq. tauto.
Qed.

Lemma drain_marks_every_field (now : Z) (rd : AutoFillData.t)
    (elements : list ElementData.t) (o : t) (fields : list FormField.t) :
  isProcessing o = false ->
  fst (RateLimiter.canProceed now (rateLimiter o)) = true ->
  extractFormFields now elements = Some fields ->
  forall f, In f fields ->
    is_processed (processedQuestions (processFormChanges now (Some rd) elements o))
      (FormField.hash f) = true.
Proof.
  intros Hidle Hgrant Hfields f Hfield. unfold processFormChanges. rewrite Hidle, Hfields.
  cbn [processedQuestions].
  set (todo := filterNewQuestions (processedQuestions o) fields).
  assert (Hsplit : In f todo
                   \/ is_processed (processedQuestions o) (FormField.hash f) = true).
  { destruct (is_processed (processedQuestions o) (FormField.hash f)) eqn:Hdone;
      [right; reflexivity|].
    left. unfold todo, filterNewQuestions. apply filter_In. split; [exact Hfield|].
    rewrite Hdone. destruct (FormField.isQuestion f); reflexivity. }
  assert (Hbatch :
    (forall q, In q todo ->
       is_processed (processedQuestions (fst (processQuestionsBatch now (Some rd) todo o)))
         (FormField.hash q) = true)
    /\ (forall h p, lookup h (processedQuestions o) = Some p ->
          lookup h (processedQuestions (fst (processQuestionsBatch now (Some rd) todo o)))
          = Some p)).
  { unfold processQuestionsBatch.
    destruct (RateLimiter.canProceed now (rateLimiter o)) as [ok recorded].
    cbn [fst] in Hgrant. subst ok. cbn [fst].
    fold (process_group now (Some rd)).
    match goal with |- context [fold_left _ _ ?start] =>
      destruct (groups_answer now rd (groupQuestionsByType todo) start) as [Hkeep Hcover]
    end.
    split.
    - intros q Hq. destruct (question_is_grouped todo q Hq) as [g [Hg Hin]].
      apply (Hcover g q Hg Hin).
    - intros h p Hp. apply Hkeep. exact Hp. }
  destruct Hbatch as [Hcover Hkeep].
  destruct todo as [|t0 todo'] eqn:Htodo.
  - destruct Hsplit as [[]|Hdone]. exact Hdone.
  - destruct Hsplit as [Hin|Hdone].
    + apply (Hcover f Hin).
    + apply is_processed_iff in Hdone.
      destruct (lookup (FormField.hash f) (processedQuestions o)) as [p|] eqn:Hp;
        [|congruence].
      apply is_processed_iff. rewrite (Hkeep _ _ Hp). discriminate.
Qed.

(** X30.  A change that was drained and answered is not answered again:
    when the same elements are drained a second time, at any later clock
    and whatever the rate limiter and the resume data then say, the
    answers marked as processed are exactly those from the first time. *)
Theorem second_drain_marks_nothing_new
    (now now' : Z) (rd : AutoFillData.t) (resumeData' : option AutoFillData.t)
    (elements : list ElementData.t) (o : t)
    (Hidle : isProcessing o = false)
    (Hgrant : fst (RateLimiter.canProceed now (rateLimiter o)) = true) :
  let once := processFormChanges now (Some rd) elements o in
  processedQuestions (processFormChanges now' resumeData' elements once)
  = processedQuestions once.
Proof.
  cbv zeta.
  assert (Hfree : isProcessing (processFormChanges now (Some rd) elements o) = false)
    by (unfold processFormChanges; rewrite Hidle; reflexivity).
  destruct (extractFormFields now elements) as [fields|] eqn:Hfields.
  - pose proof (drain_marks_every_field now rd elements o fields Hidle Hgrant Hfields)
      as Hmarked.
    set (once := processFormChanges now (Some rd) elements o) in *.
    unfold processFormChanges at 1. rewrite Hfree. cbn [processedQuestions].
    destruct (extractFormFields now' elements) as [fields'|] eqn:Hfields'; [|reflexivity].
    destruct (filterNewQuestions (processedQuestions once) fields')
      as [|q0 todo] eqn:Htodo; [reflexivity|].
    apply batch_all_processed. intros q Hq.
    assert (Hin : In q (filterNewQuestions (processedQuestions once) fields'))
      by (rewrite Htodo; exact Hq).
    unfold filterNewQuestions in Hin. apply filter_In in Hin. destruct Hin as [Hfield _].
    apply (proj2 (proj2 (extracted_fields now' elements fields' Hfields'))) in Hfield.
    destruct Hfield as [d [Hd Hq']].
    destruct (make_field_hash now' d q Hq') as [Hhash _].
    destruct (make_field_built now d _ Hhash) as [f [Hf [<- _]]].
    apply Hmarked.
    apply (proj2 (proj2 (extracted_fields now elements fields Hfields))).
    exists d. split; assumption.
  - assert (Hthrown : extractFormFields now' elements = None).
    { unfold extractFormFields in *.
      destruct (make_fields now elements) eqn:Hbuilt; [discriminate|].
      apply (make_fields_any_clock now now') in Hbuilt. rewrite Hbuilt. reflexivity. }
    unfold processFormChanges at 1. rewrite Hfree, Hthrown. reflexivity.
Qed.

(** A form in which a required question and a text area have appeared. *)
Definition appeared_elements : list ElementData.t :=
  [ElementData.of_strings "INPUT" "text" "years" "years" "" "Years of experience" "" true;
   cover_letter_area].

Definition new_observer : t :=
  {| processedQuestions := []; rateLimiter := []; isProcessing := false; written := [] |}.

Lemma second_drain_marks_nothing_new_witness :
  processedQuestions
    (processFormChanges 2000 None appeared_elements
       (processFormChanges 1000 (Some (AutoFillData.mk None None None None None None))
          appeared_elements new_observer))
  = processedQuestions
      (processFormChanges 1000 (Some (AutoFillData.mk None None None None None None))
         appeared_elements new_observer).
Proof.
  exact (second_drain_marks_nothing_new 1000 2000
           (AutoFillData.mk None None None None None None) None appeared_elements
           new_observer eq_refl eq_refl).
Defined.

End DynamicFormObserver.
